(** * Per-country time-series analytics: anomaly detection, data-quality
    scoring and unemployment forecasting.

    Shallow embedding of the three dbt Python models
      models/marts/py_unemployment_forecast.py
      models/marts/py_anomaly_detection.py
      models/marts/py_data_quality_scores.py

    Numbers.  A Python float is modelled as [option Q]: [None] is NaN and
    [Some q] a finite value, with exact rational arithmetic on finite values
    (no rounding, no overflow), kept in lowest terms.  The one operation of the code that can reach
    an infinity from finite data, [pct_change], has its own three-way result.
    Square roots ([np.sqrt], and the one inside [Series.std]) are taken from
    an interface [Sqrt], of which only non-negativity and [sqrt 0 = 0] are
    used.

    Time.  [datetime.now()] is read from a clock: the k-th reading of a run
    is [clock k], and the models thread the number of readings made so far. *)

From Stdlib Require Import String ZArith QArith Qminmax Qabs Qround List Bool Lia Lqa.
From Stdlib Require Import Permutation Sorted DecimalString.
Import ListNotations.
Open Scope Q_scope.

(* ===================================================================== *)
(** * Floats with NaN                                                     *)
(* ===================================================================== *)

Definition float := option Q.
Definition NaN : float := None.
Definition num (q : Q) : float := Some q.
Definition of_nat (n : nat) : float := Some (inject_Z (Z.of_nat n)).

Definition isnan (a : float) : bool :=
match a with None => true | Some _ => false end.

(** Finite results are kept in lowest terms ([Qred]): equal values are then
    equal terms, and evaluation stays small. *)
Definition lift2 (f : Q -> Q -> Q) (a b : float) : float :=
match a, b with
| Some x, Some y => Some (Qred (f x y))
| _, _ => None
end.

Definition fadd := lift2 Qplus.
Definition fsub := lift2 Qminus.
Definition fmul := lift2 Qmult.

(** Float division.  A zero divisor gives a non-finite result in numpy (nan or
    an infinity); the model has a single non-finite value.  Every division
    written with [fdiv] below has a divisor that is non-zero on the paths the
    theorems are about; the division of [pct_change], which is not, is
    modelled separately in [Anomaly]. *)
Definition fdiv (a b : float) : float :=
match a, b with
| Some x, Some y => if Qeq_bool y 0 then None else Some (Qred (x / y))
| _, _ => None
end.

Definition fabs (a : float) : float := option_map Qabs a.

(** Comparisons with NaN are false. *)
Definition Qlt_bool (x y : Q) : bool := negb (Qle_bool y x).

Definition flt (a b : float) : bool :=
match a, b with Some x, Some y => Qlt_bool x y | _, _ => false end.
Definition fgt (a b : float) : bool := flt b a.
Definition fle (a b : float) : bool :=
match a, b with Some x, Some y => Qle_bool x y | _, _ => false end.
Definition fge (a b : float) : bool := fle b a.
Definition feq (a b : float) : bool :=
match a, b with Some x, Some y => Qeq_bool x y | _, _ => false end.

Declare Scope float_scope.
Delimit Scope float_scope with F.
Notation "a + b" := (fadd a b) : float_scope.
Notation "a - b" := (fsub a b) : float_scope.
Notation "a * b" := (fmul a b) : float_scope.
Notation "a / b" := (fdiv a b) : float_scope.

(** The square root of the numeric library. *)
Class Sqrt := {
  sqrtQ : Q -> Q;
  sqrtQ_nonneg : forall x, 0 <= sqrtQ x;
  sqrtQ_zero : forall x, x == 0 -> sqrtQ x == 0
}.

Definition fsqrt `{Sqrt} (a : float) : float :=
match a with
| Some x => if Qlt_bool x 0 then None else Some (sqrtQ x)
| None => None
end.

(** A computable instance: the square root rounded down to a multiple of
    10^-6. *)
Definition sqrt_floor (x : Q) : Q :=
Z.sqrt (Qnum x * 1000000000000 / Z.pos (Qden x)) # 1000000.

(* ===================================================================== *)
(** * Series helpers (pandas / numpy)                                     *)
(* ===================================================================== *)

(** [Series.dropna()] on values. *)
Fixpoint dropna (s : list float) : list Q :=
match s with
| [] => []
| Some x :: t => x :: dropna t
| None :: t => dropna t
end.

Definition Qsum (l : list Q) : Q := fold_right (fun x acc => Qred (x + acc)) 0 l.

Definition Qlen {A} (l : list A) : Q := inject_Z (Z.of_nat (length l)).

(** [ndarray.mean()] of finite values: NaN on an empty array. *)
Definition mean (l : list Q) : float := fdiv (num (Qsum l)) (num (Qlen l)).

(** [np.nanmean]: NaN entries are left out; all-NaN gives NaN. *)
Definition nanmean (l : list float) : float := mean (dropna l).

(** [Series.mean()] skips NaN. *)
Definition series_mean (s : list float) : float := mean (dropna s).

(** Sample variance (ddof = 1) of the non-missing values: NaN below two
    values. *)
Definition var (l : list Q) : float :=
match mean l with
| Some m =>
    fdiv (num (Qsum (map (fun x => (x - m) * (x - m)) l)))
         (num (Qlen l - 1))
| None => None
end.

(** [Series.std()]: skips NaN, ddof = 1. *)
Definition std `{Sqrt} (s : list float) : float := fsqrt (var (dropna s)).

(** [Series.diff()]: NaN first, then [x_t - x_{t-1}]. *)
Fixpoint diff_from (prev : float) (s : list float) : list float :=
match s with
| [] => []
| x :: t => (x - prev)%F :: diff_from x t
end.

Definition diff (s : list float) : list float := diff_from NaN s.

(** [Series.unique()] on strings: first occurrences, in order. *)
Fixpoint unique (l : list string) : list string :=
match l with
| [] => []
| x :: t => x :: filter (fun y => negb (String.eqb x y)) (unique t)
end.

(* ===================================================================== *)
(** * Dates                                                               *)
(* ===================================================================== *)

Record date := mkdate { year : Z; month : Z; day : Z }.

Definition is_leap (y : Z) : bool :=
((y mod 4 =? 0) && negb (y mod 100 =? 0) || (y mod 400 =? 0))%Z.

Definition days_in_month (y m : Z) : Z :=
(if m =? 2 then (if is_leap y then 29 else 28)
 else if (m =? 4) || (m =? 6) || (m =? 9) || (m =? 11) then 30
 else 31)%Z.

(** [d + pd.DateOffset(months=k)]: same day of the month k months later,
    clipped to the length of the target month. *)
Definition add_months (d : date) (k : Z) : date :=
let t := (year d * 12 + (month d - 1) + k)%Z in
let y := (t / 12)%Z in
let m := (t mod 12 + 1)%Z in
mkdate y m (Z.min (day d) (days_in_month y m)).

(** [ts.replace(day=n)]. *)
Definition replace_day (d : date) (n : Z) : date := mkdate (year d) (month d) n.

(** Months since year 0, the calendar month a date lies in. *)
Definition month_index (d : date) : Z := (year d * 12 + (month d - 1))%Z.

Definition date_leb (a b : date) : bool :=
((year a <? year b)
 || ((year a =? year b)
     && ((month a <? month b) || ((month a =? month b) && (day a <=? day b)))))%Z.

Definition date_max (a b : date) : date := if date_leb a b then b else a.

(** [index.max()] of a non-empty index. *)
Definition index_max (l : list date) : date :=
match l with
| [] => mkdate 0 0 0
| d :: t => fold_left date_max t d
end.

(** Days since 1970-01-01 of a civil (proleptic Gregorian) date. *)
Definition days_from_civil (d : date) : Z :=
(let y := if month d <=? 2 then year d - 1 else year d in
 let era := y / 400 in
 let yoe := y - era * 400 in
 let mp := (month d + 9) mod 12 in
 let doy := (153 * mp + 2) / 5 + day d - 1 in
 let doe := yoe * 365 + yoe / 4 - yoe / 100 + doy in
 era * 146097 + doe - 719468)%Z.

(** A [datetime]: microseconds since 1970-01-01T00:00. *)
Definition datetime := Z.
Definition us_per_day : Z := 86400000000.

Definition to_datetime (d : date) : datetime := (days_from_civil d * us_per_day)%Z.

(** [(a - b).days]: a timedelta is normalised with the day count rounded
    down. *)
Definition timedelta_days (a b : datetime) : Z := ((a - b) / us_per_day)%Z.

(* ===================================================================== *)
(** * The fact relation, fct_economic_indicators                          *)
(* ===================================================================== *)

Module Fact.

Record Row := mkRow {
  indicator_key : string;
  country_code : string;
  reference_date : date;
  reference_year : Z;
  reference_month : Z;
  unemployment_rate_pct : float;
  inflation_rate_mom_pct : float
}.

(** A DataFrame of the relation: the names of the columns it has, and its
    rows.  The fields of a column that the frame does not have are not read. *)
Record Frame := mkFrame { columns : list string; rows : list Row }.

End Fact.

Import Fact.

Definition has_column (df : Frame) (c : string) : bool :=
existsb (String.eqb c) (columns df).

(** [df[df['country_code'] == c]]. *)
Definition of_country (c : string) (rs : list Row) : list Row :=
filter (fun r => String.eqb (country_code r) c) rs.

(** [sort_values('reference_date')], as a stable insertion sort.  The relation
    has no two rows of a country on one date, so that the order is the same
    for every sorting algorithm. *)
Fixpoint insert_by_date (r : Row) (l : list Row) : list Row :=
match l with
| [] => [r]
| h :: t =>
    if date_leb (reference_date r) (reference_date h) then r :: h :: t
    else h :: insert_by_date r t
end.

Definition sort_values (l : list Row) : list Row := fold_right insert_by_date [] l.

(** What a model run raises. *)
Inductive result (A : Type) : Type :=
| Ok (a : A)
| KeyError (column : string)
| ValueError (message : string).
Arguments Ok {A} a.
Arguments KeyError {A} column.
Arguments ValueError {A} message.

(* ===================================================================== *)
(** * Clock readings                                                      *)
(* ===================================================================== *)

Section Clock.

Variable clock : nat -> datetime.

(** A computation that reads the clock: from the number of readings made
    before it, its value and the number made after it. *)
Definition M (A : Type) : Type := nat -> A * nat.

Definition ret {A} (a : A) : M A := fun k => (a, k).

Definition bind {A B} (m : M A) (f : A -> M B) : M B :=
fun k => let (a, k') := m k in f a k'.

Definition datetime_now : M datetime := fun k => (clock k, S k).

Fixpoint mapM {A B} (f : A -> M B) (l : list A) : M (list B) :=
match l with
| [] => ret []
| x :: t => bind (f x) (fun y => bind (mapM f t) (fun ys => ret (y :: ys)))
end.

Definition run {A} (m : M A) : A := fst (m 0%nat).

End Clock.

Arguments ret {A} a.
Arguments bind {A B} m f.
Arguments mapM {A B} f l.
Arguments run {A} m.

Notation "x <- m ;; k" := (bind m (fun x => k))
  (at level 61, m at next level, right associativity).

(** Index-carrying series: [df.set_index('reference_date')[col]]. *)
Definition Series := list (date * float).

Definition values (s : Series) : list float := map snd s.
Definition index (s : Series) : list date := map fst s.

Definition dropna_series (s : Series) : Series :=
filter (fun p => negb (isnan (snd p))) s.

Definition fsum (l : list float) : float := fold_right fadd (num 0) l.

(* ===================================================================== *)
(** * py_unemployment_forecast.py                                         *)
(* ===================================================================== *)

Module Forecast.

Record ForecastRecord := mkForecastRecord {
  country_code : string;
  forecast_date : date;
  forecast_horizon_months : nat;
  last_actual_date : date;
  last_actual_value : float;
  forecast_exp_smoothing : float;
  forecast_holt : float;
  forecast_linear_reg : float;
  forecast_ensemble : float;
  prediction_interval_lower : float;
  prediction_interval_upper : float;
  forecast_generated_at : datetime;
  model_version : string;
  min_training_samples : nat
}.

(** A row of the returned frame: the record and the two columns added after
    the loop. *)
Record Forecast := mkForecast {
  record : ForecastRecord;
  prediction_interval_width : float;
  forecast_confidence : string
}.

Definition FORECAST_HORIZON : nat := 6.
Definition MIN_HISTORY_MONTHS : nat := 24.

Section Model.

Context `{Sqrt}.
Variable clock : nat -> datetime.

Definition exponential_smoothing (series : list float) (alpha : Q) : float :=
if (length series <? 2)%nat then last series NaN
else
  fold_left
    (fun result value => (num alpha * value + num (1 - alpha) * result)%F)
    (tl series) (hd NaN series).

Definition holt_update (alpha beta : Q) (st : float * float) (value : float)
  : float * float :=
let (level, trend) := st in
let last_level := level in
let level := (num alpha * value + num (1 - alpha) * (level + trend))%F in
let trend := (num beta * (level - last_level) + num (1 - beta) * trend)%F in
(level, trend).

Definition holt_linear_trend (series : list float) (alpha beta : Q)
  : float * float :=
if (length series <? 3)%nat then (last series NaN, num 0)
else
  let level := nth 0 series NaN in
  let trend := (nth 1 series NaN - nth 0 series NaN)%F in
  fold_left (holt_update alpha beta) (tl series) (level, trend).

(** [(x[mask], y[mask])] for [x = arange(len(series))], [mask = ~isnan(y)],
    from position [i] on. *)
Fixpoint masked (i : nat) (y : list float) : list (Q * Q) :=
match y with
| [] => []
| Some v :: t => (inject_Z (Z.of_nat i), v) :: masked (S i) t
| None :: t => masked (S i) t
end.

Definition linear_regression_forecast (series : list float) (periods_ahead : nat)
  : list float :=
if (length series <? 3)%nat then repeat (last series NaN) periods_ahead
else
  let xy := masked 0 series in
  let x := map fst xy in
  let y := map snd xy in
  if (length x <? 3)%nat then
    repeat (last (map num (dropna series)) NaN) periods_ahead
  else
    let x_mean := mean x in
    let y_mean := mean y in
    let slope :=
      (fsum (map (fun p => (num (fst p) - x_mean) * (num (snd p) - y_mean)) xy)
       / fsum (map (fun xi => (num xi - x_mean) * (num xi - x_mean)) x))%F in
    let intercept := (y_mean - slope * x_mean)%F in
    map (fun future_x => (intercept + slope * of_nat future_x)%F)
        (seq (length series) periods_ahead).

(** [margin] of [calculate_prediction_interval]: from the historical values
    and the confidence level only. *)
Definition prediction_margin (historical_values : list float) (confidence : Q)
  : float :=
let changes := map num (dropna (diff historical_values)) in
let std := std changes in
let z := if Qeq_bool confidence (95 # 100) then 196 # 100 else 1645 # 1000 in
(num z * std
 * fsqrt (num 1 + num 1 / of_nat (length historical_values)))%F.

Definition calculate_prediction_interval
  (historical_values : list float) (forecast : float) (confidence : Q)
  : float * float :=
if (length historical_values <? 5)%nat then
  ((forecast - num 1)%F, (forecast + num 1)%F)
else
  let margin := prediction_margin historical_values confidence in
  ((forecast - margin)%F, (forecast + margin)%F).

(** The dict appended in [for i in range(FORECAST_HORIZON)], given the reading
    of the clock that goes into it. *)
Definition forecast_dict (country : string) (unemp_series : Series)
  (last_date : date) (last_value es_forecast level trend : float)
  (lr_forecasts : list float) (i : nat) (generated_at : datetime)
  : ForecastRecord :=
let forecast_date := add_months last_date (Z.of_nat i + 1) in
let forecast_date := replace_day forecast_date 1 in
let holt_forecast := (level + of_nat (i + 1) * trend)%F in
let methods_forecasts :=
  [ (es_forecast + of_nat i * trend)%F;
    holt_forecast;
    nth i lr_forecasts NaN ] in
let ensemble_forecast := nanmean methods_forecasts in
let interval :=
  calculate_prediction_interval (values unemp_series) ensemble_forecast
    (95 # 100) in
{| country_code := country;
   forecast_date := forecast_date;
   forecast_horizon_months := i + 1;
   last_actual_date := last_date;
   last_actual_value := last_value;
   forecast_exp_smoothing := (es_forecast + of_nat i * trend)%F;
   forecast_holt := holt_forecast;
   forecast_linear_reg := nth i lr_forecasts NaN;
   forecast_ensemble := ensemble_forecast;
   prediction_interval_lower := fst interval;
   prediction_interval_upper := snd interval;
   forecast_generated_at := generated_at;
   model_version := "1.0.0";
   min_training_samples := length unemp_series |}.

(** The body of [for i in range(FORECAST_HORIZON)]. *)
Definition forecast_row (country : string) (unemp_series : Series)
  (last_date : date) (last_value es_forecast level trend : float)
  (lr_forecasts : list float) (i : nat) : M ForecastRecord :=
generated_at <- datetime_now clock ;;
ret (forecast_dict country unemp_series last_date last_value es_forecast
       level trend lr_forecasts i generated_at).

(** The unemployment series of a country: its rows by date, the rows with a
    missing rate dropped. *)
Definition unemployment_series (monthly_df : list Row) (country : string)
  : Series :=
let country_data := of_country country monthly_df in
let country_data := sort_values country_data in
dropna_series
  (map (fun r => (reference_date r, unemployment_rate_pct r)) country_data).

(** The body of [for country_code in monthly_df['country_code'].unique()]. *)
Definition country_forecasts (monthly_df : list Row) (country : string)
  : M (list ForecastRecord) :=
let unemp_series := unemployment_series monthly_df country in
if (length unemp_series <? MIN_HISTORY_MONTHS)%nat then ret []
else
  let last_date := index_max (index unemp_series) in
  let last_value := last (values unemp_series) NaN in
  let es_forecast := exponential_smoothing (values unemp_series) (3 # 10) in
  let holt := holt_linear_trend (values unemp_series) (3 # 10) (1 # 10) in
  let level := fst holt in
  let trend := snd holt in
  let lr_forecasts :=
    linear_regression_forecast (values unemp_series) FORECAST_HORIZON in
  mapM (forecast_row country unemp_series last_date last_value es_forecast
          level trend lr_forecasts)
       (seq 0 FORECAST_HORIZON).

Definition confidence_of (width : float) : string :=
if flt width (num 1) then "high"
else if flt width (num 2) then "medium"
else "low".

(** The columns added to [result_df] after the loop. *)
Definition add_uncertainty (r : ForecastRecord) : Forecast :=
let width := (prediction_interval_upper r - prediction_interval_lower r)%F in
{| record := r;
   prediction_interval_width := width;
   forecast_confidence := confidence_of width |}.

(** [model(dbt, session)].  The unemployment column is indexed in the first
    iteration of the loop; [country_code] and [reference_date] are columns of
    every frame. *)
Definition model (monthly_df : Frame) : M (result (list Forecast)) :=
let countries := unique (map Fact.country_code (rows monthly_df)) in
match countries with
| [] => ret (Ok [])
| _ :: _ =>
    if has_column monthly_df "unemployment_rate_pct" then
      forecasts <- mapM (country_forecasts (rows monthly_df)) countries ;;
      ret (Ok (map add_uncertainty (concat forecasts)))
    else ret (KeyError "unemployment_rate_pct")
end.

End Model.

End Forecast.

(* ===================================================================== *)
(** * py_anomaly_detection.py                                             *)
(* ===================================================================== *)

Module Anomaly.

(** A row of [country_data] / [result_df] inside the model: the input row and
    the six columns the loop may add.  A column the loop did not add is absent
    from the frame's column list, and its field here is never read. *)
Record Scored := mkScored {
  base : Row;
  unemployment_z_score : float;
  unemployment_iqr_outlier : bool;
  unemployment_roc_anomaly : bool;
  inflation_z_score : float;
  inflation_iqr_outlier : bool;
  inflation_roc_anomaly : bool
}.

(** A row of the returned frame. *)
Record AnomalyRecord := mkAnomalyRecord {
  source : Row;
  z_unemployment : float;
  z_inflation : float;
  is_unemployment_anomaly : bool;
  is_inflation_anomaly : bool;
  is_any_anomaly : bool;
  anomaly_severity_score : Q
}.

Record AnomalyFrame := mkAnomalyFrame {
  output_columns : list string;
  output_rows : list AnomalyRecord
}.

Definition Z_SCORE_THRESHOLD : Q := 3.
Definition IQR_MULTIPLIER : Q := 3 # 2.
Definition RATE_OF_CHANGE_THRESHOLD : Q := 1 # 2.

(** [|x_t / x_{t-1} - 1|] as pandas computes it: a zero previous value gives an
    infinity, or NaN when the value is zero too. *)
Inductive ratio := Finite (q : Q) | Infinite | Undefined.

Definition abs_pct (prev cur : float) : ratio :=
match prev, cur with
| Some p, Some c =>
    if Qeq_bool p 0 then (if Qeq_bool c 0 then Undefined else Infinite)
    else Finite (Qred (Qabs (c / p - 1)))
| _, _ => Undefined
end.

Fixpoint ffill_from (prev : float) (s : list float) : list float :=
match s with
| [] => []
| x :: t => let x' := if isnan x then prev else x in x' :: ffill_from x' t
end.

Fixpoint abs_pct_from (prev : float) (s : list float) : list ratio :=
match s with
| [] => []
| x :: t => abs_pct prev x :: abs_pct_from x t
end.

Definition ratio_gt (r : ratio) (threshold : Q) : bool :=
match r with
| Finite q => Qlt_bool threshold q
| Infinite => true
| Undefined => false
end.

Fixpoint insert_sorted (x : Q) (l : list Q) : list Q :=
match l with
| [] => [x]
| h :: t => if Qle_bool x h then x :: h :: t else h :: insert_sorted x t
end.

Definition sort (l : list Q) : list Q := fold_right insert_sorted [] l.

(** [Series.quantile(q)]: linear interpolation between the order statistics
    of the non-missing values; NaN when there is none. *)
Definition quantile (series : list float) (q : Q) : float :=
match sort (dropna series) with
| [] => NaN
| (v0 :: _) as v =>
    let pos := q * (Qlen v - 1) in
    let lo := Z.to_nat (Qfloor pos) in
    let hi := Nat.min (S lo) (length v - 1) in
    let frac := pos - inject_Z (Qfloor pos) in
    let a := nth lo v v0 in
    let b := nth hi v v0 in
    Some (Qred (a + (b - a) * frac))
end.

(** [mapi f l]: [f i x] for the element [x] at position [i]. *)
Fixpoint mapi_from {A B} (i : nat) (f : nat -> A -> B) (l : list A) : list B :=
match l with
| [] => []
| x :: t => f i x :: mapi_from (S i) f t
end.

Definition mapi {A B} (f : nat -> A -> B) (l : list A) : list B :=
mapi_from 0 f l.

(** Raises [KeyError] unless the frame has the column. *)
Definition getitem {A} (cols : list string) (name : string) (k : result A)
  : result A :=
if existsb (String.eqb name) cols then k else KeyError name.

Section Model.

Context `{Sqrt}.

(** Whether [Series.pct_change] fills missing values forward first (its
    default up to pandas 2) or not (pandas 3). *)
Variable pad : bool.

Definition calculate_z_scores (series : list float) : list float :=
let mean := series_mean series in
let std := std series in
if feq std (num 0) || isnan std then map (fun _ => num 0) series
else map (fun x => ((x - mean) / std)%F) series.

Definition detect_iqr_outliers (series : list float) : list bool :=
let q1 := quantile series (1 # 4) in
let q3 := quantile series (3 # 4) in
let iqr := (q3 - q1)%F in
let lower_bound := (q1 - num IQR_MULTIPLIER * iqr)%F in
let upper_bound := (q3 + num IQR_MULTIPLIER * iqr)%F in
map (fun x => flt x lower_bound || fgt x upper_bound) series.

Definition pct_change_abs (series : list float) : list ratio :=
abs_pct_from NaN (if pad then ffill_from NaN series else series).

Definition detect_rate_of_change_anomalies (series : list float) (threshold : Q)
  : list bool :=
map (fun r => ratio_gt r threshold) (pct_change_abs series).

(** The three columns of one indicator, as the two branches of
    [if len(series.dropna()) > 10] assign them. *)
Definition indicator_columns (series : list float)
  : list float * list bool * list bool :=
if (10 <? length (dropna series))%nat then
  (calculate_z_scores series,
   detect_iqr_outliers series,
   detect_rate_of_change_anomalies series RATE_OF_CHANGE_THRESHOLD)
else
  (map (fun _ => NaN) series,
   map (fun _ => false) series,
   map (fun _ => false) series).

(** The columns of an indicator that the loop did not add. *)
Definition no_columns : list float * list bool * list bool := ([], [], []).

(** The body of the loop over countries. *)
Definition score_country (monthly_df : Frame) (country : string)
  : list Scored :=
let country_data := of_country country (rows monthly_df) in
let country_data := sort_values country_data in
let '(uz, ui, ur) :=
  if has_column monthly_df "unemployment_rate_pct"
  then indicator_columns (map unemployment_rate_pct country_data)
  else no_columns in
let '(iz, ii, ir) :=
  if has_column monthly_df "inflation_rate_mom_pct"
  then indicator_columns (map inflation_rate_mom_pct country_data)
  else no_columns in
mapi (fun i r =>
        {| base := r;
           unemployment_z_score := nth i uz NaN;
           unemployment_iqr_outlier := nth i ui false;
           unemployment_roc_anomaly := nth i ur false;
           inflation_z_score := nth i iz NaN;
           inflation_iqr_outlier := nth i ii false;
           inflation_roc_anomaly := nth i ir false |})
     country_data.

(** The columns of [result_df] after the loop: an indicator's three columns
    are added only under [if '<indicator>' in country_data.columns]. *)
Definition scored_columns (monthly_df : Frame) : list string :=
columns monthly_df
++ (if has_column monthly_df "unemployment_rate_pct"
    then ["unemployment_z_score"; "unemployment_iqr_outlier";
          "unemployment_roc_anomaly"]%string
    else [])
++ (if has_column monthly_df "inflation_rate_mom_pct"
    then ["inflation_z_score"; "inflation_iqr_outlier";
          "inflation_roc_anomaly"]%string
    else []).

(** [result_df] after [pd.concat(results, ignore_index=True)]. *)
Definition scored_rows (monthly_df : Frame) : list Scored :=
concat (map (score_country monthly_df)
            (unique (map country_code (rows monthly_df)))).

Definition clip (x lo hi : Q) : Q := Qmin (Qmax x lo) hi.

Definition fillna (a : float) (v : Q) : Q :=
match a with Some x => x | None => v end.

Definition composite (z : float) (iqr roc : bool) : bool :=
fgt (fabs z) (num Z_SCORE_THRESHOLD) || iqr || roc.

Definition severity (zu zi : float) : Q :=
clip (Qred (clip (fillna (fabs zu) 0) 0 5 * 10
            + clip (fillna (fabs zi) 0) 0 5 * 10)) 0 100.

Definition finish (s : Scored) : AnomalyRecord :=
let u := composite (unemployment_z_score s) (unemployment_iqr_outlier s)
           (unemployment_roc_anomaly s) in
let i := composite (inflation_z_score s) (inflation_iqr_outlier s)
           (inflation_roc_anomaly s) in
{| source := base s;
   z_unemployment := unemployment_z_score s;
   z_inflation := inflation_z_score s;
   is_unemployment_anomaly := u;
   is_inflation_anomaly := i;
   is_any_anomaly := u || i;
   anomaly_severity_score :=
     severity (unemployment_z_score s) (inflation_z_score s) |}.

Definition wanted_columns : list string :=
[ "indicator_key"; "country_code"; "reference_date"; "reference_year";
  "reference_month"; "unemployment_rate_pct"; "inflation_rate_mom_pct";
  "unemployment_z_score"; "inflation_z_score"; "is_unemployment_anomaly";
  "is_inflation_anomaly"; "is_any_anomaly"; "anomaly_severity_score"
]%string.

(** [model(dbt, session)].  [pd.concat] raises on an empty list of frames; the
    composite flags index the six added columns whether or not the loop added
    them. *)
Definition model (monthly_df : Frame) : result AnomalyFrame :=
match unique (map country_code (rows monthly_df)) with
| [] => ValueError "No objects to concatenate"
| _ :: _ =>
    let result_df := scored_rows monthly_df in
    let cols := scored_columns monthly_df in
    getitem cols "unemployment_z_score"
   (getitem cols "unemployment_iqr_outlier"
   (getitem cols "unemployment_roc_anomaly"
   (getitem cols "inflation_z_score"
   (getitem cols "inflation_iqr_outlier"
   (getitem cols "inflation_roc_anomaly"
      (let cols :=
         cols ++ ["is_unemployment_anomaly"; "is_inflation_anomaly";
                  "is_any_anomaly"; "anomaly_severity_score"]%string in
       Ok {| output_columns :=
               filter (fun c => existsb (String.eqb c) cols) wanted_columns;
             output_rows := map finish result_df |}))))))
end.

End Model.

End Anomaly.

(* ===================================================================== *)
(** * py_data_quality_scores.py                                           *)
(* ===================================================================== *)

Module Quality.

(** A Python dict of scores: keys in insertion order. *)
Definition dict := list (string * float).

Fixpoint get (d : dict) (key : string) (default : float) : float :=
match d with
| [] => default
| (k, v) :: t => if String.eqb k key then v else get t key default
end.

Definition dict_values (d : dict) : list float := map snd d.

(** [np.mean] of a list of floats. *)
Definition np_mean (l : list float) : float := fdiv (fsum l) (num (Qlen l)).

(** [Series.mean()] of a boolean series. *)
Definition bool_mean (l : list bool) : float :=
fdiv (num (Qlen (filter (fun b => b) l))) (num (Qlen l)).

(** Python's [max(0, x)]: [x] when [x > 0], else [0]. *)
Definition max0 (x : float) : float := if fgt x (num 0) then x else num 0.

Definition EXPECTED_UNEMPLOYMENT_MIN : Q := 0.
Definition EXPECTED_UNEMPLOYMENT_MAX : Q := 30.
Definition EXPECTED_INFLATION_MIN : Q := -5.
Definition EXPECTED_INFLATION_MAX : Q := 20.
Definition TIMELINESS_THRESHOLD_DAYS : Z := 90.

(** The dict [calculate_timeliness] returns: a missing key reads as [None]. *)
Record Timeliness := mkTimeliness {
  t_timeliness_score : float;
  t_days_since_latest : option Z;
  t_latest_data_date : option date
}.

Record QualityRecord := mkQualityRecord {
  country_code : string;
  total_records : nat;
  completeness_score : float;
  unemployment_completeness : float;
  inflation_completeness : float;
  timeliness_score : float;
  days_since_latest_data : option Z;
  latest_data_date : option date;
  validity_score : float;
  unemployment_validity : float;
  inflation_validity : float;
  consistency_score : float;
  overall_quality_score : float;
  quality_grade : string;
  scored_at : datetime;
  scoring_model_version : string
}.

(** A row of the returned frame: the record and the two columns added after
    the loop. *)
Record Quality := mkQuality {
  record : QualityRecord;
  primary_issue : string;
  requires_attention : bool
}.

Definition column_of (col : string) (r : Row) : float :=
if String.eqb col "unemployment_rate_pct" then unemployment_rate_pct r
else inflation_rate_mom_pct r.

Definition calculate_completeness (df : Frame) (cols : list string) : dict :=
let scores :=
  fold_left
    (fun scores col =>
       if has_column df col then
         let non_null_pct :=
           (bool_mean (map (fun r => negb (isnan (column_of col r))) (rows df))
            * num 100)%F in
         scores ++ [((col ++ "_completeness")%string, non_null_pct)]
       else scores)
    cols [] in
match scores with
| [] => scores ++ [("overall_completeness"%string, num 0)]
| _ :: _ =>
    scores ++ [("overall_completeness"%string, np_mean (dict_values scores))]
end.

(** The score of [calculate_timeliness] from the day count. *)
Definition timeliness_of_days (days_since_latest : Z) : float :=
if (days_since_latest <=? TIMELINESS_THRESHOLD_DAYS)%Z then num 100
else
  let months_late :=
    (num (inject_Z (days_since_latest - TIMELINESS_THRESHOLD_DAYS))
     / num 30)%F in
  max0 (num 100 - months_late * num 10)%F.

Definition in_range (lo hi : Q) (x : Q) : bool := Qle_bool lo x && Qle_bool x hi.

Definition calculate_validity (df : Frame) : dict :=
let validity_scores := [] in
let validity_scores :=
  if has_column df "unemployment_rate_pct" then
    let unemp := dropna (map unemployment_rate_pct (rows df)) in
    if (0 <? length unemp)%nat then
      let valid_pct :=
        (bool_mean
           (map (in_range EXPECTED_UNEMPLOYMENT_MIN EXPECTED_UNEMPLOYMENT_MAX)
                unemp)
         * num 100)%F in
      validity_scores ++ [("unemployment_validity"%string, valid_pct)]
    else validity_scores
  else validity_scores in
let validity_scores :=
  if has_column df "inflation_rate_mom_pct" then
    let infl := dropna (map inflation_rate_mom_pct (rows df)) in
    if (0 <? length infl)%nat then
      let valid_pct :=
        (bool_mean
           (map (in_range EXPECTED_INFLATION_MIN EXPECTED_INFLATION_MAX) infl)
         * num 100)%F in
      validity_scores ++ [("inflation_validity"%string, valid_pct)]
    else validity_scores
  else validity_scores in
match validity_scores with
| [] => validity_scores ++ [("overall_validity"%string, num 100)]
| _ :: _ =>
    validity_scores
    ++ [("overall_validity"%string, np_mean (dict_values validity_scores))]
end.

(** [(series.diff() == 0).sum()]: the positions whose value equals the one
    before. *)
Definition consecutive_same (series : list Q) : nat :=
length (filter (fun d => feq d (num 0)) (diff (map num series))).

Definition consistency_of (series : list Q) : float :=
let pct_repeated :=
  (of_nat (consecutive_same series) / of_nat (length series) * num 100)%F in
max0 (num 100 - pct_repeated * num 2)%F.

Definition calculate_consistency (df : Frame) : dict :=
let consistency_scores := [] in
let consistency_scores :=
  if has_column df "unemployment_rate_pct" then
    let unemp := dropna (map unemployment_rate_pct (rows df)) in
    if (10 <? length unemp)%nat then
      consistency_scores
      ++ [("unemployment_consistency"%string, consistency_of unemp)]
    else consistency_scores
  else consistency_scores in
let consistency_scores :=
  if has_column df "inflation_rate_mom_pct" then
    let infl := dropna (map inflation_rate_mom_pct (rows df)) in
    if (10 <? length infl)%nat then
      consistency_scores
      ++ [("inflation_consistency"%string, consistency_of infl)]
    else consistency_scores
  else consistency_scores in
match consistency_scores with
| [] => consistency_scores ++ [("overall_consistency"%string, num 100)]
| _ :: _ =>
    consistency_scores
    ++ [("overall_consistency"%string, np_mean (dict_values consistency_scores))]
end.

(** The grade ladder of the loop body. *)
Definition grade_of (overall_score : float) : string :=
if fge overall_score (num 90) then "A"
else if fge overall_score (num 80) then "B"
else if fge overall_score (num 70) then "C"
else if fge overall_score (num 60) then "D"
else "F".

Definition overall_of (completeness timeliness validity consistency : float)
  : float :=
(num (30 # 100) * completeness
 + num (25 # 100) * timeliness
 + num (25 # 100) * validity
 + num (20 # 100) * consistency)%F.

Section Model.

Variable clock : nat -> datetime.

Definition calculate_timeliness (df : Frame) (date_col : string)
  : M Timeliness :=
if negb (has_column df date_col) then
  ret {| t_timeliness_score := num 0;
         t_days_since_latest := None;
         t_latest_data_date := None |}
else
  match map reference_date (rows df) with
  | [] =>
      ret {| t_timeliness_score := num 0;
             t_days_since_latest := None;
             t_latest_data_date := None |}
  | d :: t =>
      let latest_date := fold_left date_max t d in
      now <- datetime_now clock ;;
      let days_since_latest := timedelta_days now (to_datetime latest_date) in
      ret {| t_timeliness_score := timeliness_of_days days_since_latest;
             t_days_since_latest := Some days_since_latest;
             t_latest_data_date := Some latest_date |}
  end.

(** The record of a country, given the timeliness dict and the reading of
    the clock that goes into [scored_at].  [country_data] keeps the order of
    the rows of [monthly_df]: this model does not sort. *)
Definition quality_dict (country_data : Frame) (country : string)
  (timeliness : Timeliness) (now : datetime) : QualityRecord :=
let completeness :=
  calculate_completeness country_data
    ["unemployment_rate_pct"; "inflation_rate_mom_pct"]%string in
let validity := calculate_validity country_data in
let consistency := calculate_consistency country_data in
let overall_score :=
  overall_of (get completeness "overall_completeness" (num 0))
             (t_timeliness_score timeliness)
             (get validity "overall_validity" (num 0))
             (get consistency "overall_consistency" (num 0)) in
let quality_grade := grade_of overall_score in
{| country_code := country;
   total_records := length (rows country_data);
   completeness_score := get completeness "overall_completeness" (num 0);
   unemployment_completeness :=
     get completeness "unemployment_rate_pct_completeness" (num 0);
   inflation_completeness :=
     get completeness "inflation_rate_mom_pct_completeness" (num 0);
   timeliness_score := t_timeliness_score timeliness;
   days_since_latest_data := t_days_since_latest timeliness;
   latest_data_date := t_latest_data_date timeliness;
   validity_score := get validity "overall_validity" (num 0);
   unemployment_validity := get validity "unemployment_validity" (num 0);
   inflation_validity := get validity "inflation_validity" (num 0);
   consistency_score := get consistency "overall_consistency" (num 0);
   overall_quality_score := overall_score;
   quality_grade := quality_grade;
   scored_at := now;
   scoring_model_version := "1.0.0" |}.

(** The body of the loop over countries: the clock is read once for the
    timeliness score and once for [scored_at]. *)
Definition score_country (monthly_df : Frame) (country : string)
  : M QualityRecord :=
let country_data :=
  {| columns := columns monthly_df;
     rows := of_country country (rows monthly_df) |} in
timeliness <- calculate_timeliness country_data "reference_date"%string ;;
now <- datetime_now clock ;;
ret (quality_dict country_data country timeliness now).

Definition primary_issue_of (r : QualityRecord) : string :=
if flt (completeness_score r) (num 80) then "completeness"
else if flt (timeliness_score r) (num 80) then "timeliness"
else if flt (validity_score r) (num 80) then "validity"
else if flt (consistency_score r) (num 80) then "consistency"
else "none".

Definition add_recommendations (r : QualityRecord) : Quality :=
{| record := r;
   primary_issue := primary_issue_of r;
   requires_attention := flt (overall_quality_score r) (num 70) |}.

(** [model(dbt, session)]. *)
Definition model (monthly_df : Frame) : M (list Quality) :=
quality_scores <-
  mapM (score_country monthly_df)
       (unique (map Fact.country_code (rows monthly_df))) ;;
ret (map add_recommendations quality_scores).

End Model.

End Quality.

(* ===================================================================== *)
(** * scripts/extract_eurostat.py                                         *)
(* ===================================================================== *)

Module Eurostat.

(** A Python dict: the keys in insertion order, each once. *)
Section Dict.

Context {K V : Type} (eqb : K -> K -> bool).

Fixpoint dict_get (d : list (K * V)) (k : K) : option V :=
match d with
| [] => None
| (k', v) :: t => if eqb k' k then Some v else dict_get t k
end.

(** [d[k] = v]: in place when the key is there, at the end when not. *)
Fixpoint dict_set (d : list (K * V)) (k : K) (v : V) : list (K * V) :=
match d with
| [] => [(k, v)]
| (k', v') :: t => if eqb k' k then (k', v) :: t else (k', v') :: dict_set t k v
end.

(** [d.get(k, default)]. *)
Definition dict_get_default (d : list (K * V)) (k : K) (default : V) : V :=
match dict_get d k with Some v => v | None => default end.

End Dict.

(** ** [fetch_eurostat_data]: the query parameters *)

(** A value of [params]: a string or a list of strings. *)
Inductive param := One (v : string) | Many (vs : list string).

(** The body of [for v in value], for a list value. *)
Definition add_value (key : string) (query_params : list (string * param))
  (v : string) : list (string * param) :=
match dict_get String.eqb query_params key with
| Some (Many vs) => dict_set String.eqb query_params key (Many (vs ++ [v]))
| Some (One v0) => dict_set String.eqb query_params key (Many [v0; v])
| None => dict_set String.eqb query_params key (One v)
end.

(** The body of [for key, value in params.items()]. *)
Definition add_param (query_params : list (string * param))
  (kv : string * param) : list (string * param) :=
match snd kv with
| Many vs => fold_left (add_value (fst kv)) vs query_params
| One v => dict_set String.eqb query_params (fst kv) (One v)
end.

(** [query_params] as passed to [requests.get]. *)
Definition build_query_params (params : list (string * param))
  : list (string * param) :=
fold_left add_param params
  [("format", One "JSON"); ("lang", One "en")]%string.

(** ** [parse_eurostat_json] *)

(** [dimension[dim_id]["category"]]: [index] from code to position, [label]
    from code to label; a missing key reads as an empty dict. *)
Record Category := mkCategory {
  index : list (string * Z);
  label : list (string * string)
}.

(** The JSON-stat document: [value] from flat index (the key, read by
    [int]) to the observation, [None] for a JSON null. *)
Record Document := mkDocument {
  dimension : list (string * Category);
  id : list string;
  size : list Z;
  value : list (Z * float)
}.

(** An entry of [dim_labels]. *)
Record Labels := mkLabels {
  codes : list (Z * string);
  labels : list (string * string)
}.

(** A field of a record. *)
Inductive cell :=
| Str (s : string)
| Num (v : float)
| Stamp (t : datetime).

Inductive outcome (A : Type) : Type :=
| Done (a : A)
| IndexError
| ZeroDivisionError.
Arguments Done {A} a.
Arguments IndexError {A}.
Arguments ZeroDivisionError {A}.

(** [str(n)] of an integer. *)
Definition str (n : Z) : string := NilZero.string_of_int (Z.to_int n).

(** [{v: k for k, v in index.items()}]. *)
Definition invert (index : list (string * Z)) : list (Z * string) :=
fold_left (fun d kv => dict_set Z.eqb d (snd kv) (fst kv)) index [].

Definition build_dim_labels (dimensions : list (string * Category))
  (dim_ids : list string) : list (string * Labels) :=
fold_left
  (fun dim_labels dim_id =>
     let dim_info :=
       dict_get_default String.eqb dimensions dim_id (mkCategory [] []) in
     dict_set String.eqb dim_labels dim_id
       {| codes := invert (index dim_info); labels := label dim_info |})
  dim_ids [].

(** The loop over [reversed(dim_sizes)]: the strides so far and the running
    product. *)
Definition stride_step (st : list Z * Z) (size : Z) : list Z * Z :=
let (strides, stride) := st in (stride :: strides, (stride * size)%Z).

Definition compute_strides (dim_sizes : list Z) : list Z :=
fst (fold_left stride_step (rev dim_sizes) ([], 1%Z)).

(** The two fields the loop writes for a dimension at position [dim_idx]:
    the code of the position, [str(dim_idx)] when the index has none, and the
    label of the code, the code itself when there is none. *)
Definition write_dimension (dim_labels : list (string * Labels))
  (record : list (string * cell)) (dim_id : string) (dim_idx : Z)
  : list (string * cell) :=
let entry :=
  dict_get_default String.eqb dim_labels dim_id (mkLabels [] []) in
let code := dict_get_default Z.eqb (codes entry) dim_idx (str dim_idx) in
let record :=
  dict_set String.eqb record (dim_id ++ "_code")%string (Str code) in
dict_set String.eqb record (dim_id ++ "_label")%string
  (Str (dict_get_default String.eqb (labels entry) code code)).

(** The loop [for i, dim_id in enumerate(dim_ids)] from position [i] on.
    [strides[i]] raises [IndexError] past the end of the list, and [//]
    raises [ZeroDivisionError] on a zero stride. *)
Fixpoint decode_dimensions (dim_labels : list (string * Labels))
  (strides : list Z) (i : nat) (dim_ids : list string) (remaining : Z)
  (record : list (string * cell)) : outcome (list (string * cell)) :=
match dim_ids with
| [] => Done record
| dim_id :: rest =>
    match nth_error strides i with
    | None => IndexError
    | Some stride =>
        if (stride =? 0)%Z then ZeroDivisionError
        else
          let dim_idx := (remaining / stride)%Z in
          let remaining := (remaining mod stride)%Z in
          let record := write_dimension dim_labels record dim_id dim_idx in
          decode_dimensions dim_labels strides (S i) rest remaining record
    end
end.

(** The positions the loop computes, one per dimension id, when every
    stride it divides by exists and is not zero. *)
Fixpoint positions (strides : list Z) (remaining : Z) : list Z :=
match strides with
| [] => []
| stride :: rest =>
    (remaining / stride)%Z :: positions rest (remaining mod stride)%Z
end.

(** The flat index of a list of positions. *)
Fixpoint flat_index (strides idx : list Z) : Z :=
match strides, idx with
| stride :: rest, i :: is' => (i * stride + flat_index rest is')%Z
| _, _ => 0%Z
end.

Section Parse.

Variable clock : nat -> datetime.

(** The body of [for flat_idx, value in values.items()]. *)
Definition parse_value (dataset_code : string)
  (dim_labels : list (string * Labels)) (strides : list Z)
  (dim_ids : list string) (kv : Z * float)
  : M (outcome (list (string * cell))) :=
utcnow <- datetime_now clock ;;
let record :=
  [ ("dataset_code", Str dataset_code);
    ("value", Num (snd kv));
    ("extracted_at", Stamp utcnow) ]%string in
ret (decode_dimensions dim_labels strides 0 dim_ids (fst kv) record).

(** The loop over the values: an exception ends it. *)
Fixpoint parse_values (dataset_code : string)
  (dim_labels : list (string * Labels)) (strides : list Z)
  (dim_ids : list string) (values : list (Z * float))
  (records : list (list (string * cell)))
  : M (outcome (list (list (string * cell)))) :=
match values with
| [] => ret (Done records)
| kv :: rest =>
    r <- parse_value dataset_code dim_labels strides dim_ids kv ;;
    match r with
    | Done record =>
        parse_values dataset_code dim_labels strides dim_ids rest
          (records ++ [record])
    | IndexError => ret IndexError
    | ZeroDivisionError => ret ZeroDivisionError
    end
end.

Definition parse_eurostat_json (data : Document) (dataset_code : string)
  : M (outcome (list (list (string * cell)))) :=
let dim_labels := build_dim_labels (dimension data) (id data) in
let strides := compute_strides (size data) in
parse_values dataset_code dim_labels strides (id data) (value data) [].

End Parse.

End Eurostat.

(** No value of the series [prev, l...] equals the one before it. *)
Fixpoint changes_every_step (prev : Q) (l : list Q) : Prop :=
match l with
| [] => True
| x :: t => ~ x == prev /\ changes_every_step x t
end.


(** Ascending reference dates. *)
Definition date_le (a b : date) : Prop := date_leb a b = true.

Definition row_date_le (r1 r2 : Row) : Prop :=
  date_le (reference_date r1) (reference_date r2).

(** A float that is a number between 0 and 100. *)
Definition percent (a : float) : Prop :=
  exists s, a = Some s /\ 0 <= s <= 100.

(** The product of a list of sizes. *)
Definition product (l : list Z) : Z := fold_right Z.mul 1%Z l.

(** What a list value of [params] leaves under its key: nothing for an empty
    list, the string for a single one, the list from two on. *)
Definition param_of_list (vs : list string) : option Eurostat.param :=
match vs with
| [] => None
| [v] => Some (Eurostat.One v)
| _ => Some (Eurostat.Many vs)
end.

(** What a parameter leaves under its key in a query that did not have the
    key. *)
Definition entry_of_param (value : Eurostat.param) : option Eurostat.param :=
match value with
| Eurostat.One v => Some (Eurostat.One v)
| Eurostat.Many vs => param_of_list vs
end.

(** The record of a value entry before the dimensions are decoded. *)
Definition base_record (dataset_code : string) (v : float) (t : datetime)
  : list (string * Eurostat.cell) :=
[ ("dataset_code", Eurostat.Str dataset_code);
  ("value", Eurostat.Num v);
  ("extracted_at", Eurostat.Stamp t) ]%string.

(** The record with the fields of the dimensions [dim_ids] at the positions
    [idx] written into it, in order. *)
Definition write_dimensions (dim_labels : list (string * Eurostat.Labels))
  (dim_ids : list string) (idx : list Z)
  (record : list (string * Eurostat.cell)) : list (string * Eurostat.cell) :=
fold_left (fun rec di => Eurostat.write_dimension dim_labels rec (fst di) (snd di))
          (combine dim_ids idx) record.

(* ===================================================================== *)
(** * What the specification says of the ensemble, and sample relations   *)
(* ===================================================================== *)

(** The ensemble at horizon [h] in the words of the specification: the mean
    of (smoothed level + h * trend), (Holt level + h * trend) and the
    regression forecast, missing components left out. *)
Definition ensemble_as_specified (series : list float) (h : nat) : float :=
let es := Forecast.exponential_smoothing series (3 # 10) in
let holt := Forecast.holt_linear_trend series (3 # 10) (1 # 10) in
let lr := Forecast.linear_regression_forecast series Forecast.FORECAST_HORIZON in
nanmean [ (es + of_nat h * snd holt)%F;
          (fst holt + of_nat h * snd holt)%F;
          nth (h - 1) lr NaN ].

(** The observations of a country with a non-missing unemployment rate. *)
Definition observed (monthly_df : Frame) (country : string) : list Row :=
filter (fun r => negb (isnan (unemployment_rate_pct r)))
       (of_country country (rows monthly_df)).

(** The non-missing values of an indicator in a country. *)
Definition non_missing (col : Row -> float) (monthly_df : Frame)
  (country : string) : list Q :=
dropna (map col (of_country country (rows monthly_df))).

(** A quality row with its timestamp field blanked. *)
Definition without_scored_at (q : Quality.Quality) : Quality.Quality :=
let r := Quality.record q in
{| Quality.record :=
     {| Quality.country_code := Quality.country_code r;
        Quality.total_records := Quality.total_records r;
        Quality.completeness_score := Quality.completeness_score r;
        Quality.unemployment_completeness := Quality.unemployment_completeness r;
        Quality.inflation_completeness := Quality.inflation_completeness r;
        Quality.timeliness_score := Quality.timeliness_score r;
        Quality.days_since_latest_data := Quality.days_since_latest_data r;
        Quality.latest_data_date := Quality.latest_data_date r;
        Quality.validity_score := Quality.validity_score r;
        Quality.unemployment_validity := Quality.unemployment_validity r;
        Quality.inflation_validity := Quality.inflation_validity r;
        Quality.consistency_score := Quality.consistency_score r;
        Quality.overall_quality_score := Quality.overall_quality_score r;
        Quality.quality_grade := Quality.quality_grade r;
        Quality.scored_at := 0%Z;
        Quality.scoring_model_version := Quality.scoring_model_version r |};
   Quality.primary_issue := Quality.primary_issue q;
   Quality.requires_attention := Quality.requires_attention q |}.

(** The fields of a quality row that are computed without the clock. *)
Definition clock_free_fields (q : Quality.Quality) :=
let r := Quality.record q in
(Quality.country_code r, Quality.total_records r,
 Quality.completeness_score r, Quality.unemployment_completeness r,
 Quality.inflation_completeness r, Quality.latest_data_date r,
 Quality.validity_score r, Quality.unemployment_validity r,
 Quality.inflation_validity r, Quality.consistency_score r,
 Quality.scoring_model_version r).

(** The fields of a quality row that are computed from the day count between
    the run and the latest reference date. *)
Definition day_count_fields (q : Quality.Quality) :=
let r := Quality.record q in
(Quality.timeliness_score r, Quality.overall_quality_score r,
 Quality.quality_grade r, Quality.primary_issue q,
 Quality.requires_attention q).

(** Two quality records of one country agree on the clock-free fields, and on
    everything but [scored_at] when their day counts agree. *)
Definition quality_agree (r1 r2 : Quality.QualityRecord) : Prop :=
  clock_free_fields (Quality.add_recommendations r1)
  = clock_free_fields (Quality.add_recommendations r2)
  /\ (Quality.days_since_latest_data r1 = Quality.days_since_latest_data r2 ->
      without_scored_at (Quality.add_recommendations r1)
      = without_scored_at (Quality.add_recommendations r2)).

(** The dict the forecast loop appends for a country at position [i] of
    [range(FORECAST_HORIZON)], stamped [t]. *)
Definition forecast_of (monthly_df : list Row) (country : string) (i : nat)
  (t : datetime) `{Sqrt} : Forecast.ForecastRecord :=
let unemp_series := Forecast.unemployment_series monthly_df country in
let holt :=
  Forecast.holt_linear_trend (values unemp_series) (3 # 10) (1 # 10) in
Forecast.forecast_dict country unemp_series
  (index_max (index unemp_series))
  (last (values unemp_series) NaN)
  (Forecast.exponential_smoothing (values unemp_series) (3 # 10))
  (fst holt) (snd holt)
  (Forecast.linear_regression_forecast (values unemp_series)
     Forecast.FORECAST_HORIZON)
  i t.

(** The rows of a forecast relation for one country. *)
Definition forecasts_of_country (country : string) (out : list Forecast.Forecast)
  : list Forecast.Forecast :=
filter (fun f => String.eqb (Forecast.country_code (Forecast.record f)) country)
       out.

(** [last] is the last observed date of a country: the latest reference date
    among its rows with a non-missing unemployment rate. *)
Definition last_observed_date (monthly_df : Frame) (country : string)
  (last : date) : Prop :=
  In last (map reference_date (observed monthly_df country))
  /\ forall d, In d (map reference_date (observed monthly_df country)) ->
               date_leb d last = true.

(** The two tracked indicators, with their column of the relation and their
    columns of the anomaly model. *)
Inductive indicator := Unemployment | Inflation.

Definition column_name (ind : indicator) : string :=
match ind with
| Unemployment => "unemployment_rate_pct"
| Inflation => "inflation_rate_mom_pct"
end.

Definition value_of (ind : indicator) (r : Row) : float :=
match ind with
| Unemployment => unemployment_rate_pct r
| Inflation => inflation_rate_mom_pct r
end.

Definition z_score_of (ind : indicator) (s : Anomaly.Scored) : float :=
match ind with
| Unemployment => Anomaly.unemployment_z_score s
| Inflation => Anomaly.inflation_z_score s
end.

Definition iqr_outlier_of (ind : indicator) (s : Anomaly.Scored) : bool :=
match ind with
| Unemployment => Anomaly.unemployment_iqr_outlier s
| Inflation => Anomaly.inflation_iqr_outlier s
end.

Definition roc_anomaly_of (ind : indicator) (s : Anomaly.Scored) : bool :=
match ind with
| Unemployment => Anomaly.unemployment_roc_anomaly s
| Inflation => Anomaly.inflation_roc_anomaly s
end.

Definition output_z_score_of (ind : indicator) (a : Anomaly.AnomalyRecord)
  : float :=
match ind with
| Unemployment => Anomaly.z_unemployment a
| Inflation => Anomaly.z_inflation a
end.

Definition is_anomaly_of (ind : indicator) (a : Anomaly.AnomalyRecord) : bool :=
match ind with
| Unemployment => Anomaly.is_unemployment_anomaly a
| Inflation => Anomaly.is_inflation_anomaly a
end.

(** The entries at position [i] of the three columns of an indicator, as a
    row of [country_data] reads them. *)
Definition columns_at (cols : list float * list bool * list bool) (i : nat)
  : float * bool * bool :=
(nth i (fst (fst cols)) NaN, nth i (snd (fst cols)) false,
 nth i (snd cols) false).

(** The three columns of an indicator in the [country_data] of a country, as
    the loop body leaves them. *)
Definition columns_of_indicator `{Sqrt} (pad : bool) (monthly_df : Frame)
  (country : string) (ind : indicator) : list float * list bool * list bool :=
if has_column monthly_df (column_name ind) then
  Anomaly.indicator_columns pad
    (map (value_of ind) (sort_values (of_country country (rows monthly_df))))
else Anomaly.no_columns.

(** The rows of an anomaly relation for one country. *)
Definition anomalies_of_country (country : string)
  (out : list Anomaly.AnomalyRecord) : list Anomaly.AnomalyRecord :=
filter (fun a => String.eqb (country_code (Anomaly.source a)) country) out.

(** All non-missing values of an indicator in a country are identical. *)
Definition flat (ind : indicator) (monthly_df : Frame) (country : string)
  : Prop :=
  forall x y,
    In x (non_missing (value_of ind) monthly_df country) ->
    In y (non_missing (value_of ind) monthly_df country) ->
    x == y.

(** What the list of forecast rows of a country is: empty below 24
    observations, the six dicts of the loop from 24 on. *)
Definition country_group `{Sqrt} (rows : list Row) (c : string)
  (fs : list Forecast.Forecast) : Prop :=
  ((length (Forecast.unemployment_series rows c) < 24)%nat -> fs = [])
  /\ ((24 <= length (Forecast.unemployment_series rows c))%nat ->
      Forall2 (fun i f => exists t,
                 f = Forecast.add_uncertainty (forecast_of rows c i t))
              (seq 0 6) fs).


(** A forecast row with its timestamp field blanked. *)
Definition without_generated_at (f : Forecast.Forecast) : Forecast.Forecast :=
let r := Forecast.record f in
{| Forecast.record :=
     {| Forecast.country_code := Forecast.country_code r;
        Forecast.forecast_date := Forecast.forecast_date r;
        Forecast.forecast_horizon_months := Forecast.forecast_horizon_months r;
        Forecast.last_actual_date := Forecast.last_actual_date r;
        Forecast.last_actual_value := Forecast.last_actual_value r;
        Forecast.forecast_exp_smoothing := Forecast.forecast_exp_smoothing r;
        Forecast.forecast_holt := Forecast.forecast_holt r;
        Forecast.forecast_linear_reg := Forecast.forecast_linear_reg r;
        Forecast.forecast_ensemble := Forecast.forecast_ensemble r;
        Forecast.prediction_interval_lower := Forecast.prediction_interval_lower r;
        Forecast.prediction_interval_upper := Forecast.prediction_interval_upper r;
        Forecast.forecast_generated_at := 0%Z;
        Forecast.model_version := Forecast.model_version r;
        Forecast.min_training_samples := Forecast.min_training_samples r |};
   Forecast.prediction_interval_width := Forecast.prediction_interval_width f;
   Forecast.forecast_confidence := Forecast.forecast_confidence f |}.

Definition map_result {A B} (f : A -> B) (r : result A) : result B :=
match r with
| Ok a => Ok (f a)
| KeyError c => KeyError c
| ValueError m => ValueError m
end.

Module Sample.

Definition contract_columns : list string :=
[ "indicator_key"; "country_code"; "reference_date"; "reference_year";
  "reference_month"; "unemployment_rate_pct"; "inflation_rate_mom_pct"
]%string.

(** The [i]-th month from January 2020 on. *)
Definition month_row (country : string) (i : nat) (u infl : float) : Row :=
let y := (2020 + Z.of_nat i / 12)%Z in
let m := (Z.of_nat i mod 12 + 1)%Z in
mkRow "une_rt_m" country (mkdate y m 1) y m u infl.

(** Twenty-four months of unemployment 5.0, 5.1, ..., 7.3 for DE, and five
    months for MT. *)
Definition rising : Frame :=
mkFrame contract_columns
  (map (fun i => month_row "DE" i
                   (Some (Qred (5 + inject_Z (Z.of_nat i) / 10)))
                   (Some (1 # 10)))
       (seq 0 24)
   ++ map (fun i => month_row "MT" i (Some 3) (Some (2 # 10))) (seq 0 5)).

(** Eleven months alternating 5, 6, 5, ..., in date order, no inflation
    data. *)
Definition alternating_rows : list Row :=
map (fun i => month_row "DE" i (Some (if Nat.even i then 5 else 6)) NaN)
    (seq 0 11).

Definition alternating : Frame := mkFrame contract_columns alternating_rows.

(** The same rows, the first one moved to the end. *)
Definition alternating_rotated : Frame :=
mkFrame contract_columns (tl alternating_rows ++ firstn 1 alternating_rows).

(** Twelve months, six at 5 then six at 6, inflation rising: latest
    reference date 2020-12-01. *)
Definition stepped : Frame :=
mkFrame contract_columns
  (map (fun i => month_row "DE" i
                   (Some (if (i <? 6)%nat then 5 else 6))
                   (Some (Qred (inject_Z (Z.of_nat i) / 10))))
       (seq 0 12)).

(** A relation without the unemployment column. *)
Definition inflation_only : Frame :=
mkFrame [ "country_code"; "reference_date"; "inflation_rate_mom_pct" ]%string
  [ month_row "DE" 0 NaN (Some (1 # 10)) ].



(** Every reading of the clock on 2021-01-15, at noon. *)
Definition clock_january (k : nat) : datetime :=
(to_datetime (mkdate 2021 1 15) + us_per_day / 2 + Z.of_nat k)%Z.

(** Every reading of the clock on 2023-01-15, at noon. *)
Definition clock_two_years_on (k : nat) : datetime :=
(to_datetime (mkdate 2023 1 15) + us_per_day / 2 + Z.of_nat k)%Z.

End Sample.

Module EurostatSample.

(** Two countries by three months; three of the six cells have an entry, one
    of them a null. *)
Definition document : Eurostat.Document :=
{| Eurostat.dimension :=
     [ ("geo", {| Eurostat.index := [("DE", 0%Z); ("FR", 1%Z)];
                  Eurostat.label := [("DE", "Germany"); ("FR", "France")] |});
       ("time", {| Eurostat.index :=
                     [("2020-01", 0%Z); ("2020-02", 1%Z); ("2020-03", 2%Z)];
                   Eurostat.label := [] |}) ]%string;
   Eurostat.id := ["geo"; "time"]%string;
   Eurostat.size := [2; 3]%Z;
   Eurostat.value := [(0%Z, Some (61 # 10)); (4%Z, None); (5%Z, Some (72 # 10))]
|}.

(** The same document with the size of the second dimension given as 0. *)
Definition zero_size_document : Eurostat.Document :=
{| Eurostat.dimension := Eurostat.dimension document;
   Eurostat.id := Eurostat.id document;
   Eurostat.size := [2; 0]%Z;
   Eurostat.value := Eurostat.value document |}.

(** The same document with one size only. *)
Definition one_size_document : Eurostat.Document :=
{| Eurostat.dimension := Eurostat.dimension document;
   Eurostat.id := Eurostat.id document;
   Eurostat.size := [6]%Z;
   Eurostat.value := Eurostat.value document |}.

(** The parameters of the unemployment dataset, with three countries. *)
Definition unemployment_params : list (string * Eurostat.param) :=
[ ("s_adj", Eurostat.One "SA"); ("age", Eurostat.One "TOTAL");
  ("unit", Eurostat.One "PC_ACT"); ("sex", Eurostat.One "T");
  ("geo", Eurostat.Many ["DE"; "FR"; "IT"]) ]%string.

End EurostatSample.

(* ===================================================================== *)
(** * Properties                                                          *)
(* ===================================================================== *)

(** ** The computable square root is a square root in the sense used. *)

Lemma sqrt_floor_nonneg x : 0 <= sqrt_floor x.
Proof.
  unfold sqrt_floor, Qle; simpl.
  pose proof (Z.sqrt_nonneg (Qnum x * 1000000000000 / Z.pos (Qden x))).
  lia.
Qed.

Lemma sqrt_floor_zero x : x == 0 -> sqrt_floor x == 0.
Proof.
  unfold sqrt_floor, Qeq; simpl; intros E.
  assert (Qnum x = 0%Z) as -> by lia.
  reflexivity.
Qed.

#[export] Instance Sqrt_floor : Sqrt :=
{| sqrtQ := sqrt_floor;
   sqrtQ_nonneg := sqrt_floor_nonneg;
   sqrtQ_zero := sqrt_floor_zero |}.

(** ** Loops that read the clock *)

Lemma mapM_Forall2 {A B} (R : A -> B -> Prop) (f : A -> M B) :
  (forall x k, R x (fst (f x k))) ->
  forall l k, Forall2 R l (fst (mapM f l k)).
Proof.
  intros Hf l; induction l as [|x l IH]; intros k; simpl.
  - constructor.
  - unfold bind. specialize (Hf x k).
    destruct (f x k) as [y k1]. specialize (IH k1).
    destruct (mapM f l k1) as [ys k2]. simpl in *.
    constructor; assumption.
Qed.

Lemma mapM_Forall2_runs {A B} (R : B -> B -> Prop) (f g : A -> M B) :
  (forall x k k', R (fst (f x k)) (fst (g x k'))) ->
  forall l k k', Forall2 R (fst (mapM f l k)) (fst (mapM g l k')).
Proof.
  intros Hfg l; induction l as [|x l IH]; intros k k'; simpl.
  - constructor.
  - unfold bind. specialize (Hfg x k k').
    destruct (f x k) as [y k1], (g x k') as [y' k1'].
    specialize (IH k1 k1').
    destruct (mapM f l k1) as [ys k2], (mapM g l k1') as [ys' k2'].
    simpl in *. constructor; assumption.
Qed.

Lemma Forall2_Forall_r {A B} (R : A -> B -> Prop) (P : B -> Prop) l l' :
  Forall2 R l l' -> (forall x y, R x y -> P y) -> Forall P l'.
Proof. induction 1; intros HP; constructor; eauto. Qed.

(** ** Quality scoring *)

Section QualityFacts.

Variable clock : nat -> datetime.

Lemma score_country_dict (df : Frame) (c : string) (k : nat) :
  exists cd t now, fst (Quality.score_country clock df c k)
                   = Quality.quality_dict cd c t now.
Proof.
  unfold Quality.score_country, bind.
  destruct (Quality.calculate_timeliness clock _ _ k) as [t k1].
  simpl. eauto.
Qed.

Lemma quality_rows (df : Frame) :
  Forall (fun q => exists cd c t now,
            q = Quality.add_recommendations (Quality.quality_dict cd c t now))
         (run (Quality.model clock df)).
Proof.
  unfold run, Quality.model, bind.
  pose proof (mapM_Forall2
    (fun c r => exists cd t now, r = Quality.quality_dict cd c t now)
    (Quality.score_country clock df) (score_country_dict df)
    (unique (map country_code (rows df))) 0%nat) as HF.
  destruct (mapM _ _ 0%nat) as [rs k]. simpl in *.
  induction HF as [|c r cs rs' (cd & t & now & ->) _ IH]; simpl; constructor; eauto.
Qed.

End QualityFacts.

Lemma Qle_bool_false x y : y < x -> Qle_bool x y = false.
Proof.
  intros L. destruct (Qle_bool x y) eqn:E; [|reflexivity].
  apply Qle_bool_iff in E. lra.
Qed.

(** C8: [quality_grade] is the step function of [overall_quality_score] with
    inclusive lower bounds 90, 80, 70, 60: every row of the quality relation
    carries [grade_of] of its overall score, and [grade_of] is A from 90, B on
    [80, 90), C on [70, 80), D on [60, 70), F below 60; 90.0 gives A and 89.999
    gives B. *)
Theorem C8_quality_grade_thresholds :
  forall (clock : nat -> datetime) (df : Frame) (s : Q),
    Forall (fun q => Quality.quality_grade (Quality.record q)
                     = Quality.grade_of
                         (Quality.overall_quality_score (Quality.record q)))
           (run (Quality.model clock df))
    /\ (90 <= s -> Quality.grade_of (num s) = "A"%string)
    /\ (80 <= s /\ s < 90 -> Quality.grade_of (num s) = "B"%string)
    /\ (70 <= s /\ s < 80 -> Quality.grade_of (num s) = "C"%string)
    /\ (60 <= s /\ s < 70 -> Quality.grade_of (num s) = "D"%string)
    /\ (s < 60 -> Quality.grade_of (num s) = "F"%string)
    /\ Quality.grade_of (num 90) = "A"%string
    /\ Quality.grade_of (num (89999 # 1000)) = "B"%string.
Proof.
  intros clock df s. split.
  { eapply Forall_impl; [|apply quality_rows].
    intros q (cd & c & t & now & ->). reflexivity. }
  unfold Quality.grade_of, fge, fle, num.
  repeat split; try reflexivity.
  - intros L. rewrite (proj2 (Qle_bool_iff 90 s) L). reflexivity.
  - intros [L U]. rewrite (Qle_bool_false 90 s U).
    rewrite (proj2 (Qle_bool_iff 80 s) L). reflexivity.
  - intros [L U]. rewrite (Qle_bool_false 90 s), (Qle_bool_false 80 s U) by lra.
    rewrite (proj2 (Qle_bool_iff 70 s) L). reflexivity.
  - intros [L U].
    rewrite (Qle_bool_false 90 s), (Qle_bool_false 80 s), (Qle_bool_false 70 s U)
      by lra.
    rewrite (proj2 (Qle_bool_iff 60 s) L). reflexivity.
  - intros U.
    rewrite (Qle_bool_false 90 s), (Qle_bool_false 80 s), (Qle_bool_false 70 s),
      (Qle_bool_false 60 s U) by lra.
    reflexivity.
Qed.

(** ** Two runs at different times *)

Lemma Forall2_concat {A B} (R : A -> B -> Prop) ls ls' :
  Forall2 (Forall2 R) ls ls' -> Forall2 R (concat ls) (concat ls').
Proof.
  induction 1; simpl; [constructor|].
  apply Forall2_app; assumption.
Qed.

Lemma Forall2_map_same {A B} (f : A -> B) l l' :
  Forall2 (fun x y => f x = f y) l l' -> map f l = map f l'.
Proof. induction 1; simpl; congruence. Qed.

Lemma Forall2_map_r {A B C} (R : A -> C -> Prop) (f : B -> C) l l' :
  Forall2 (fun x y => R x (f y)) l l' -> Forall2 R l (map f l').
Proof. induction 1; simpl; constructor; assumption. Qed.

Section TwoRuns.

Variables clock1 clock2 : nat -> datetime.

Lemma calculate_timeliness_runs (cd : Frame) (col : string) (k1 k2 : nat) :
  let t1 := fst (Quality.calculate_timeliness clock1 cd col k1) in
  let t2 := fst (Quality.calculate_timeliness clock2 cd col k2) in
  Quality.t_latest_data_date t1 = Quality.t_latest_data_date t2
  /\ (Quality.t_days_since_latest t1 = Quality.t_days_since_latest t2 -> t1 = t2).
Proof.
  unfold Quality.calculate_timeliness.
  destruct (negb (has_column cd col)); [simpl; auto|].
  destruct (map reference_date (rows cd)) as [|d t]; [simpl; auto|].
  unfold bind, datetime_now, ret; simpl. split; [reflexivity|].
  intros E. injection E as E. rewrite E. reflexivity.
Qed.

Lemma score_country_runs (df : Frame) (c : string) (k1 k2 : nat) :
  quality_agree (fst (Quality.score_country clock1 df c k1))
                (fst (Quality.score_country clock2 df c k2)).
Proof.
  unfold Quality.score_country, bind.
  pose proof (calculate_timeliness_runs
    {| columns := columns df; rows := of_country c (rows df) |}
    "reference_date" k1 k2) as [Hd Ht].
  destruct (Quality.calculate_timeliness clock1 _ _ k1) as [t1 k1'].
  destruct (Quality.calculate_timeliness clock2 _ _ k2) as [t2 k2'].
  simpl in *. split.
  - unfold clock_free_fields; simpl. rewrite Hd. reflexivity.
  - intros E. rewrite (Ht E). reflexivity.
Qed.

Lemma quality_agree_maps l1 l2 :
  Forall2 quality_agree l1 l2 ->
  let q1 := map Quality.add_recommendations l1 in
  let q2 := map Quality.add_recommendations l2 in
  map clock_free_fields q1 = map clock_free_fields q2
  /\ (map (fun q => Quality.days_since_latest_data (Quality.record q)) q1
      = map (fun q => Quality.days_since_latest_data (Quality.record q)) q2 ->
      map without_scored_at q1 = map without_scored_at q2).
Proof.
  induction 1 as [|r1 r2 l1 l2 [Hc Hd] _ [IHc IHd]]; simpl; [auto|].
  split.
  - simpl in IHc. rewrite Hc, IHc. reflexivity.
  - intros E. injection E as E1 E2. simpl in IHd.
    rewrite (Hd E1), (IHd E2). reflexivity.
Qed.

Context `{Sqrt}.

Lemma forecast_row_runs c s ld lv es lvl tr lr i k1 k2 :
  without_generated_at
    (Forecast.add_uncertainty
       (fst (Forecast.forecast_row clock1 c s ld lv es lvl tr lr i k1)))
  = without_generated_at
      (Forecast.add_uncertainty
         (fst (Forecast.forecast_row clock2 c s ld lv es lvl tr lr i k2))).
Proof. reflexivity. Qed.

Lemma country_forecasts_runs (monthly_df : list Row) (c : string) (k1 k2 : nat) :
  Forall2 (fun r1 r2 =>
             without_generated_at (Forecast.add_uncertainty r1)
             = without_generated_at (Forecast.add_uncertainty r2))
          (fst (Forecast.country_forecasts clock1 monthly_df c k1))
          (fst (Forecast.country_forecasts clock2 monthly_df c k2)).
Proof.
  unfold Forecast.country_forecasts.
  destruct (_ <? _)%nat; [constructor|].
  apply mapM_Forall2_runs. intros; apply forecast_row_runs.
Qed.

Lemma forecast_model_runs (df : Frame) :
  map_result (map without_generated_at) (run (Forecast.model clock1 df))
  = map_result (map without_generated_at) (run (Forecast.model clock2 df)).
Proof.
  unfold run, Forecast.model.
  destruct (unique (map country_code (rows df))) as [|c0 cs]; [reflexivity|].
  destruct (has_column df "unemployment_rate_pct"); [|reflexivity].
  unfold bind.
  pose proof (mapM_Forall2_runs _ _ _
    (country_forecasts_runs (rows df)) (c0 :: cs) 0%nat 0%nat) as HF.
  destruct (mapM (Forecast.country_forecasts clock1 (rows df)) _ _) as [l1 k1].
  destruct (mapM (Forecast.country_forecasts clock2 (rows df)) _ _) as [l2 k2].
  simpl in *. f_equal.
  rewrite !map_map. apply Forall2_map_same.
  apply Forall2_concat in HF. exact HF.
Qed.

End TwoRuns.

(** C3 (as corrected): of two runs on the same relation at different times,
    the forecast rows agree on every field but [forecast_generated_at]; the
    quality rows agree on every field computed without the clock; and they
    agree on every field but [scored_at] (so on [timeliness_score],
    [overall_quality_score], [quality_grade], [primary_issue] and
    [requires_attention] too) whenever the two runs count the same number of
    days since each country's latest reference date.  The anomaly model reads
    no clock at all. *)
Theorem C3_runs_agree_up_to_day_count :
  forall (S : Sqrt) (clock1 clock2 : nat -> datetime) (df : Frame),
    let q1 := run (Quality.model clock1 df) in
    let q2 := run (Quality.model clock2 df) in
    map clock_free_fields q1 = map clock_free_fields q2
    /\ (map (fun q => Quality.days_since_latest_data (Quality.record q)) q1
        = map (fun q => Quality.days_since_latest_data (Quality.record q)) q2 ->
        map without_scored_at q1 = map without_scored_at q2)
    /\ map_result (map without_generated_at) (run (Forecast.model clock1 df))
       = map_result (map without_generated_at) (run (Forecast.model clock2 df)).
Proof.
  intros S clock1 clock2 df q1 q2.
  assert (Hq : Forall2 (quality_agree)
                 (fst (mapM (Quality.score_country clock1 df)
                         (unique (map country_code (rows df))) 0%nat))
                 (fst (mapM (Quality.score_country clock2 df)
                         (unique (map country_code (rows df))) 0%nat))).
  { apply mapM_Forall2_runs. intros; apply score_country_runs. }
  apply quality_agree_maps in Hq.
  subst q1 q2. unfold run, Quality.model, bind.
  destruct (mapM (Quality.score_country clock1 df) _ _) as [l1 k1].
  destruct (mapM (Quality.score_country clock2 df) _ _) as [l2 k2].
  simpl in *. destruct Hq as [Hc Hd].
  split; [exact Hc|]. split; [exact Hd|].
  apply forecast_model_runs.
Qed.

(** C3, as stated, fails: on the twelve-month relation [Sample.stepped]
    (latest reference date 2020-12-01) a run on 2021-01-15 and a run on
    2023-01-15 differ in [timeliness_score], [overall_quality_score],
    [quality_grade], [primary_issue] and [requires_attention]. *)
Lemma C3_counterexample_timeliness_reads_the_clock :
  map day_count_fields (run (Quality.model Sample.clock_january Sample.stepped))
  = [ (Some 100, Some 90, "A", "consistency", false) ]%string
  /\ map day_count_fields
       (run (Quality.model Sample.clock_two_years_on Sample.stepped))
     = [ (Some 0, Some 65, "D", "timeliness", true) ]%string
  /\ map without_scored_at
       (run (Quality.model Sample.clock_january Sample.stepped))
     <> map without_scored_at
          (run (Quality.model Sample.clock_two_years_on Sample.stepped)).
Proof.
  split; [vm_compute; reflexivity|].
  split; [vm_compute; reflexivity|].
  intros E. vm_compute in E. discriminate E.
Qed.

(** C9: the quality scorer does not sort a country's rows by date (the two
    other models do), so its consistency score follows the order of the rows
    of the relation.  Eleven months alternating 5, 6, 5, ... have no repeated
    value and score 100; the same rows with the first one moved to the end
    end in 5, 5 and score 100 - 200/11. *)
Theorem C9_consistency_follows_row_order :
  forall clock : nat -> datetime,
    columns Sample.alternating_rotated = columns Sample.alternating
    /\ Permutation (rows Sample.alternating) (rows Sample.alternating_rotated)
    /\ map (fun q => Quality.consistency_score (Quality.record q))
         (run (Quality.model clock Sample.alternating))
       = [ Some 100 ]
    /\ map (fun q => Quality.consistency_score (Quality.record q))
         (run (Quality.model clock Sample.alternating_rotated))
       = [ Some (900 # 11) ].
Proof.
  intros clock. split; [reflexivity|]. split.
  - unfold Sample.alternating_rotated, Sample.alternating. cbn [rows].
    unfold Sample.alternating_rows. cbn [seq map tl firstn].
    apply Permutation_cons_append.
  - split; vm_compute; reflexivity.
Qed.

(** ** Anomaly detection: a missing tracked column *)

Lemma existsb_eqb_false (name : string) (l l' : list string) :
  incl l l' -> existsb (String.eqb name) l' = false ->
  existsb (String.eqb name) l = false.
Proof.
  intros Hi Hn. destruct (existsb (String.eqb name) l) eqn:E; [|reflexivity].
  apply existsb_exists in E as (x & Hx & Ex).
  assert (existsb (String.eqb name) l' = true) as Ht
    by (apply existsb_exists; exists x; auto).
  congruence.
Qed.

Lemma unique_nil_inv (l : list string) : unique l = [] -> l = [].
Proof. destruct l; simpl; [reflexivity|discriminate]. Qed.

(** C2: the claim is not met by the code.  With a tracked column absent from
    a non-empty relation of the contract's columns, the loop adds none of that
    indicator's columns, and the composite flag then indexes the absent
    z-score column: the run raises [KeyError] and returns no row. *)
Theorem C2_missing_tracked_column_raises :
  forall (S : Sqrt) (pad : bool) (df : Frame),
    rows df <> [] ->
    incl (columns df) Sample.contract_columns ->
    has_column df "unemployment_rate_pct" = false
    \/ has_column df "inflation_rate_mom_pct" = false ->
    Anomaly.model pad df
    = KeyError (if has_column df "unemployment_rate_pct"
                then "inflation_z_score" else "unemployment_z_score")%string.
Proof.
  intros S pad df Hne Hincl Hmiss.
  unfold Anomaly.model.
  destruct (unique (map country_code (rows df))) as [|c0 cs] eqn:Eu.
  { apply unique_nil_inv, map_eq_nil in Eu. contradiction. }
  unfold Anomaly.getitem, Anomaly.scored_columns.
  rewrite !existsb_app.
  rewrite !(existsb_eqb_false _ (columns df) Sample.contract_columns Hincl)
    by reflexivity.
  destruct (has_column df "unemployment_rate_pct") eqn:Eun.
  - destruct Hmiss as [Hm|Hm]; [discriminate|]. rewrite Hm. reflexivity.
  - destruct (has_column df "inflation_rate_mom_pct"); reflexivity.
Qed.

(** The relation [Sample.inflation_only] has no unemployment column: the run
    raises. *)
Lemma C2_missing_unemployment_column_run :
  Anomaly.model true Sample.inflation_only
  = KeyError "unemployment_z_score"%string.
Proof.
  refine (C2_missing_tracked_column_raises Sqrt_floor true
            Sample.inflation_only _ _ _).
  - discriminate.
  - intros x Hx. simpl in Hx. simpl. tauto.
  - left. reflexivity.
Defined.

(** ** Countries, sorting and grouping *)

Lemma unique_In (l : list string) (c : string) : In c (unique l) <-> In c l.
Proof.
  induction l as [|x l IH]; simpl; [tauto|].
  rewrite filter_In, IH.
  destruct (String.eqb_spec x c) as [->|Hne]; simpl.
  - split; auto. 
  - split.
    + intros [E|[Hin _]]; auto.
    + intros [E|Hin]; auto.
Qed.

Lemma unique_NoDup (l : list string) : NoDup (unique l).
Proof.
  induction l as [|x l IH]; simpl; constructor.
  - rewrite filter_In. intros [_ Hx]. rewrite String.eqb_refl in Hx. discriminate.
  - apply NoDup_filter, IH.
Qed.

Lemma insert_by_date_perm r l : Permutation (r :: l) (insert_by_date r l).
Proof.
  induction l as [|h t IH]; simpl; [reflexivity|].
  destruct (date_leb _ _); [reflexivity|].
  rewrite perm_swap. apply perm_skip, IH.
Qed.

Lemma sort_values_perm l : Permutation l (sort_values l).
Proof.
  induction l as [|r l IH]; simpl; [constructor|].
  rewrite <- insert_by_date_perm. apply perm_skip, IH.
Qed.

Lemma of_country_code c rs r : In r (of_country c rs) -> country_code r = c.
Proof.
  unfold of_country. rewrite filter_In. intros [_ E].
  apply String.eqb_eq, E.
Qed.

Lemma sorted_country_code c rs r :
  In r (sort_values (of_country c rs)) -> country_code r = c.
Proof.
  intros Hin. apply (of_country_code c rs).
  eapply Permutation_in; [symmetry; apply sort_values_perm|exact Hin].
Qed.

Lemma Forall2_length_eq {A B} (R : A -> B -> Prop) l l' :
  Forall2 R l l' -> length l = length l'.
Proof. induction 1; simpl; congruence. Qed.

Lemma Forall2_nth_error_r {A B} (R : A -> B -> Prop) l l' :
  Forall2 R l l' ->
  forall i x, nth_error l i = Some x ->
  exists y, nth_error l' i = Some y /\ R x y.
Proof.
  induction 1 as [|a b l l' Hab _ IH]; intros [|i] x E; simpl in *;
    try discriminate.
  - injection E as <-. eauto.
  - eauto.
Qed.

Lemma Forall2_In_r {A B} (R : A -> B -> Prop) l l' y :
  Forall2 R l l' -> In y l' -> exists x, In x l /\ R x y.
Proof.
  induction 1 as [|a b l l' Hab _ IH]; simpl; [tauto|].
  intros [<-|Hin]; [eauto|].
  destruct (IH Hin) as (x & Hx & HR). eauto.
Qed.

(** Grouped output: when the i-th group holds rows of the i-th key only and
    the keys are distinct, filtering the concatenation by a key gives back
    that key's group. *)
Lemma filter_concat_group {B} (key : B -> string) (Q : string -> list B -> Prop) :
  forall cs per,
    Forall2 (fun c rs => Forall (fun r => key r = c) rs /\ Q c rs) cs per ->
    NoDup cs ->
    forall c,
      (In c cs ->
       exists rs, Q c rs
                  /\ filter (fun r => String.eqb (key r) c) (concat per) = rs)
      /\ (~ In c cs ->
          filter (fun r => String.eqb (key r) c) (concat per) = []).
Proof.
  intros cs per HF; induction HF as [|c' rs cs per [Hk HQ] _ IH];
    intros Hnd c; simpl.
  - split; [tauto|reflexivity].
  - inversion Hnd as [|? ? Hnotin Hnd']; subst.
    rewrite filter_app.
    destruct (IH Hnd' c) as [IHin IHout].
    destruct (String.eqb_spec c' c) as [->|Hne].
    + assert (filter (fun r => String.eqb (key r) c) rs = rs) as ->.
      { clear -Hk. induction Hk as [|r rs Hr _ IHr]; simpl; [reflexivity|].
        rewrite Hr, String.eqb_refl, IHr. reflexivity. }
      rewrite (IHout Hnotin), app_nil_r.
      split; [intros _; eauto|]. intros Hc; exfalso; apply Hc; auto.
    + assert (filter (fun r => String.eqb (key r) c) rs = []) as ->.
      { clear -Hk Hne. induction Hk as [|r rs Hr _ IHr]; simpl; [reflexivity|].
        rewrite Hr. destruct (String.eqb_spec c' c); [contradiction|exact IHr]. }
      simpl. split.
      * intros [E|Hin]; [contradiction|]. apply IHin, Hin.
      * intros Hc. apply IHout. intros Hin; apply Hc; auto.
Qed.

Lemma dropna_series_length (rs : list Row) :
  length (dropna_series
            (map (fun r => (reference_date r, unemployment_rate_pct r)) rs))
  = length (dropna (map unemployment_rate_pct rs)).
Proof.
  induction rs as [|r rs IH]; simpl; [reflexivity|].
  destruct (unemployment_rate_pct r); simpl; congruence.
Qed.

Lemma dropna_perm_length {A} (col : A -> float) (l l' : list A) :
  Permutation l l' -> length (dropna (map col l)) = length (dropna (map col l')).
Proof.
  induction 1 as [|x l l' _ IH|x y l|l l' l'' _ IH1 _ IH2]; simpl.
  - reflexivity.
  - destruct (col x); simpl; congruence.
  - destruct (col x), (col y); reflexivity.
  - congruence.
Qed.

Lemma unemployment_series_length (df : Frame) (c : string) :
  length (Forecast.unemployment_series (rows df) c)
  = length (non_missing unemployment_rate_pct df c).
Proof.
  unfold Forecast.unemployment_series, non_missing.
  rewrite dropna_series_length.
  symmetry. apply dropna_perm_length, sort_values_perm.
Qed.

(** ** The shape of the forecast relation *)

Section ForecastShape.

Context `{Sqrt}.
Variable clock : nat -> datetime.

Lemma forecast_row_of (rows : list Row) (c : string) (i k : nat) :
  let s := Forecast.unemployment_series rows c in
  let holt := Forecast.holt_linear_trend (values s) (3 # 10) (1 # 10) in
  exists t,
    fst (Forecast.forecast_row clock c s (index_max (index s))
           (last (values s) NaN)
           (Forecast.exponential_smoothing (values s) (3 # 10))
           (fst holt) (snd holt)
           (Forecast.linear_regression_forecast (values s)
              Forecast.FORECAST_HORIZON) i k)
    = forecast_of rows c i t.
Proof. simpl. exists (clock k). reflexivity. Qed.

Lemma country_forecasts_rows (rows : list Row) (c : string) (k : nat) :
  let out := fst (Forecast.country_forecasts clock rows c k) in
  Forall (fun r => Forecast.country_code r = c) out
  /\ ((length (Forecast.unemployment_series rows c) < 24)%nat -> out = [])
  /\ ((24 <= length (Forecast.unemployment_series rows c))%nat ->
      Forall2 (fun i r => exists t, r = forecast_of rows c i t)
              (seq 0 6) out).
Proof.
  unfold Forecast.country_forecasts, Forecast.MIN_HISTORY_MONTHS.
  destruct (Nat.ltb_spec (length (Forecast.unemployment_series rows c)) 24)
    as [Hlt|Hge]; cbv zeta.
  - simpl. repeat split; [constructor|lia].
  - pose proof (mapM_Forall2
      (fun i r => exists t, r = forecast_of rows c i t) _
      (forecast_row_of rows c) (seq 0 Forecast.FORECAST_HORIZON) k) as HF.
    repeat split.
    + eapply Forall2_Forall_r; [exact HF|].
      intros i r [t ->]. reflexivity.
    + lia.
    + intros _. exact HF.
Qed.

Lemma forecast_groups (rows : list Row) (cs : list string) (k : nat) :
  Forall2 (fun c fs =>
             Forall (fun f => Forecast.country_code (Forecast.record f) = c) fs
             /\ country_group rows c fs)
          cs
          (map (map Forecast.add_uncertainty)
               (fst (mapM (Forecast.country_forecasts clock rows) cs k))).
Proof.
  apply Forall2_map_r.
  apply (mapM_Forall2
    (fun c rs =>
       Forall (fun f => Forecast.country_code (Forecast.record f) = c)
              (map Forecast.add_uncertainty rs)
       /\ country_group rows c (map Forecast.add_uncertainty rs))).
  intros c k'. destruct (country_forecasts_rows rows c k') as (Hc & Hs & Hl).
  split; [|split].
  - apply Forall_map. eapply Forall_impl; [|exact Hc]. intros r Hr. exact Hr.
  - intros Hlt. rewrite (Hs Hlt). reflexivity.
  - intros Hge. apply Forall2_map_r.
    eapply Forall2_impl; [|exact (Hl Hge)].
    intros i r [t ->]. exists t. reflexivity.
Qed.

Lemma non_missing_country (df : Frame) (c : string) :
  (0 < length (non_missing unemployment_rate_pct df c))%nat ->
  In c (unique (map country_code (rows df))).
Proof.
  unfold non_missing. intros Hpos. apply unique_In.
  destruct (of_country c (rows df)) as [|r rs] eqn:E; [simpl in Hpos; lia|].
  assert (In r (of_country c (rows df))) as Hin by (rewrite E; left; reflexivity).
  apply in_map_iff. exists r. split; [apply (of_country_code _ _ _ Hin)|].
  unfold of_country in Hin. apply filter_In in Hin. tauto.
Qed.

(** With the unemployment column present the run returns, and its rows for a
    country are none below 24 non-missing observations and the six dicts of
    the loop from 24 on. *)
Lemma forecast_model_rows (df : Frame) :
  has_column df "unemployment_rate_pct" = true ->
  exists out,
    run (Forecast.model clock df) = Ok out
    /\ forall c,
         ((length (non_missing unemployment_rate_pct df c) < 24)%nat ->
          forecasts_of_country c out = [])
         /\ ((24 <= length (non_missing unemployment_rate_pct df c))%nat ->
             Forall2 (fun i f => exists t,
                        f = Forecast.add_uncertainty
                              (forecast_of (rows df) c i t))
                     (seq 0 6) (forecasts_of_country c out)).
Proof.
  intros Hcol.
  exists (concat (map (map Forecast.add_uncertainty)
            (fst (mapM (Forecast.country_forecasts clock (rows df))
                    (unique (map country_code (rows df))) 0%nat)))).
  split.
  - unfold run, Forecast.model. rewrite Hcol.
    destruct (unique (map country_code (rows df))) as [|c0 cs]; [reflexivity|].
    unfold bind.
    destruct (mapM (Forecast.country_forecasts clock (rows df)) (c0 :: cs) 0%nat)
      as [l k]. simpl. rewrite concat_map. reflexivity.
  - intros c.
    pose proof (filter_concat_group
      (fun f => Forecast.country_code (Forecast.record f))
      (country_group (rows df)) _ _
      (forecast_groups (rows df) (unique (map country_code (rows df))) 0%nat)
      (unique_NoDup _) c) as [Hin Hout].
    rewrite <- unemployment_series_length.
    fold (forecasts_of_country c
            (concat (map (map Forecast.add_uncertainty)
               (fst (mapM (Forecast.country_forecasts clock (rows df))
                  (unique (map country_code (rows df))) 0%nat))))) in Hin, Hout.
    destruct (in_dec string_dec c (unique (map country_code (rows df))))
      as [Hc|Hc].
    + destruct (Hin Hc) as (fs & [Hs Hl] & ->). split; assumption.
    + rewrite (Hout Hc). split; [reflexivity|].
      intros Hge. exfalso. apply Hc, non_missing_country.
      rewrite <- unemployment_series_length. lia.
Qed.

(** Every row a run returns is one of the six dicts of a country with at
    least 24 non-missing observations. *)
Lemma forecast_model_row (df : Frame) (out : list Forecast.Forecast)
  (f : Forecast.Forecast) :
  run (Forecast.model clock df) = Ok out -> In f out ->
  let c := Forecast.country_code (Forecast.record f) in
  (24 <= length (non_missing unemployment_rate_pct df c))%nat
  /\ exists i t, (i < 6)%nat
                 /\ f = Forecast.add_uncertainty (forecast_of (rows df) c i t).
Proof.
  intros Hrun Hin. cbv zeta.
  remember (Forecast.country_code (Forecast.record f)) as c eqn:Ec.
  destruct (has_column df "unemployment_rate_pct") eqn:Hcol.
  - destruct (forecast_model_rows df Hcol) as (out' & Hrun' & Hrows).
    rewrite Hrun in Hrun'. injection Hrun' as <-.
    assert (In f (forecasts_of_country c out)) as Hf.
    { unfold forecasts_of_country. apply filter_In. split; [exact Hin|].
      rewrite <- Ec. apply String.eqb_refl. }
    destruct (Hrows c) as [Hs Hl].
    destruct (Nat.ltb_spec (length (non_missing unemployment_rate_pct df c)) 24)
      as [Hlt|Hge].
    + rewrite (Hs Hlt) in Hf. destruct Hf.
    + split; [exact Hge|].
      destruct (Forall2_In_r _ _ _ _ (Hl Hge) Hf) as (i & Hi & t & Ef).
      apply in_seq in Hi. exists i, t. split; [lia|exact Ef].
  - exfalso. unfold run, Forecast.model in Hrun. rewrite Hcol in Hrun.
    destruct (unique (map country_code (rows df))); simpl in Hrun.
    + injection Hrun as <-. destruct Hin.
    + discriminate.
Qed.

End ForecastShape.

(** ** Forecast dates *)

Ltac date_bools :=
  unfold date_leb;
  repeat rewrite ?orb_true_iff, ?andb_true_iff, ?orb_false_iff,
    ?andb_false_iff, ?Z.ltb_lt, ?Z.eqb_eq, ?Z.leb_le, ?Z.ltb_ge, ?Z.eqb_neq,
    ?Z.leb_gt.

Lemma date_leb_refl a : date_leb a a = true.
Proof. date_bools. lia. Qed.

Lemma date_leb_total a b : date_leb a b = false -> date_leb b a = true.
Proof. date_bools. lia. Qed.

Lemma date_leb_trans a b c :
  date_leb a b = true -> date_leb b c = true -> date_leb a c = true.
Proof. date_bools. lia. Qed.

Lemma date_max_ge_l a b : date_leb a (date_max a b) = true.
Proof.
  unfold date_max. destruct (date_leb a b) eqn:E; [exact E|apply date_leb_refl].
Qed.

Lemma date_max_ge_r a b : date_leb b (date_max a b) = true.
Proof.
  unfold date_max. destruct (date_leb a b) eqn:E;
    [apply date_leb_refl|apply date_leb_total, E].
Qed.

Lemma fold_date_max_spec (t : list date) (d : date) :
  In (fold_left date_max t d) (d :: t)
  /\ forall x, In x (d :: t) -> date_leb x (fold_left date_max t d) = true.
Proof.
  revert d; induction t as [|h t IH]; intros d; simpl.
  - split; [auto|]. intros x [<-|[]]. apply date_leb_refl.
  - destruct (IH (date_max d h)) as [Hin Hmax]. split.
    + destruct Hin as [E|Hin]; [|auto].
      rewrite <- E. unfold date_max. destruct (date_leb d h); auto.
    + intros x [<-|[<-|Hx]].
      * eapply date_leb_trans; [apply date_max_ge_l|apply Hmax; left; reflexivity].
      * eapply date_leb_trans; [apply date_max_ge_r|apply Hmax; left; reflexivity].
      * apply Hmax. right. exact Hx.
Qed.

Lemma index_max_spec (l : list date) :
  l <> [] ->
  In (index_max l) l /\ forall x, In x l -> date_leb x (index_max l) = true.
Proof.
  destruct l as [|d t]; [congruence|]. intros _. apply fold_date_max_spec.
Qed.

Lemma month_index_add_months (d : date) (k n : Z) :
  month_index (replace_day (add_months d k) n) = (month_index d + k)%Z.
Proof.
  unfold month_index, replace_day, add_months; simpl.
  pose proof (Z.div_mod (year d * 12 + (month d - 1) + k) 12). lia.
Qed.

Lemma month_add_months (d : date) (k n : Z) :
  (1 <= month (replace_day (add_months d k) n) <= 12)%Z.
Proof.
  unfold replace_day, add_months; simpl.
  pose proof (Z.mod_pos_bound (year d * 12 + (month d - 1) + k) 12). lia.
Qed.

Lemma filter_perm {A} (p : A -> bool) (l l' : list A) :
  Permutation l l' -> Permutation (filter p l) (filter p l').
Proof.
  induction 1 as [|x l l' _ IH|x y l|l l' l'' _ IH1 _ IH2]; simpl.
  - constructor.
  - destruct (p x); [apply perm_skip|]; exact IH.
  - destruct (p x), (p y); try reflexivity. apply perm_swap.
  - etransitivity; eassumption.
Qed.

Lemma index_dropna_series (rs : list Row) :
  index (dropna_series
           (map (fun r => (reference_date r, unemployment_rate_pct r)) rs))
  = map reference_date
        (filter (fun r => negb (isnan (unemployment_rate_pct r))) rs).
Proof.
  unfold index, dropna_series.
  induction rs as [|r rs IH]; simpl; [reflexivity|].
  destruct (negb (isnan (unemployment_rate_pct r))); simpl; congruence.
Qed.

Lemma unemployment_series_index (df : Frame) (c : string) :
  Permutation (index (Forecast.unemployment_series (rows df) c))
              (map reference_date (observed df c)).
Proof.
  unfold Forecast.unemployment_series, observed.
  rewrite index_dropna_series.
  apply Permutation_map, filter_perm. symmetry. apply sort_values_perm.
Qed.

Lemma index_length (s : Series) : length (index s) = length s.
Proof. apply length_map. Qed.

Lemma last_actual_is_last_observed (df : Frame) (c : string) :
  (0 < length (non_missing unemployment_rate_pct df c))%nat ->
  last_observed_date df c
    (index_max (index (Forecast.unemployment_series (rows df) c))).
Proof.
  intros Hpos. rewrite <- unemployment_series_length, <- index_length in Hpos.
  destruct (index_max_spec (index (Forecast.unemployment_series (rows df) c)))
    as [Hin Hmax].
  { intros E. rewrite E in Hpos. simpl in Hpos. lia. }
  split.
  - eapply Permutation_in; [apply unemployment_series_index|exact Hin].
  - intros d Hd. apply Hmax.
    eapply Permutation_in; [symmetry; apply unemployment_series_index|exact Hd].
Qed.

(** C6: a country with at least 24 non-missing unemployment observations has
    exactly six forecast rows; the i-th of them (i = 1..6) has horizon i and a
    forecast date that is the first day of the i-th calendar month after the
    month of the country's last observed date, so the dates rise by one
    calendar month per row and start the month after the last observation. *)
Theorem C6_six_monthly_forecast_rows :
  forall (S : Sqrt) (clock : nat -> datetime) (df : Frame) (c : string),
    has_column df "unemployment_rate_pct" = true ->
    (24 <= length (non_missing unemployment_rate_pct df c))%nat ->
    exists out last,
      run (Forecast.model clock df) = Ok out
      /\ last_observed_date df c last
      /\ length (forecasts_of_country c out) = 6%nat
      /\ forall i, (i < 6)%nat ->
           exists f,
             nth_error (forecasts_of_country c out) i = Some f
             /\ Forecast.forecast_horizon_months (Forecast.record f) = (i + 1)%nat
             /\ Forecast.last_actual_date (Forecast.record f) = last
             /\ day (Forecast.forecast_date (Forecast.record f)) = 1%Z
             /\ (1 <= month (Forecast.forecast_date (Forecast.record f)) <= 12)%Z
             /\ month_index (Forecast.forecast_date (Forecast.record f))
                = (month_index last + Z.of_nat i + 1)%Z.
Proof.
  intros S clock df c Hcol Hge.
  destruct (forecast_model_rows clock df Hcol) as (out & Hrun & Hrows).
  destruct (Hrows c) as [_ Hsix]. specialize (Hsix Hge).
  exists out, (index_max (index (Forecast.unemployment_series (rows df) c))).
  split; [exact Hrun|]. split; [apply last_actual_is_last_observed; lia|].
  split; [rewrite <- (Forall2_length_eq _ _ _ Hsix); reflexivity|].
  intros i Hi.
  destruct (Forall2_nth_error_r _ _ _ Hsix i i) as (f & Hf & t & ->).
  { rewrite nth_error_nth' with (d := 0%nat) by (simpl; lia).
    rewrite seq_nth by lia. reflexivity. }
  exists (Forecast.add_uncertainty (forecast_of (rows df) c i t)).
  split; [exact Hf|]. cbn [Forecast.record Forecast.add_uncertainty].
  unfold forecast_of, Forecast.forecast_dict.
  cbn [Forecast.forecast_horizon_months Forecast.last_actual_date
       Forecast.forecast_date].
  repeat split.
  - apply month_add_months.
  - apply month_add_months.
  - rewrite month_index_add_months. lia.
Qed.

(** C6 at [Sample.rising]: DE has 24 observations, the last in December
    2021. *)
Lemma C6_six_rows_for_DE :
  exists out,
    run (Forecast.model Sample.clock_january Sample.rising) = Ok out
    /\ last_observed_date Sample.rising "DE" (mkdate 2021 12 1)
    /\ length (forecasts_of_country "DE" out) = 6%nat.
Proof.
  destruct (C6_six_monthly_forecast_rows Sqrt_floor Sample.clock_january
              Sample.rising "DE" eq_refl) as (out & last & Hrun & Hlast & Hlen & _).
  - vm_compute. apply le_n.
  - exists out. split; [exact Hrun|]. split; [|exact Hlen].
    split; [vm_compute; tauto|].
    intros d Hd. vm_compute in Hd.
    repeat (destruct Hd as [<-|Hd]; [reflexivity|]). destruct Hd.
Defined.

(** ** Finite series *)

Lemma dropna_map_Some (l : list Q) : dropna (map Some l) = l.
Proof. induction l; simpl; congruence. Qed.

Lemma finite_series (l : list float) :
  Forall (fun a => isnan a = false) l -> l = map Some (dropna l).
Proof.
  induction 1 as [|a l Ha _ IH]; simpl; [reflexivity|].
  destruct a; [simpl; f_equal; exact IH|discriminate].
Qed.

Lemma values_dropna_series_finite (s : Series) :
  Forall (fun a => isnan a = false) (values (dropna_series s)).
Proof.
  unfold values, dropna_series. apply Forall_map, Forall_forall.
  intros p Hp. apply filter_In in Hp as [_ Hp].
  destruct (isnan (snd p)); [discriminate|reflexivity].
Qed.

Lemma unemployment_values (rows : list Row) (c : string) :
  exists qs,
    values (Forecast.unemployment_series rows c) = map Some qs
    /\ length qs = length (Forecast.unemployment_series rows c).
Proof.
  exists (dropna (values (Forecast.unemployment_series rows c))).
  pose proof (finite_series _
    (values_dropna_series_finite
       (map (fun r => (reference_date r, unemployment_rate_pct r))
            (sort_values (of_country c rows))))) as E.
  fold (Forecast.unemployment_series rows c) in E.
  split; [exact E|].
  rewrite <- (length_map Some), <- E. apply length_map.
Qed.

Lemma Qsum_correct (l : list Q) : Qsum l == fold_right Qplus 0 l.
Proof.
  induction l as [|x l IH]; [reflexivity|].
  unfold Qsum in *. cbn [fold_right]. rewrite Qred_correct, IH. reflexivity.
Qed.

Lemma Qsum_nonneg (l : list Q) : Forall (fun x => 0 <= x) l -> 0 <= Qsum l.
Proof.
  induction 1 as [|x l Hx _ IH]; [unfold Qsum; simpl; lra|].
  unfold Qsum in *. cbn [fold_right]. rewrite Qred_correct. lra.
Qed.

Lemma Qlen_pos {A} (l : list A) : (0 < length l)%nat -> 0 < Qlen l.
Proof.
  intros Hl. unfold Qlen, Qlt. simpl. lia.
Qed.

Lemma Qlen_ge {A} (l : list A) (n : nat) :
  (n <= length l)%nat -> inject_Z (Z.of_nat n) <= Qlen l.
Proof.
  intros Hl. unfold Qlen. rewrite <- Zle_Qle. lia.
Qed.

Lemma Qeq_bool_false (x : Q) : ~ x == 0 -> Qeq_bool x 0 = false.
Proof.
  intros Hx. destruct (Qeq_bool x 0) eqn:E; [|reflexivity].
  apply Qeq_bool_iff in E. contradiction.
Qed.

Lemma fdiv_Some (x y : Q) :
  ~ y == 0 -> fdiv (Some x) (Some y) = Some (Qred (x / y)).
Proof. intros Hy. unfold fdiv. rewrite (Qeq_bool_false y Hy). reflexivity. Qed.

Lemma mean_Some (l : list Q) :
  (0 < length l)%nat -> mean l = Some (Qred (Qsum l / Qlen l)).
Proof.
  intros Hl. unfold mean, num. apply fdiv_Some.
  pose proof (Qlen_pos l Hl). lra.
Qed.

Lemma var_nonneg (l : list Q) :
  (2 <= length l)%nat -> exists v, var l = Some v /\ 0 <= v.
Proof.
  intros Hl. unfold var. rewrite mean_Some by lia. unfold num.
  pose proof (Qlen_ge l 2 Hl) as Hn. change (inject_Z (Z.of_nat 2)) with 2 in Hn.
  rewrite fdiv_Some by lra.
  eexists; split; [reflexivity|].
  rewrite Qred_correct.
  apply Qle_shift_div_l; [lra|]. rewrite Qmult_0_l.
  apply Qsum_nonneg, Forall_map, Forall_forall. intros x _.
  cbv beta. generalize (x - Qred (Qsum l / Qlen l)). intros d. nra.
Qed.

Section Margin.

Context `{Sqrt}.

Lemma fsqrt_nonneg (v : Q) :
  0 <= v -> exists r, fsqrt (Some v) = Some r /\ 0 <= r.
Proof.
  intros Hv. unfold fsqrt, Qlt_bool.
  rewrite (proj2 (Qle_bool_iff 0 v) Hv). simpl.
  eexists; split; [reflexivity|apply sqrtQ_nonneg].
Qed.

Lemma diff_from_finite (t : list Q) (q : Q) :
  exists ds, diff_from (Some q) (map Some t) = map Some ds
             /\ length ds = length t.
Proof.
  revert q; induction t as [|x t IH]; intros q; simpl.
  - exists []. auto.
  - destruct (IH x) as (ds & -> & Hl).
    exists (Qred (x - q) :: ds). simpl. auto.
Qed.

Lemma diff_finite (qs : list Q) :
  exists ds, dropna (diff (map Some qs)) = ds
             /\ length ds = (length qs - 1)%nat.
Proof.
  destruct qs as [|q t]; simpl.
  - exists []. auto.
  - destruct (diff_from_finite t q) as (ds & E & Hl).
    exists ds. unfold diff; simpl. rewrite E, dropna_map_Some. split; [reflexivity|lia].
Qed.

Lemma prediction_margin_nonneg (qs : list Q) (confidence : Q) :
  (3 <= length qs)%nat ->
  exists m, Forecast.prediction_margin (map Some qs) confidence = Some m
            /\ 0 <= m.
Proof.
  intros Hl. unfold Forecast.prediction_margin, std.
  destruct (diff_finite qs) as (ds & -> & Hds).
  change (map num ds) with (map Some ds). rewrite dropna_map_Some.
  destruct (var_nonneg ds) as (v & -> & Hv); [lia|].
  destruct (fsqrt_nonneg v Hv) as (sd & -> & Hsd).
  rewrite length_map. unfold of_nat, num.
  assert (0 < inject_Z (Z.of_nat (length qs))) as Hn.
  { apply (Qlen_pos qs). lia. }
  rewrite fdiv_Some by lra.
  cbn [fadd fmul lift2].
  destruct (fsqrt_nonneg (Qred (1 + Qred (1 / inject_Z (Z.of_nat (length qs))))))
    as (sq & -> & Hsq).
  { rewrite !Qred_correct.
    assert (0 <= 1 / inject_Z (Z.of_nat (length qs))).
    { apply Qle_shift_div_l; lra. }
    lra. }
  eexists; split; [reflexivity|].
  rewrite !Qred_correct.
  apply Qmult_le_0_compat; [|exact Hsq].
  apply Qmult_le_0_compat; [|exact Hsd].
  destruct (Qeq_bool confidence (95 # 100)); unfold Qle; simpl; lia.
Qed.

Lemma prediction_interval_bounds (qs : list Q) (e confidence : Q) :
  (5 <= length qs)%nat ->
  exists m, Forecast.prediction_margin (map Some qs) confidence = Some m
            /\ 0 <= m
            /\ Forecast.calculate_prediction_interval (map Some qs) (Some e)
                 confidence
               = (Some (Qred (e - m)), Some (Qred (e + m))).
Proof.
  intros Hl.
  destruct (prediction_margin_nonneg qs confidence) as (m & Hm & Hpos); [lia|].
  exists m. split; [exact Hm|]. split; [exact Hpos|].
  unfold Forecast.calculate_prediction_interval.
  rewrite length_map.
  destruct (Nat.ltb_spec (length qs) 5); [lia|].
  cbv zeta. rewrite Hm. reflexivity.
Qed.

End Margin.

(** ** The smoothing methods on a finite series *)

Lemma last_map_Some (qs : list Q) :
  qs <> [] -> last (map Some qs) NaN = Some (last qs 0).
Proof.
  induction qs as [|q qs IH]; [congruence|]. intros _.
  destruct qs as [|q' qs]; [reflexivity|].
  change (last (map Some (q :: q' :: qs)) NaN)
    with (last (map Some (q' :: qs)) NaN).
  rewrite IH by discriminate. reflexivity.
Qed.

Lemma smoothing_fold_finite (alpha : Q) (qs : list Q) (e0 : Q) :
  exists e,
    fold_left
      (fun result value => (num alpha * value + num (1 - alpha) * result)%F)
      (map Some qs) (Some e0)
    = Some e.
Proof.
  revert e0; induction qs as [|q qs IH]; intros e0; simpl; [eauto|].
  apply IH.
Qed.

Lemma exponential_smoothing_finite (qs : list Q) (alpha : Q) :
  qs <> [] ->
  exists e, Forecast.exponential_smoothing (map Some qs) alpha = Some e.
Proof.
  intros Hne. unfold Forecast.exponential_smoothing.
  destruct (_ <? _)%nat.
  - rewrite last_map_Some by exact Hne. eauto.
  - destruct qs as [|q qs]; [congruence|]. simpl. apply smoothing_fold_finite.
Qed.

Lemma holt_fold_finite (alpha beta : Q) (qs : list Q) (l0 t0 : Q) :
  exists l t,
    fold_left (Forecast.holt_update alpha beta) (map Some qs) (Some l0, Some t0)
    = (Some l, Some t).
Proof.
  revert l0 t0; induction qs as [|q qs IH]; intros l0 t0; simpl; [eauto|].
  apply IH.
Qed.

Lemma holt_linear_trend_finite (qs : list Q) (alpha beta : Q) :
  qs <> [] ->
  exists l t,
    Forecast.holt_linear_trend (map Some qs) alpha beta = (Some l, Some t).
Proof.
  intros Hne. unfold Forecast.holt_linear_trend.
  destruct (_ <? 3)%nat eqn:Hge.
  - rewrite last_map_Some by exact Hne. unfold num. eauto.
  - apply Nat.ltb_ge in Hge. rewrite length_map in Hge.
    destruct qs as [|q0 [|q1 qs]]; simpl in Hge; try lia.
    cbv zeta. cbn [map tl nth]. cbn [fsub lift2].
    apply holt_fold_finite.
Qed.

Lemma nanmean_two_finite (a b : Q) (x : float) :
  exists e, nanmean [Some a; Some b; x] = Some e.
Proof.
  unfold nanmean. rewrite mean_Some; [eauto|].
  destruct x; simpl; lia.
Qed.

Section Interval.

Context `{Sqrt}.

(** The interval of a forecast row: the ensemble, finite, minus and plus the
    margin of the country's series, finite and not negative. *)
Lemma forecast_interval (rows : list Row) (c : string) (i : nat) (t : datetime) :
  (24 <= length (Forecast.unemployment_series rows c))%nat ->
  let r := forecast_of rows c i t in
  exists e m,
    Forecast.forecast_ensemble r = Some e
    /\ Forecast.prediction_margin
         (values (Forecast.unemployment_series rows c)) (95 # 100)
       = Some m
    /\ 0 <= m
    /\ Forecast.prediction_interval_lower r = Some (Qred (e - m))
    /\ Forecast.prediction_interval_upper r = Some (Qred (e + m)).
Proof.
  intros Hlen.
  destruct (unemployment_values rows c) as (qs & Evals & Hqs).
  assert (qs <> []) as Hne by (intros ->; simpl in Hqs; lia).
  unfold forecast_of, Forecast.forecast_dict.
  cbn [Forecast.forecast_ensemble Forecast.prediction_interval_lower
       Forecast.prediction_interval_upper].
  rewrite Evals.
  destruct (exponential_smoothing_finite qs (3 # 10) Hne) as (es & ->).
  destruct (holt_linear_trend_finite qs (3 # 10) (1 # 10) Hne) as (lv & tr & ->).
  cbn [fst snd]. unfold of_nat. cbn [fadd fmul lift2].
  match goal with
  | |- context [nanmean ?l] =>
      assert (exists e, nanmean l = Some e) as (e & ->)
        by apply nanmean_two_finite
  end.
  destruct (prediction_interval_bounds qs e (95 # 100)) as (m & Hm & Hpos & ->);
    [lia|].
  exists e, m. cbn [fst snd]. auto.
Qed.

End Interval.

(** C7: in every forecast row, both interval bounds are numbers and the
    upper bound is at least the lower bound. *)
Theorem C7_prediction_interval_ordered :
  forall (S : Sqrt) (clock : nat -> datetime) (df : Frame)
         (out : list Forecast.Forecast) (f : Forecast.Forecast),
    run (Forecast.model clock df) = Ok out ->
    In f out ->
    exists lower upper,
      Forecast.prediction_interval_lower (Forecast.record f) = Some lower
      /\ Forecast.prediction_interval_upper (Forecast.record f) = Some upper
      /\ lower <= upper
      /\ fge (Forecast.prediction_interval_upper (Forecast.record f))
             (Forecast.prediction_interval_lower (Forecast.record f)) = true.
Proof.
  intros S clock df out f Hrun Hin.
  destruct (forecast_model_row clock df out f Hrun Hin)
    as (Hge & i & t & _ & Ef).
  rewrite <- unemployment_series_length in Hge.
  destruct (forecast_interval (rows df) _ i t Hge)
    as (e & m & _ & _ & Hpos & Hlo & Hup).
  rewrite Ef. cbn [Forecast.record Forecast.add_uncertainty].
  exists (Qred (e - m)), (Qred (e + m)).
  rewrite Hlo, Hup.
  assert (Qred (e - m) <= Qred (e + m)) as Hle by (rewrite !Qred_correct; lra).
  repeat split; [exact Hle|].
  unfold fge, fle. apply Qle_bool_iff, Hle.
Qed.

(** C7 at [Sample.rising]: the run returns rows, and the first has ordered
    bounds. *)
Lemma C7_first_row_of_rising :
  exists f lower upper,
    In f (match run (Forecast.model Sample.clock_january Sample.rising) with
          | Ok out => out
          | _ => []
          end)
    /\ Forecast.prediction_interval_lower (Forecast.record f) = Some lower
    /\ Forecast.prediction_interval_upper (Forecast.record f) = Some upper
    /\ lower <= upper.
Proof.
  destruct (run (Forecast.model Sample.clock_january Sample.rising))
    as [out| |] eqn:Hrun; [|vm_compute in Hrun; discriminate Hrun ..].
  destruct out as [|f out]; [vm_compute in Hrun; discriminate Hrun|].
  destruct (C7_prediction_interval_ordered Sqrt_floor Sample.clock_january
              Sample.rising (f :: out) f Hrun (or_introl eq_refl))
    as (lower & upper & Hlo & Hup & Hle & _).
  exists f, lower, upper. split; [left; reflexivity|]. auto.
Defined.

(** ** Interval width *)


Section Width.

Context `{Sqrt}.
Variable clock : nat -> datetime.


End Width.



(** ** The regression forecast on a finite series *)

Lemma fsum_map_Some {A} (g : A -> Q) (l : list A) :
  fsum (map (fun a => Some (g a)) l) = Some (Qsum (map g l)).
Proof.
  induction l as [|a l IH]; [reflexivity|].
  unfold fsum, Qsum in *. cbn [map fold_right]. rewrite IH. reflexivity.
Qed.

Lemma masked_finite (qs : list Q) (i : nat) :
  length (Forecast.masked i (map Some qs)) = length qs.
Proof.
  revert i; induction qs as [|q qs IH]; intros i; simpl; [reflexivity|].
  rewrite IH. reflexivity.
Qed.

Lemma Qsum_two_le (a b : Q) (l : list Q) :
  Forall (fun x => 0 <= x) l -> a + b <= Qsum (a :: b :: l).
Proof.
  intros Hl. pose proof (Qsum_nonneg l Hl) as Hs.
  unfold Qsum in *. cbn [fold_right]. rewrite !Qred_correct. lra.
Qed.

Lemma regression_denominator_pos (xm : Q) (x : list Q) :
  0 < Qsum (map (fun xi => Qred (Qred (xi - xm) * Qred (xi - xm)))
                (0 :: 1 :: x)).
Proof.
  cbn [map].
  eapply Qlt_le_trans; [|apply Qsum_two_le].
  - rewrite !Qred_correct. nra.
  - apply Forall_map, Forall_forall. intros xi _. cbv beta.
    rewrite !Qred_correct. generalize (xi - xm). intros d. nra.
Qed.

Lemma nth_map_seq (f : nat -> float) (n p i : nat) :
  (i < p)%nat -> nth i (map f (seq n p)) NaN = f (n + i)%nat.
Proof.
  intros Hi.
  rewrite nth_indep with (d' := f 0%nat) by (rewrite length_map, length_seq; exact Hi).
  rewrite map_nth, seq_nth by exact Hi. reflexivity.
Qed.

Lemma linear_regression_finite (qs : list Q) (periods i : nat) :
  (3 <= length qs)%nat -> (i < periods)%nat ->
  exists v,
    nth i (Forecast.linear_regression_forecast (map Some qs) periods) NaN
    = Some v.
Proof.
  intros Hlen Hi. unfold Forecast.linear_regression_forecast.
  destruct (_ <? 3)%nat eqn:E1.
  { apply Nat.ltb_lt in E1. rewrite length_map in E1. lia. }
  cbv zeta. rewrite !length_map, masked_finite.
  destruct (Nat.ltb_spec (length qs) 3) as [|_]; [lia|].
  rewrite !mean_Some by (rewrite length_map, masked_finite; lia).
  set (xm := Qred (Qsum (map fst (Forecast.masked 0 (map Some qs)))
                   / Qlen (map fst (Forecast.masked 0 (map Some qs))))).
  set (ym := Qred (Qsum (map snd (Forecast.masked 0 (map Some qs)))
                   / Qlen (map snd (Forecast.masked 0 (map Some qs))))).
  unfold num. cbn [fsub fmul fadd lift2].
  rewrite (fsum_map_Some
             (fun p => Qred (Qred (fst p - xm) * Qred (snd p - ym)))).
  rewrite (fsum_map_Some (fun xi => Qred (Qred (xi - xm) * Qred (xi - xm)))).
  rewrite fdiv_Some.
  - rewrite nth_map_seq by exact Hi.
    unfold of_nat. cbn [fsub fadd fmul lift2]. eauto.
  - destruct qs as [|q0 [|q1 qs]]; simpl in Hlen; try lia.
    pose proof (regression_denominator_pos xm
                  (map fst (Forecast.masked 2 (map Some qs)))) as Hpos.
    cbn [map Forecast.masked fst Z.of_nat].
    change (inject_Z 0) with 0. change (inject_Z (Z.pos (Pos.of_succ_nat 0))) with 1.
    cbn [map] in Hpos. lra.
Qed.

(** ** The ensemble *)

Lemma nanmean_three (a b c : Q) :
  exists e, nanmean [Some a; Some b; Some c] = Some e /\ e == (a + b + c) / 3.
Proof.
  unfold nanmean. cbn [dropna]. rewrite mean_Some by (simpl; lia).
  eexists; split; [reflexivity|].
  rewrite Qred_correct, Qsum_correct. unfold Qlen. simpl. field.
Qed.

(** C1 (as corrected): in every forecast row, of horizon h = 1..6, the three
    components are numbers: the exponential-smoothing component is the
    smoothed level plus (h - 1) * trend, the Holt component the Holt level plus
    h * trend (the trend being Holt's in both), the third the regression
    forecast at h; the ensemble is their [np.nanmean], which with all three
    present is their arithmetic mean. *)
Theorem C1_ensemble_is_mean_of_three :
  forall (S : Sqrt) (clock : nat -> datetime) (df : Frame)
         (out : list Forecast.Forecast) (f : Forecast.Forecast),
    run (Forecast.model clock df) = Ok out ->
    In f out ->
    let r := Forecast.record f in
    let h := Forecast.forecast_horizon_months r in
    let series :=
      values (Forecast.unemployment_series (rows df) (Forecast.country_code r)) in
    (1 <= h <= 6)%nat
    /\ Forecast.forecast_ensemble r
       = nanmean [ Forecast.forecast_exp_smoothing r;
                   Forecast.forecast_holt r;
                   Forecast.forecast_linear_reg r ]
    /\ exists es level trend lr a b e : Q,
         Forecast.exponential_smoothing series (3 # 10) = Some es
         /\ Forecast.holt_linear_trend series (3 # 10) (1 # 10)
            = (Some level, Some trend)
         /\ nth (h - 1)
                (Forecast.linear_regression_forecast series
                   Forecast.FORECAST_HORIZON) NaN
            = Some lr
         /\ Forecast.forecast_exp_smoothing r = Some a
         /\ a == es + (inject_Z (Z.of_nat h) - 1) * trend
         /\ Forecast.forecast_holt r = Some b
         /\ b == level + inject_Z (Z.of_nat h) * trend
         /\ Forecast.forecast_linear_reg r = Some lr
         /\ Forecast.forecast_ensemble r = Some e
         /\ e == (a + b + lr) / 3.
Proof.
  intros S clock df out f Hrun Hin.
  destruct (forecast_model_row clock df out f Hrun Hin)
    as (Hge & i & t & Hi & Ef).
  rewrite <- unemployment_series_length in Hge.
  cbv zeta.
  remember (Forecast.country_code (Forecast.record f)) as c eqn:Ec.
  rewrite Ef. clear Ef Ec.
  cbn [Forecast.record Forecast.add_uncertainty].
  destruct (unemployment_values (rows df) c) as (qs & Evals & Hqs).
  assert (qs <> []) as Hne by (intros ->; simpl in Hqs; lia).
  unfold forecast_of, Forecast.forecast_dict.
  cbn [Forecast.forecast_ensemble Forecast.forecast_horizon_months
       Forecast.forecast_exp_smoothing Forecast.forecast_holt
       Forecast.forecast_linear_reg].
  rewrite Evals.
  split; [lia|]. split; [reflexivity|].
  destruct (exponential_smoothing_finite qs (3 # 10) Hne) as (es & Hes).
  destruct (holt_linear_trend_finite qs (3 # 10) (1 # 10) Hne)
    as (lv & tr & Hholt).
  destruct (linear_regression_finite qs Forecast.FORECAST_HORIZON i)
    as (lr & Hlr); [lia|exact Hi|].
  replace (i + 1 - 1)%nat with i by lia.
  rewrite Hes, Hholt, Hlr. cbn [fst snd]. unfold of_nat. cbn [fadd fmul lift2].
  destruct (nanmean_three
              (Qred (es + Qred (inject_Z (Z.of_nat i) * tr)))
              (Qred (lv + Qred (inject_Z (Z.of_nat (i + 1)) * tr)))
              lr) as (e & He & Hmean).
  exists es, lv, tr, lr,
    (Qred (es + Qred (inject_Z (Z.of_nat i) * tr))),
    (Qred (lv + Qred (inject_Z (Z.of_nat (i + 1)) * tr))), e.
  repeat split; try reflexivity; try assumption.
  - rewrite !Qred_correct.
    replace (Z.of_nat (i + 1)) with (Z.of_nat i + 1)%Z by lia.
    rewrite inject_Z_plus. ring.
  - rewrite !Qred_correct. reflexivity.
Qed.

(** C1 at [Sample.rising]: the first row of the run has horizon 1, and its
    exponential-smoothing component is the smoothed level itself. *)
Lemma C1_first_row_of_rising :
  match run (Forecast.model Sample.clock_january Sample.rising) with
  | Ok (f :: _) =>
      Forecast.forecast_horizon_months (Forecast.record f) = 1%nat
      /\ Forecast.forecast_ensemble (Forecast.record f)
         = nanmean [ Forecast.forecast_exp_smoothing (Forecast.record f);
                     Forecast.forecast_holt (Forecast.record f);
                     Forecast.forecast_linear_reg (Forecast.record f) ]
  | _ => False
  end.
Proof.
  destruct (run (Forecast.model Sample.clock_january Sample.rising))
    as [out| |] eqn:Hrun; [|vm_compute in Hrun; discriminate Hrun ..].
  destruct out as [|f out]; [vm_compute in Hrun; discriminate Hrun|].
  destruct (C1_ensemble_is_mean_of_three Sqrt_floor Sample.clock_january
              Sample.rising (f :: out) f Hrun (or_introl eq_refl))
    as (_ & Hmean & _).
  split; [|exact Hmean].
  vm_compute in Hrun. injection Hrun as <- _. reflexivity.
Defined.

(** C1, as stated, fails: for DE in [Sample.rising] (5.0, 5.1, ..., 7.3) the
    Holt trend is 0.1 and the regression forecast at horizon 1 is 7.4; the
    ensemble of the first row is the mean of the smoothed level, 7.4 and 7.4,
    not the mean of (smoothed level + 0.1), 7.4 and 7.4. *)
Lemma C1_counterexample_horizon_one :
  match run (Forecast.model Sample.clock_january Sample.rising) with
  | Ok (f :: _) =>
      let r := Forecast.record f in
      let series :=
        values (Forecast.unemployment_series (rows Sample.rising) "DE") in
      Forecast.country_code r = "DE"%string
      /\ Forecast.forecast_horizon_months r = 1%nat
      /\ snd (Forecast.holt_linear_trend series (3 # 10) (1 # 10))
         = Some (1 # 10)
      /\ Forecast.forecast_holt r = Some (37 # 5)
      /\ Forecast.forecast_linear_reg r = Some (37 # 5)
      /\ Forecast.forecast_exp_smoothing r
         = Forecast.exponential_smoothing series (3 # 10)
      /\ (Forecast.forecast_ensemble r + num (1 # 30))%F
         = ensemble_as_specified series 1
      /\ feq (Forecast.forecast_ensemble r) (ensemble_as_specified series 1)
         = false
  | _ => False
  end.
Proof. vm_compute. repeat split; reflexivity. Qed.

(** ** Anomaly detection: a series without variation *)

Lemma Qlen_cons {A} (x : A) (l : list A) : Qlen (x :: l) == Qlen l + 1.
Proof.
  unfold Qlen. cbn [length]. rewrite Nat2Z.inj_succ. unfold Z.succ.
  rewrite inject_Z_plus. reflexivity.
Qed.




Lemma In_dropna (x : Q) (s : list float) : In x (dropna s) <-> In (Some x) s.
Proof.
  induction s as [|a s IH]; simpl; [tauto|].
  destruct a as [q|]; simpl; rewrite IH; split.
  - intros [->|Hin]; auto.
  - intros [E|Hin]; [injection E as ->|]; auto.
  - auto.
  - intros [E|Hin]; [discriminate|auto].
Qed.

Lemma nth_map_const {A B} (d : B) (l : list A) (i : nat) :
  nth i (map (fun _ => d) l) d = d.
Proof.
  revert i; induction l as [|x l IH]; intros [|i]; simpl; auto.
Qed.




Lemma insert_sorted_Forall (P : Q -> Prop) (x : Q) (l : list Q) :
  P x -> Forall P l -> Forall P (Anomaly.insert_sorted x l).
Proof.
  intros Hx Hl. induction Hl as [|h t Hh Ht IH]; simpl.
  - constructor; auto.
  - destruct (Qle_bool x h); repeat constructor; auto.
Qed.


Lemma insert_sorted_not_nil (x : Q) (l : list Q) : Anomaly.insert_sorted x l <> [].
Proof. destruct l; simpl; [discriminate|]. destruct (Qle_bool x q); discriminate. Qed.






Section AnomalyFacts.

Context `{Sqrt}.
Variable pad : bool.




(** Below eleven non-missing values: missing z-score, no flag. *)
Lemma short_columns (series : list float) (i : nat) :
  (length (dropna series) <= 10)%nat ->
  columns_at (Anomaly.indicator_columns pad series) i = (NaN, false, false).
Proof.
  intros Hl. unfold Anomaly.indicator_columns.
  destruct (Nat.ltb_spec 10 (length (dropna series))) as [|_]; [lia|].
  unfold columns_at. cbn [fst snd].
  rewrite (nth_map_const NaN), !(nth_map_const false). reflexivity.
Qed.


Lemma no_columns_at (i : nat) :
  columns_at Anomaly.no_columns i = (NaN, false, false).
Proof. destruct i; reflexivity. Qed.

End AnomalyFacts.

(** ** The shape of the anomaly relation *)

Lemma mapi_from_base {A B} (g : B -> A) (f : nat -> A -> B) :
  (forall i x, g (f i x) = x) ->
  forall l k, map g (Anomaly.mapi_from k f l) = l.
Proof.
  intros Hg l; induction l as [|x l IH]; intros k; simpl; [reflexivity|].
  rewrite Hg, IH. reflexivity.
Qed.

Lemma In_mapi_from {A B} (f : nat -> A -> B) (l : list A) (k : nat) (s : B) :
  In s (Anomaly.mapi_from k f l) ->
  exists i x, nth_error l i = Some x /\ s = f (k + i)%nat x.
Proof.
  revert k; induction l as [|x l IH]; intros k; simpl; [tauto|].
  intros [<-|Hin].
  - exists 0%nat, x. rewrite Nat.add_0_r. auto.
  - destruct (IH _ Hin) as (i & y & Hy & ->).
    exists (S i), y. split; [exact Hy|]. f_equal. lia.
Qed.

Lemma dropna_perm {A} (col : A -> float) (l l' : list A) :
  Permutation l l' -> Permutation (dropna (map col l)) (dropna (map col l')).
Proof.
  induction 1 as [|x l l' _ IH|x y l|l l' l'' _ IH1 _ IH2]; simpl.
  - constructor.
  - destruct (col x); [apply perm_skip|]; exact IH.
  - destruct (col x), (col y); try reflexivity. apply perm_swap.
  - etransitivity; eassumption.
Qed.

Lemma filter_map_comm {A B} (p : B -> bool) (f : A -> B) (l : list A) :
  filter p (map f l) = map f (filter (fun x => p (f x)) l).
Proof.
  induction l as [|x l IH]; simpl; [reflexivity|].
  destruct (p (f x)); simpl; congruence.
Qed.

Section AnomalyShape.

Context `{Sqrt}.
Variable pad : bool.

Lemma score_country_base (df : Frame) (c : string) :
  map Anomaly.base (Anomaly.score_country pad df c)
  = sort_values (of_country c (rows df)).
Proof.
  unfold Anomaly.score_country.
  destruct (if has_column df "unemployment_rate_pct" then _ else _)
    as [[uz ui] ur].
  destruct (if has_column df "inflation_rate_mom_pct" then _ else _)
    as [[iz ii] ir].
  apply mapi_from_base. reflexivity.
Qed.

Lemma score_country_row (df : Frame) (c : string) (s : Anomaly.Scored) :
  In s (Anomaly.score_country pad df c) ->
  exists i,
    (i < length (sort_values (of_country c (rows df))))%nat
    /\ forall ind,
         (z_score_of ind s, iqr_outlier_of ind s, roc_anomaly_of ind s)
         = columns_at (columns_of_indicator pad df c ind) i.
Proof.
  unfold Anomaly.score_country.
  pose proof (eq_refl : columns_of_indicator pad df c Unemployment = _) as Eu.
  pose proof (eq_refl : columns_of_indicator pad df c Inflation = _) as Ei.
  unfold columns_of_indicator at 2 in Eu. unfold columns_of_indicator at 2 in Ei.
  cbn [column_name value_of] in Eu, Ei.
  destruct (if has_column df "unemployment_rate_pct" then _ else _)
    as [[uz ui] ur].
  destruct (if has_column df "inflation_rate_mom_pct" then _ else _)
    as [[iz ii] ir].
  intros Hin. apply In_mapi_from in Hin as (i & r & Hr & ->).
  exists i. split.
  - apply nth_error_Some. congruence.
  - intros [|]; [rewrite Eu|rewrite Ei]; reflexivity.
Qed.

Lemma score_country_code (df : Frame) (c : string) :
  Forall (fun s => country_code (Anomaly.base s) = c)
         (Anomaly.score_country pad df c).
Proof.
  apply Forall_forall. intros s Hs.
  apply (sorted_country_code c (rows df)).
  rewrite <- score_country_base. apply in_map, Hs.
Qed.

Lemma scored_rows_groups (df : Frame) (cs : list string) :
  Forall2 (fun c rs =>
             Forall (fun s => country_code (Anomaly.base s) = c) rs
             /\ rs = Anomaly.score_country pad df c)
          cs (map (Anomaly.score_country pad df) cs).
Proof.
  induction cs as [|c cs IH]; simpl; constructor; [|exact IH].
  split; [apply score_country_code|reflexivity].
Qed.

Lemma scored_rows_of_country (df : Frame) (c : string) :
  In c (map country_code (rows df)) ->
  filter (fun s => String.eqb (country_code (Anomaly.base s)) c)
         (Anomaly.scored_rows pad df)
  = Anomaly.score_country pad df c.
Proof.
  intros Hc. unfold Anomaly.scored_rows.
  destruct (filter_concat_group (fun s => country_code (Anomaly.base s))
              (fun c rs => rs = Anomaly.score_country pad df c) _ _
              (scored_rows_groups df (unique (map country_code (rows df))))
              (unique_NoDup _) c) as [Hin _].
  destruct (Hin (proj2 (unique_In _ c) Hc)) as (rs & -> & E). exact E.
Qed.

Lemma scored_row_country (df : Frame) (s : Anomaly.Scored) :
  In s (Anomaly.scored_rows pad df) ->
  In s (Anomaly.score_country pad df (country_code (Anomaly.base s))).
Proof.
  unfold Anomaly.scored_rows. intros Hin.
  apply in_concat in Hin as (rs & Hrs & Hs).
  apply in_map_iff in Hrs as (c & <- & _).
  pose proof (score_country_code df c) as Hc.
  rewrite Forall_forall in Hc. rewrite (Hc s Hs). exact Hs.
Qed.

Lemma getitem_added {A} (cols extra : list string) (name : string)
  (k : result A) :
  existsb (String.eqb name) extra = true ->
  Anomaly.getitem (cols ++ extra) name k = k.
Proof.
  intros E. unfold Anomaly.getitem. rewrite existsb_app, E, orb_true_r.
  reflexivity.
Qed.

(** With both tracked columns and at least one row, the run returns the
    finished rows of the loop. *)
Lemma anomaly_model_ok (df : Frame) :
  rows df <> [] ->
  has_column df "unemployment_rate_pct" = true ->
  has_column df "inflation_rate_mom_pct" = true ->
  exists out,
    Anomaly.model pad df = Ok out
    /\ Anomaly.output_rows out
       = map Anomaly.finish (Anomaly.scored_rows pad df).
Proof.
  intros Hne Hu Hi. unfold Anomaly.model.
  destruct (unique (map country_code (rows df))) as [|c0 cs] eqn:Eu.
  { apply unique_nil_inv, map_eq_nil in Eu. contradiction. }
  unfold Anomaly.scored_columns. rewrite Hu, Hi.
  rewrite !getitem_added by reflexivity.
  eexists. split; reflexivity.
Qed.

End AnomalyShape.

(** ** Anomaly detection: flat and short series *)

Section AnomalyRows.

Context `{Sqrt}.
Variable pad : bool.

Lemma sorted_non_missing (df : Frame) (c : string) (ind : indicator) :
  Permutation
    (dropna (map (value_of ind) (sort_values (of_country c (rows df)))))
    (non_missing (value_of ind) df c).
Proof.
  unfold non_missing. apply dropna_perm. symmetry. apply sort_values_perm.
Qed.


(** The three entries of an indicator in a scored row of a country with fewer
    than eleven non-missing values of the indicator. *)
Lemma short_scored_row (df : Frame) (ind : indicator) (s : Anomaly.Scored) :
  (length (non_missing (value_of ind) df (country_code (Anomaly.base s))) < 11)%nat ->
  In s (Anomaly.scored_rows pad df) ->
  (z_score_of ind s, iqr_outlier_of ind s, roc_anomaly_of ind s)
  = (NaN, false, false).
Proof.
  intros Hshort Hin.
  apply scored_row_country in Hin.
  destruct (score_country_row pad df _ s Hin) as (i & Hi & Hcols).
  rewrite (Hcols ind). unfold columns_of_indicator.
  destruct (has_column df (column_name ind)); [|apply no_columns_at].
  apply short_columns.
  rewrite (Permutation_length
             (sorted_non_missing df (country_code (Anomaly.base s)) ind)).
  lia.
Qed.

Lemma finish_indicator (ind : indicator) (s : Anomaly.Scored) :
  output_z_score_of ind (Anomaly.finish s) = z_score_of ind s
  /\ is_anomaly_of ind (Anomaly.finish s)
     = Anomaly.composite (z_score_of ind s) (iqr_outlier_of ind s)
         (roc_anomaly_of ind s).
Proof. destruct ind; split; reflexivity. Qed.

End AnomalyRows.




(** C5: for a country of the relation with fewer than 24 non-missing
    unemployment observations, the forecast run returns and has no row for the
    country; the anomaly run returns, its rows for the country are the
    country's input rows (one output row per input row), and for an indicator
    with fewer than eleven non-missing values in the country each of these
    rows has a missing z-score, no IQR or rate-of-change flag and a false
    anomaly flag for the indicator. *)
Theorem C5_short_history_country :
  forall (S : Sqrt) (clock : nat -> datetime) (pad : bool) (df : Frame)
         (c : string),
    In c (map country_code (rows df)) ->
    has_column df "unemployment_rate_pct" = true ->
    has_column df "inflation_rate_mom_pct" = true ->
    (length (non_missing unemployment_rate_pct df c) < 24)%nat ->
    (exists forecasts,
       run (Forecast.model clock df) = Ok forecasts
       /\ forecasts_of_country c forecasts = [])
    /\ exists anomalies,
         Anomaly.model pad df = Ok anomalies
         /\ Permutation
              (map Anomaly.source
                 (anomalies_of_country c (Anomaly.output_rows anomalies)))
              (of_country c (rows df))
         /\ length (anomalies_of_country c (Anomaly.output_rows anomalies))
            = length (of_country c (rows df))
         /\ forall ind,
              (length (non_missing (value_of ind) df c) < 11)%nat ->
              Forall (fun s => z_score_of ind s = NaN
                               /\ iqr_outlier_of ind s = false
                               /\ roc_anomaly_of ind s = false)
                     (Anomaly.score_country pad df c)
              /\ Forall (fun a => output_z_score_of ind a = NaN
                                  /\ is_anomaly_of ind a = false)
                        (anomalies_of_country c
                           (Anomaly.output_rows anomalies)).
Proof.
  intros S clock pad df c Hc Hu Hi Hshort. split.
  - destruct (forecast_model_rows clock df Hu) as (out & Hrun & Hrows).
    exists out. split; [exact Hrun|]. apply (Hrows c), Hshort.
  - assert (rows df <> []) as Hne by (intros E; rewrite E in Hc; destruct Hc).
    destruct (anomaly_model_ok pad df Hne Hu Hi) as (out & Hrun & Hout).
    exists out. split; [exact Hrun|].
    assert (anomalies_of_country c (Anomaly.output_rows out)
            = map Anomaly.finish (Anomaly.score_country pad df c)) as Erows.
    { unfold anomalies_of_country. rewrite Hout, filter_map_comm.
      cbn [Anomaly.finish Anomaly.source].
      rewrite (scored_rows_of_country pad df c Hc). reflexivity. }
    assert (map Anomaly.source
              (anomalies_of_country c (Anomaly.output_rows out))
            = sort_values (of_country c (rows df))) as Esrc.
    { rewrite Erows, map_map. cbn [Anomaly.finish Anomaly.source].
      apply score_country_base. }
    split; [rewrite Esrc; symmetry; apply sort_values_perm|].
    split.
    { rewrite <- (length_map Anomaly.source), Esrc.
      symmetry. apply Permutation_length, sort_values_perm. }
    intros ind Hind.
    assert (Forall (fun s => z_score_of ind s = NaN
                             /\ iqr_outlier_of ind s = false
                             /\ roc_anomaly_of ind s = false)
                   (Anomaly.score_country pad df c)) as Hscored.
    { apply Forall_forall. intros s Hs.
      assert (country_code (Anomaly.base s) = c) as Ec.
      { pose proof (score_country_code pad df c) as Hf.
        rewrite Forall_forall in Hf. apply Hf, Hs. }
      assert (In s (Anomaly.scored_rows pad df)) as Hin.
      { rewrite <- (scored_rows_of_country pad df c Hc) in Hs.
        apply filter_In in Hs. tauto. }
      pose proof (short_scored_row pad df ind s) as E.
      rewrite Ec in E. specialize (E Hind Hin).
      injection E as -> -> ->. auto. }
    split; [exact Hscored|].
    rewrite Erows. apply Forall_map.
    eapply Forall_impl; [|exact Hscored].
    intros s (Hz & Hq & Hr).
    destruct (finish_indicator ind s) as [-> ->].
    rewrite Hz, Hq, Hr. split; reflexivity.
Qed.

(** C5 at [Sample.rising]: MT has five observations; no forecast row for MT,
    five anomaly rows for MT. *)
Lemma C5_five_months_of_MT :
  (exists forecasts,
     run (Forecast.model Sample.clock_january Sample.rising) = Ok forecasts
     /\ forecasts_of_country "MT" forecasts = [])
  /\ exists anomalies,
       Anomaly.model true Sample.rising = Ok anomalies
       /\ length (anomalies_of_country "MT" (Anomaly.output_rows anomalies))
          = 5%nat
       /\ Forall (fun a => Anomaly.z_unemployment a = NaN
                           /\ Anomaly.is_unemployment_anomaly a = false)
                 (anomalies_of_country "MT" (Anomaly.output_rows anomalies)).
Proof.
  destruct (C5_short_history_country Sqrt_floor Sample.clock_january true
              Sample.rising "MT") as [Hf (out & Hrun & _ & Hlen & Hind)].
  - vm_compute. tauto.
  - reflexivity.
  - reflexivity.
  - vm_compute. lia.
  - split; [exact Hf|]. exists out. split; [exact Hrun|].
    split; [rewrite Hlen; vm_compute; reflexivity|].
    apply (Hind Unemployment). vm_compute. lia.
Defined.

(* ===================================================================== *)
(** * Further properties: the Eurostat extractor                          *)
(* ===================================================================== *)

(** ** Dicts *)

Section DictFacts.

Context {K V : Type} (eqb : K -> K -> bool).
Hypothesis eqb_eq : forall a b, eqb a b = true <-> a = b.

Lemma eqb_refl_true (a : K) : eqb a a = true.
Proof. apply eqb_eq. reflexivity. Qed.

Lemma eqb_neq_false (a b : K) : a <> b -> eqb a b = false.
Proof.
  intros Hne. destruct (eqb a b) eqn:E; [|reflexivity].
  apply eqb_eq in E. contradiction.
Qed.

Lemma dict_get_set_same (d : list (K * V)) (k : K) (v : V) :
  Eurostat.dict_get eqb (Eurostat.dict_set eqb d k v) k = Some v.
Proof.
  induction d as [|[k' v'] d IH]; simpl.
  - rewrite eqb_refl_true. reflexivity.
  - destruct (eqb k' k) eqn:E; simpl; rewrite E; [reflexivity|exact IH].
Qed.

Lemma dict_get_set_other (d : list (K * V)) (k k' : K) (v : V) :
  k <> k' ->
  Eurostat.dict_get eqb (Eurostat.dict_set eqb d k v) k'
  = Eurostat.dict_get eqb d k'.
Proof.
  intros Hne. induction d as [|[k0 v0] d IH]; simpl.
  - rewrite (eqb_neq_false k k' Hne). reflexivity.
  - destruct (eqb k0 k) eqn:E; simpl.
    + apply eqb_eq in E. subst k0. rewrite (eqb_neq_false k k' Hne). reflexivity.
    + destruct (eqb k0 k'); [reflexivity|exact IH].
Qed.

Lemma dict_set_fresh (d : list (K * V)) (k : K) (v : V) :
  ~ In k (map fst d) -> Eurostat.dict_set eqb d k v = d ++ [(k, v)].
Proof.
  induction d as [|[k' v'] d IH]; simpl; intros Hnot; [reflexivity|].
  rewrite eqb_neq_false by (intros ->; apply Hnot; auto).
  rewrite IH by (intros Hin; apply Hnot; auto). reflexivity.
Qed.

Lemma dict_get_In (d : list (K * V)) (k : K) (v : V) :
  Eurostat.dict_get eqb d k = Some v -> In (k, v) d.
Proof.
  induction d as [|[k' v'] d IH]; simpl; [discriminate|].
  destruct (eqb k' k) eqn:E.
  - apply eqb_eq in E. subst k'. intros [= ->]. auto.
  - auto.
Qed.

Lemma dict_In_get (d : list (K * V)) (k : K) (v : V) :
  NoDup (map fst d) -> In (k, v) d -> Eurostat.dict_get eqb d k = Some v.
Proof.
  induction d as [|[k' v'] d IH]; simpl; [tauto|].
  intros Hnd [E|Hin]; inversion Hnd as [|? ? Hnot Hnd']; subst.
  - injection E as -> ->. rewrite eqb_refl_true. reflexivity.
  - rewrite eqb_neq_false; [apply IH; assumption|].
    intros ->. apply Hnot. apply (in_map fst) in Hin. exact Hin.
Qed.

End DictFacts.

Lemma string_eqb_eq (a b : string) : String.eqb a b = true <-> a = b.
Proof. apply String.eqb_eq. Qed.

Lemma Z_eqb_eq (a b : Z) : Z.eqb a b = true <-> a = b.
Proof. apply Z.eqb_eq. Qed.

(** ** Strides *)

Lemma stride_fold_product (l : list Z) :
  snd (fold_left Eurostat.stride_step (rev l) ([], 1%Z)) = product l.
Proof.
  induction l as [|x l IH]; [reflexivity|].
  cbn [rev]. rewrite fold_left_app. cbn [fold_left].
  destruct (fold_left Eurostat.stride_step (rev l) ([], 1%Z)) as [strides stride].
  cbn [snd] in IH. subst stride.
  unfold Eurostat.stride_step, product. cbn [snd fold_right]. lia.
Qed.

Lemma compute_strides_cons (x : Z) (l : list Z) :
  Eurostat.compute_strides (x :: l) = product l :: Eurostat.compute_strides l.
Proof.
  unfold Eurostat.compute_strides. cbn [rev]. rewrite fold_left_app.
  cbn [fold_left]. pose proof (stride_fold_product l) as Hp.
  destruct (fold_left Eurostat.stride_step (rev l) ([], 1%Z)) as [strides stride].
  cbn [snd] in Hp. subst stride. reflexivity.
Qed.

(** X1: [compute_strides] returns one stride per size, and the stride at
    position i is the product of the sizes after position i (so the last
    stride is 1, and the first size is in no stride). *)
Theorem X1_stride_is_product_of_later_sizes :
  forall (sizes : list Z) (i : nat),
    (i < length sizes)%nat ->
    length (Eurostat.compute_strides sizes) = length sizes
    /\ nth i (Eurostat.compute_strides sizes) 0%Z = product (skipn (S i) sizes).
Proof.
  intros sizes. induction sizes as [|x l IH]; intros i Hi; [simpl in Hi; lia|].
  rewrite compute_strides_cons. cbn [length]. split.
  - f_equal. destruct l as [|y l']; [reflexivity|].
    apply (IH 0%nat). simpl. lia.
  - destruct i as [|i]; [reflexivity|].
    cbn [nth skipn]. apply IH. simpl in Hi. lia.
Qed.

(** X1 at the sizes 2, 3, 4: the strides are 12, 4, 1. *)
Lemma X1_strides_of_2_3_4 :
  length (Eurostat.compute_strides [2; 3; 4]%Z) = 3%nat
  /\ nth 1 (Eurostat.compute_strides [2; 3; 4]%Z) 0%Z = 4%Z.
Proof.
  apply (X1_stride_is_product_of_later_sizes [2; 3; 4]%Z 1). simpl. lia.
Defined.

(** ** Flat index and positions *)

Lemma product_pos (l : list Z) :
  Forall (fun s => 0 < s)%Z l -> (0 < product l)%Z.
Proof.
  induction 1 as [|x l Hx _ IH]; unfold product in *; cbn [fold_right]; lia.
Qed.

Lemma product_nonzero (l : list Z) :
  Forall (fun s => s <> 0%Z) l -> product l <> 0%Z.
Proof.
  induction 1 as [|x l Hx _ IH]; unfold product in *; cbn [fold_right]; lia.
Qed.

Lemma product_zero (l : list Z) : In 0%Z l -> product l = 0%Z.
Proof.
  induction l as [|x l IH]; [intros []|].
  unfold product in *. cbn [fold_right]. intros [->|Hin]; [lia|].
  rewrite (IH Hin). lia.
Qed.

(** X2: decoding then encoding.  With every size positive and a flat index
    from 0 up to the product of the sizes, the positions the decoding loop
    computes lie within the sizes, one per dimension, and their flat index is
    the index decoded. *)
Theorem X2_positions_then_flat_index :
  forall (sizes : list Z) (flat : Z),
    Forall (fun s => 0 < s)%Z sizes ->
    (0 <= flat < product sizes)%Z ->
    let strides := Eurostat.compute_strides sizes in
    Forall2 (fun i s => 0 <= i < s)%Z (Eurostat.positions strides flat) sizes
    /\ Eurostat.flat_index strides (Eurostat.positions strides flat) = flat.
Proof.
  intros sizes flat Hpos. revert flat.
  induction Hpos as [|x l Hx Hl IH]; intros flat Hflat; cbv zeta.
  - unfold product in Hflat. simpl in Hflat.
    assert (flat = 0%Z) as -> by lia. split; [constructor|reflexivity].
  - rewrite compute_strides_cons.
    cbn [Eurostat.positions Eurostat.flat_index].
    pose proof (product_pos l Hl) as Hp.
    unfold product in Hflat. cbn [fold_right] in Hflat. fold (product l) in Hflat.
    destruct (IH (flat mod product l)%Z) as [Hrange Hback].
    { apply Z.mod_pos_bound. exact Hp. }
    split.
    + constructor; [|exact Hrange]. split.
      * apply Z.div_pos; lia.
      * apply Z.div_lt_upper_bound; lia.
    + cbv zeta in Hback. rewrite Hback.
      pose proof (Z.div_mod flat (product l)). lia.
Qed.

(** X2 at the sizes 2, 3 and the flat index 5. *)
Lemma X2_flat_index_5_of_2_3 :
  Forall2 (fun i s => 0 <= i < s)%Z
    (Eurostat.positions (Eurostat.compute_strides [2; 3]%Z) 5) [2; 3]%Z
  /\ Eurostat.flat_index (Eurostat.compute_strides [2; 3]%Z)
       (Eurostat.positions (Eurostat.compute_strides [2; 3]%Z) 5)
     = 5%Z.
Proof.
  apply (X2_positions_then_flat_index [2; 3]%Z 5).
  - repeat constructor.
  - vm_compute. split; [discriminate|reflexivity].
Defined.

Lemma flat_index_range (sizes idx : list Z) :
  Forall2 (fun i s => 0 <= i < s)%Z idx sizes ->
  (0 <= Eurostat.flat_index (Eurostat.compute_strides sizes) idx
   < product sizes)%Z.
Proof.
  induction 1 as [|i s idx sizes His _ IH].
  - unfold product. simpl. lia.
  - rewrite compute_strides_cons. cbn [Eurostat.flat_index].
    unfold product in *. cbn [fold_right]. nia.
Qed.

(** X3: encoding then decoding.  The flat index of positions that lie within
    the sizes is below the product of the sizes, and the decoding loop gives
    the positions back: distinct cells of the cube have distinct flat
    indices. *)
Theorem X3_flat_index_then_positions :
  forall (sizes idx : list Z),
    Forall2 (fun i s => 0 <= i < s)%Z idx sizes ->
    let strides := Eurostat.compute_strides sizes in
    (0 <= Eurostat.flat_index strides idx < product sizes)%Z
    /\ Eurostat.positions strides (Eurostat.flat_index strides idx) = idx.
Proof.
  intros sizes idx Hr. cbv zeta. split; [apply flat_index_range, Hr|].
  induction Hr as [|i s idx sizes His Hr IH]; [reflexivity|].
  rewrite compute_strides_cons.
  cbn [Eurostat.flat_index Eurostat.positions].
  pose proof (flat_index_range sizes idx Hr) as Hf.
  set (f := Eurostat.flat_index (Eurostat.compute_strides sizes) idx) in *.
  assert ((i * product sizes + f) / product sizes = i)%Z as ->.
  { rewrite Z.add_comm, Z.div_add by lia. rewrite Z.div_small; lia. }
  assert ((i * product sizes + f) mod product sizes = f)%Z as ->.
  { rewrite Z.add_comm, Z.mod_add by lia. apply Z.mod_small; lia. }
  rewrite IH. reflexivity.
Qed.

(** X3 at the sizes 2, 3 and the positions 1, 2. *)
Lemma X3_positions_1_2_of_2_3 :
  (0 <= Eurostat.flat_index (Eurostat.compute_strides [2; 3]%Z) [1; 2]%Z
   < product [2; 3]%Z)%Z
  /\ Eurostat.positions (Eurostat.compute_strides [2; 3]%Z)
       (Eurostat.flat_index (Eurostat.compute_strides [2; 3]%Z) [1; 2]%Z)
     = [1; 2]%Z.
Proof.
  apply (X3_flat_index_then_positions [2; 3]%Z [1; 2]%Z).
  repeat constructor; lia.
Defined.

(** ** Decoding a record *)

Lemma decode_dimensions_from (dim_labels : list (string * Eurostat.Labels))
  (dim_ids : list string) :
  forall (pre post : list Z) (remaining : Z)
         (record : list (string * Eurostat.cell)),
    (length dim_ids <= length post)%nat ->
    Forall (fun s => s <> 0%Z) (firstn (length dim_ids) post) ->
    Eurostat.decode_dimensions dim_labels (pre ++ post) (length pre) dim_ids
      remaining record
    = Eurostat.Done
        (write_dimensions dim_labels dim_ids
           (Eurostat.positions post remaining) record).
Proof.
  induction dim_ids as [|d ids IH]; intros pre post remaining record Hlen Hnz.
  - reflexivity.
  - destruct post as [|st post]; [simpl in Hlen; lia|].
    cbn [Eurostat.decode_dimensions].
    rewrite nth_error_app2, Nat.sub_diag by lia. cbn [nth_error].
    cbn [length firstn] in Hnz. inversion Hnz as [|? ? Hst Hrest]; subst.
    rewrite (proj2 (Z.eqb_neq st 0) Hst).
    replace (pre ++ st :: post) with ((pre ++ [st]) ++ post)
      by (rewrite <- app_assoc; reflexivity).
    replace (S (length pre)) with (length (pre ++ [st]))
      by (rewrite length_app; simpl; lia).
    rewrite IH by (simpl in Hlen; try lia; assumption).
    reflexivity.
Qed.

(** X4: when there are at least as many strides as dimension ids and none of
    the strides used is zero, decoding a flat index succeeds and writes, for
    each dimension id in order, the code and label of the position
    [remaining // stride], carrying [remaining % stride] on to the next
    dimension. *)
Theorem X4_decode_dimensions_writes_positions :
  forall (dim_labels : list (string * Eurostat.Labels)) (strides : list Z)
         (dim_ids : list string) (flat : Z)
         (record : list (string * Eurostat.cell)),
    (length dim_ids <= length strides)%nat ->
    Forall (fun s => s <> 0%Z) (firstn (length dim_ids) strides) ->
    Eurostat.decode_dimensions dim_labels strides 0 dim_ids flat record
    = Eurostat.Done
        (write_dimensions dim_labels dim_ids
           (Eurostat.positions strides flat) record).
Proof.
  intros dl strides ids flat record Hlen Hnz.
  apply (decode_dimensions_from dl ids [] strides flat record Hlen Hnz).
Qed.

(** X4 for one dimension of stride 1. *)
Lemma X4_decode_one_dimension :
  Eurostat.decode_dimensions [] [1%Z] 0 ["geo"%string] 7 []
  = Eurostat.Done (write_dimensions [] ["geo"%string] [7%Z] []).
Proof.
  apply (X4_decode_dimensions_writes_positions [] [1%Z] ["geo"%string] 7 []).
  - simpl. lia.
  - repeat constructor. discriminate.
Defined.

Lemma compute_strides_nonzero (sizes : list Z) :
  Forall (fun s => s <> 0%Z) (tl sizes) ->
  Forall (fun s => s <> 0%Z) (Eurostat.compute_strides sizes).
Proof.
  induction sizes as [|x l IH]; intros Hnz; [constructor|].
  rewrite compute_strides_cons. cbn [tl] in Hnz. constructor.
  - apply product_nonzero, Hnz.
  - apply IH. destruct l as [|y l']; [constructor|].
    inversion Hnz; assumption.
Qed.

Lemma Forall_firstn {A} (P : A -> Prop) (n : nat) (l : list A) :
  Forall P l -> Forall P (firstn n l).
Proof.
  intros Hl. revert n; induction Hl as [|x l Hx _ IH]; intros [|n]; simpl;
    constructor; auto.
Qed.

Section ParseFacts.

Variable clock : nat -> datetime.

Lemma parse_values_done (dataset_code : string)
  (dim_labels : list (string * Eurostat.Labels)) (strides : list Z)
  (dim_ids : list string) :
  (length dim_ids <= length strides)%nat ->
  Forall (fun s => s <> 0%Z) strides ->
  forall (values : list (Z * float))
         (records : list (list (string * Eurostat.cell))) (k : nat),
  exists news,
    fst (Eurostat.parse_values clock dataset_code dim_labels strides dim_ids
           values records k)
    = Eurostat.Done (records ++ news)
    /\ Forall2 (fun kv rec =>
                  exists t,
                    rec = write_dimensions dim_labels dim_ids
                            (Eurostat.positions strides (fst kv))
                            (base_record dataset_code (snd kv) t))
               values news.
Proof.
  intros Hlen Hnz values. induction values as [|kv rest IH]; intros records k.
  - exists []. rewrite app_nil_r. split; [reflexivity|constructor].
  - cbn [Eurostat.parse_values]. unfold bind, Eurostat.parse_value at 1.
    unfold bind, datetime_now, ret.
    rewrite X4_decode_dimensions_writes_positions
      by (try exact Hlen; apply Forall_firstn, Hnz).
    destruct (IH (records ++
                [write_dimensions dim_labels dim_ids
                   (Eurostat.positions strides (fst kv))
                   (base_record dataset_code (snd kv) (clock k))]) (S k))
      as (news & Hrun & Hnews).
    exists (write_dimensions dim_labels dim_ids
              (Eurostat.positions strides (fst kv))
              (base_record dataset_code (snd kv) (clock k)) :: news).
    split.
    + unfold base_record in *. rewrite Hrun, <- app_assoc. reflexivity.
    + constructor; [exists (clock k); reflexivity|exact Hnews].
Qed.

End ParseFacts.

(** X5: for a document with at least as many sizes as dimension ids and no
    zero among the sizes after the first, parsing succeeds and returns one
    record per entry of [value], in order: the three base fields (dataset
    code, the entry's value, a timestamp) followed by the code and label of
    each dimension at the position decoded from the entry's flat index. *)
Theorem X5_parse_one_record_per_value :
  forall (clock : nat -> datetime) (data : Eurostat.Document)
         (dataset_code : string),
    (length (Eurostat.id data) <= length (Eurostat.size data))%nat ->
    Forall (fun s => s <> 0%Z) (tl (Eurostat.size data)) ->
    exists records,
      run (Eurostat.parse_eurostat_json clock data dataset_code)
      = Eurostat.Done records
      /\ length records = length (Eurostat.value data)
      /\ Forall2 (fun kv rec =>
                    exists t,
                      rec = write_dimensions
                              (Eurostat.build_dim_labels
                                 (Eurostat.dimension data) (Eurostat.id data))
                              (Eurostat.id data)
                              (Eurostat.positions
                                 (Eurostat.compute_strides (Eurostat.size data))
                                 (fst kv))
                              (base_record dataset_code (snd kv) t))
                 (Eurostat.value data) records.
Proof.
  intros clock data code Hlen Hnz.
  destruct (parse_values_done clock code
              (Eurostat.build_dim_labels (Eurostat.dimension data)
                 (Eurostat.id data))
              (Eurostat.compute_strides (Eurostat.size data))
              (Eurostat.id data)) with (values := Eurostat.value data)
              (records := @nil (list (string * Eurostat.cell))) (k := 0%nat)
    as (news & Hrun & Hnews).
  - destruct (Eurostat.size data) as [|x l] eqn:Es.
    + simpl in Hlen. destruct (Eurostat.id data); simpl in *; lia.
    + destruct (X1_stride_is_product_of_later_sizes (x :: l) 0) as [-> _];
        [simpl; lia|exact Hlen].
  - apply compute_strides_nonzero, Hnz.
  - exists news. split; [exact Hrun|]. split; [|exact Hnews].
    symmetry. apply (Forall2_length_eq _ _ _ Hnews).
Qed.

(** X5 at [EurostatSample.document]: three entries, three records. *)
Lemma X5_sample_document_records :
  exists records,
    run (Eurostat.parse_eurostat_json (fun k => Z.of_nat k)
           EurostatSample.document "une_rt_m")
    = Eurostat.Done records
    /\ length records = 3%nat.
Proof.
  destruct (X5_parse_one_record_per_value (fun k => Z.of_nat k)
              EurostatSample.document "une_rt_m") as (records & Hrun & Hlen & _).
  - simpl. lia.
  - repeat constructor. discriminate.
  - exists records. split; [exact Hrun|exact Hlen].
Defined.

(** X6: a document with a dimension id, an entry in [value] and a zero among
    the sizes after the first cannot be parsed: the first stride is zero and
    the first division raises [ZeroDivisionError]. *)
Theorem X6_zero_size_raises :
  forall (clock : nat -> datetime) (data : Eurostat.Document)
         (dataset_code : string),
    Eurostat.id data <> [] ->
    Eurostat.value data <> [] ->
    In 0%Z (tl (Eurostat.size data)) ->
    run (Eurostat.parse_eurostat_json clock data dataset_code)
    = Eurostat.ZeroDivisionError.
Proof.
  intros clock data code Hid Hval Hzero.
  unfold run, Eurostat.parse_eurostat_json.
  destruct (Eurostat.size data) as [|x l]; [destruct Hzero|].
  cbn [tl] in Hzero. rewrite compute_strides_cons, (product_zero l Hzero).
  destruct (Eurostat.value data) as [|kv rest]; [congruence|].
  destruct (Eurostat.id data) as [|d ids]; [congruence|].
  reflexivity.
Qed.

(** X6 at [EurostatSample.zero_size_document]. *)
Lemma X6_sample_zero_size :
  run (Eurostat.parse_eurostat_json (fun k => Z.of_nat k)
         EurostatSample.zero_size_document "une_rt_m")
  = Eurostat.ZeroDivisionError.
Proof.
  apply (X6_zero_size_raises (fun k => Z.of_nat k)
           EurostatSample.zero_size_document "une_rt_m").
  - discriminate.
  - discriminate.
  - simpl. auto.
Defined.

Lemma decode_dimensions_short (dim_labels : list (string * Eurostat.Labels))
  (dim_ids : list string) :
  forall (pre post : list Z) (remaining : Z)
         (record : list (string * Eurostat.cell)),
    (length post < length dim_ids)%nat ->
    Forall (fun s => s <> 0%Z) post ->
    Eurostat.decode_dimensions dim_labels (pre ++ post) (length pre) dim_ids
      remaining record
    = Eurostat.IndexError.
Proof.
  induction dim_ids as [|d ids IH]; intros pre post remaining record Hlen Hnz.
  - simpl in Hlen. lia.
  - cbn [Eurostat.decode_dimensions]. destruct post as [|st post].
    + rewrite app_nil_r.
      rewrite (proj2 (nth_error_None pre (length pre))) by lia. reflexivity.
    + rewrite nth_error_app2, Nat.sub_diag by lia. cbn [nth_error].
      inversion Hnz as [|? ? Hst Hrest]; subst.
      rewrite (proj2 (Z.eqb_neq st 0) Hst).
      replace (pre ++ st :: post) with ((pre ++ [st]) ++ post)
        by (rewrite <- app_assoc; reflexivity).
      replace (S (length pre)) with (length (pre ++ [st]))
        by (rewrite length_app; simpl; lia).
      apply IH; [simpl in Hlen; lia|exact Hrest].
Qed.

(** X7: a document with more dimension ids than sizes, an entry in [value]
    and no zero among the sizes after the first cannot be parsed either: the
    loop runs out of strides and raises [IndexError]. *)
Theorem X7_missing_size_raises :
  forall (clock : nat -> datetime) (data : Eurostat.Document)
         (dataset_code : string),
    (length (Eurostat.size data) < length (Eurostat.id data))%nat ->
    Eurostat.value data <> [] ->
    Forall (fun s => s <> 0%Z) (tl (Eurostat.size data)) ->
    run (Eurostat.parse_eurostat_json clock data dataset_code)
    = Eurostat.IndexError.
Proof.
  intros clock data code Hlen Hval Hnz.
  unfold run, Eurostat.parse_eurostat_json.
  destruct (Eurostat.value data) as [|kv rest]; [congruence|].
  cbn [Eurostat.parse_values]. unfold bind, Eurostat.parse_value at 1.
  unfold bind, datetime_now, ret.
  rewrite (decode_dimensions_short _ (Eurostat.id data) []
             (Eurostat.compute_strides (Eurostat.size data))).
  - reflexivity.
  - destruct (Eurostat.size data) as [|x l] eqn:Es; [simpl in *; exact Hlen|].
    destruct (X1_stride_is_product_of_later_sizes (x :: l) 0) as [-> _];
      [simpl; lia|exact Hlen].
  - apply compute_strides_nonzero, Hnz.
Qed.

(** X7 at [EurostatSample.one_size_document]. *)
Lemma X7_sample_missing_size :
  run (Eurostat.parse_eurostat_json (fun k => Z.of_nat k)
         EurostatSample.one_size_document "une_rt_m")
  = Eurostat.IndexError.
Proof.
  apply (X7_missing_size_raises (fun k => Z.of_nat k)
           EurostatSample.one_size_document "une_rt_m").
  - simpl. lia.
  - discriminate.
  - constructor.
Defined.

(** ** Codes of positions *)

Lemma invert_fold (index : list (string * Z)) (d : list (Z * string)) :
  NoDup (map fst d ++ map snd index) ->
  fold_left (fun d kv => Eurostat.dict_set Z.eqb d (snd kv) (fst kv)) index d
  = d ++ map (fun kv => (snd kv, fst kv)) index.
Proof.
  revert d; induction index as [|[code pos] index IH]; intros d Hnd.
  - simpl. rewrite app_nil_r. reflexivity.
  - cbn [fold_left map fst snd] in *.
    rewrite (dict_set_fresh Z.eqb Z_eqb_eq).
    + rewrite IH.
      * rewrite <- app_assoc. reflexivity.
      * rewrite map_app. cbn [map fst]. rewrite <- app_assoc. exact Hnd.
    + intros Hin. apply NoDup_remove_2 in Hnd. apply Hnd.
      apply in_or_app. left. exact Hin.
Qed.

(** X8: the code lookup built from a dimension's [index].  When no two codes
    of the index share a position, the inverted dict gives for a position the
    code whose index entry is that position, and nothing for a position no
    entry has; the record then carries [str(position)] as the code. *)
Theorem X8_inverted_index_lookup :
  forall (index : list (string * Z)) (pos : Z),
    NoDup (map snd index) ->
    (forall code,
       Eurostat.dict_get Z.eqb (Eurostat.invert index) pos = Some code
       <-> In (code, pos) index)
    /\ (~ In pos (map snd index) ->
        Eurostat.dict_get_default Z.eqb (Eurostat.invert index) pos
          (Eurostat.str pos)
        = Eurostat.str pos).
Proof.
  intros index pos Hnd.
  assert (Eurostat.invert index = map (fun kv => (snd kv, fst kv)) index) as E.
  { unfold Eurostat.invert. rewrite invert_fold by exact Hnd. reflexivity. }
  assert (map fst (map (fun kv : string * Z => (snd kv, fst kv)) index)
          = map snd index) as Ekeys.
  { rewrite map_map. reflexivity. }
  rewrite E. split.
  - intros code. split.
    + intros Hget. apply (dict_get_In Z.eqb Z_eqb_eq) in Hget.
      apply in_map_iff in Hget as ([c p] & [= <- <-] & Hin). exact Hin.
    + intros Hin. apply (dict_In_get Z.eqb Z_eqb_eq).
      * rewrite Ekeys. exact Hnd.
      * apply in_map_iff. exists (code, pos). split; [reflexivity|exact Hin].
  - intros Hnot. unfold Eurostat.dict_get_default.
    destruct (Eurostat.dict_get Z.eqb _ pos) as [code|] eqn:Hget; [|reflexivity].
    exfalso. apply Hnot. apply (dict_get_In Z.eqb Z_eqb_eq) in Hget.
    rewrite <- Ekeys. apply (in_map fst) in Hget. exact Hget.
Qed.

(** X8 at the index DE -> 0, FR -> 1. *)
Lemma X8_lookup_DE_FR :
  Eurostat.dict_get Z.eqb
    (Eurostat.invert [("DE", 0%Z); ("FR", 1%Z)]%string) 1%Z
  = Some "FR"%string.
Proof.
  apply (X8_inverted_index_lookup [("DE", 0%Z); ("FR", 1%Z)]%string 1%Z).
  - repeat constructor; simpl; intuition discriminate.
  - simpl. auto.
Defined.

(** ** Query parameters *)

Lemma add_value_other (key k' : string) (d : list (string * Eurostat.param))
  (v : string) :
  key <> k' ->
  Eurostat.dict_get String.eqb (Eurostat.add_value key d v) k'
  = Eurostat.dict_get String.eqb d k'.
Proof.
  intros Hne. unfold Eurostat.add_value.
  destruct (Eurostat.dict_get String.eqb d key) as [[v0|vs]|];
    apply (dict_get_set_other String.eqb string_eqb_eq); exact Hne.
Qed.

Lemma add_values_other (key k' : string) (vs : list string) :
  key <> k' ->
  forall d,
    Eurostat.dict_get String.eqb (fold_left (Eurostat.add_value key) vs d) k'
    = Eurostat.dict_get String.eqb d k'.
Proof.
  intros Hne. induction vs as [|v vs IH]; intros d; [reflexivity|].
  cbn [fold_left]. rewrite IH. apply add_value_other, Hne.
Qed.

Lemma add_values_many (key : string) (vs : list string) :
  forall d ws,
    Eurostat.dict_get String.eqb d key = Some (Eurostat.Many ws) ->
    Eurostat.dict_get String.eqb (fold_left (Eurostat.add_value key) vs d) key
    = Some (Eurostat.Many (ws ++ vs)).
Proof.
  induction vs as [|v vs IH]; intros d ws Hd.
  - rewrite app_nil_r. exact Hd.
  - cbn [fold_left]. rewrite (IH _ (ws ++ [v])).
    + rewrite <- app_assoc. reflexivity.
    + unfold Eurostat.add_value. rewrite Hd.
      apply (dict_get_set_same String.eqb string_eqb_eq).
Qed.

Lemma add_values_fresh (key : string) (vs : list string)
  (d : list (string * Eurostat.param)) :
  Eurostat.dict_get String.eqb d key = None ->
  Eurostat.dict_get String.eqb (fold_left (Eurostat.add_value key) vs d) key
  = param_of_list vs.
Proof.
  intros Hd. destruct vs as [|v [|w vs]].
  - exact Hd.
  - cbn [fold_left param_of_list]. unfold Eurostat.add_value. rewrite Hd.
    apply (dict_get_set_same String.eqb string_eqb_eq).
  - cbn [fold_left param_of_list].
    rewrite (add_values_many key vs _ [v; w]); [reflexivity|].
    unfold Eurostat.add_value at 1.
    assert (Eurostat.dict_get String.eqb (Eurostat.add_value key d v) key
            = Some (Eurostat.One v)) as ->.
    { unfold Eurostat.add_value. rewrite Hd.
      apply (dict_get_set_same String.eqb string_eqb_eq). }
    apply (dict_get_set_same String.eqb string_eqb_eq).
Qed.

Lemma add_param_other (kv : string * Eurostat.param) (k' : string)
  (d : list (string * Eurostat.param)) :
  fst kv <> k' ->
  Eurostat.dict_get String.eqb (Eurostat.add_param d kv) k'
  = Eurostat.dict_get String.eqb d k'.
Proof.
  intros Hne. unfold Eurostat.add_param. destruct (snd kv) as [v|vs].
  - apply (dict_get_set_other String.eqb string_eqb_eq), Hne.
  - apply add_values_other, Hne.
Qed.

Lemma add_param_fresh (kv : string * Eurostat.param)
  (d : list (string * Eurostat.param)) :
  Eurostat.dict_get String.eqb d (fst kv) = None ->
  Eurostat.dict_get String.eqb (Eurostat.add_param d kv) (fst kv)
  = entry_of_param (snd kv).
Proof.
  intros Hd. unfold Eurostat.add_param, entry_of_param.
  destruct (snd kv) as [v|vs].
  - apply (dict_get_set_same String.eqb string_eqb_eq).
  - apply add_values_fresh, Hd.
Qed.

Lemma add_params_other (params : list (string * Eurostat.param)) (k' : string) :
  ~ In k' (map fst params) ->
  forall d,
    Eurostat.dict_get String.eqb (fold_left Eurostat.add_param params d) k'
    = Eurostat.dict_get String.eqb d k'.
Proof.
  induction params as [|kv params IH]; intros Hnot d; [reflexivity|].
  cbn [fold_left]. rewrite IH by (intros Hin; apply Hnot; right; exact Hin).
  apply add_param_other. intros E. apply Hnot. left. exact E.
Qed.

Lemma add_params_entry (params : list (string * Eurostat.param)) :
  NoDup (map fst params) ->
  forall d key value,
    (forall k, In k (map fst params) ->
               Eurostat.dict_get String.eqb d k = None) ->
    In (key, value) params ->
    Eurostat.dict_get String.eqb (fold_left Eurostat.add_param params d) key
    = entry_of_param value.
Proof.
  induction params as [|kv params IH]; intros Hnd d key value Hfresh Hin;
    [destruct Hin|].
  cbn [map] in Hnd. inversion Hnd as [|? ? Hnot Hnd']; subst.
  cbn [fold_left]. destruct Hin as [->|Hin].
  - rewrite add_params_other by exact Hnot.
    apply (add_param_fresh (key, value)). apply Hfresh. left. reflexivity.
  - apply (IH Hnd' _ key value); [|exact Hin].
    intros k Hk. rewrite add_param_other.
    + apply Hfresh. right. exact Hk.
    + intros E. apply Hnot. rewrite E. exact Hk.
Qed.

(** X9: the query built from [params] (a dict: no key twice) that names
    neither [format] nor [lang] keeps [format=JSON] and [lang=en], and has
    under each key of [params] its string value, or for a list value: no entry
    when the list is empty, the single string when it has one element, and the
    whole list in order from two elements on. *)
Theorem X9_query_params :
  forall (params : list (string * Eurostat.param)) (key : string)
         (value : Eurostat.param),
    NoDup (map fst params) ->
    ~ In "format"%string (map fst params) ->
    ~ In "lang"%string (map fst params) ->
    In (key, value) params ->
    let query := Eurostat.build_query_params params in
    Eurostat.dict_get String.eqb query key = entry_of_param value
    /\ Eurostat.dict_get String.eqb query "format"%string
       = Some (Eurostat.One "JSON")
    /\ Eurostat.dict_get String.eqb query "lang"%string
       = Some (Eurostat.One "en").
Proof.
  intros params key value Hnd Hformat Hlang Hin. cbv zeta.
  unfold Eurostat.build_query_params. split; [|split].
  - apply (add_params_entry params Hnd _ key value); [|exact Hin].
    intros k Hk. cbn [Eurostat.dict_get].
    destruct (String.eqb_spec "format" k) as [<-|_]; [contradiction|].
    destruct (String.eqb_spec "lang" k) as [<-|_]; [contradiction|].
    reflexivity.
  - rewrite add_params_other by exact Hformat. reflexivity.
  - rewrite add_params_other by exact Hlang. reflexivity.
Qed.

(** X9 at the parameters of the unemployment dataset: the three countries
    arrive as a list under [geo]. *)
Lemma X9_unemployment_geo :
  Eurostat.dict_get String.eqb
    (Eurostat.build_query_params EurostatSample.unemployment_params)
    "geo"%string
  = Some (Eurostat.Many ["DE"; "FR"; "IT"]%string).
Proof.
  apply (X9_query_params EurostatSample.unemployment_params "geo"
           (Eurostat.Many ["DE"; "FR"; "IT"]%string)).
  - repeat constructor; simpl; intuition discriminate.
  - simpl. intuition discriminate.
  - simpl. intuition discriminate.
  - simpl. tauto.
Defined.

(* ===================================================================== *)
(** * Further properties: the quality scorer                              *)
(* ===================================================================== *)

Lemma Forall2_map_both {A B C} (p : B -> C) (q : A -> C) (l : list A)
  (l' : list B) :
  Forall2 (fun x y => p y = q x) l l' -> map p l' = map q l.
Proof. induction 1; simpl; congruence. Qed.

(** X10: the quality relation has exactly one row per distinct country code
    of the input, in the order in which the countries first appear, and the
    row's [total_records] is the number of input rows of that country. *)
Theorem X10_one_quality_row_per_country :
  forall (clock : nat -> datetime) (df : Frame),
    map (fun q => (Quality.country_code (Quality.record q),
                   Quality.total_records (Quality.record q)))
        (run (Quality.model clock df))
    = map (fun c => (c, length (of_country c (rows df))))
          (unique (map country_code (rows df))).
Proof.
  intros clock df. unfold run, Quality.model, bind.
  pose proof (mapM_Forall2
    (fun c r => (Quality.country_code r, Quality.total_records r)
                = (c, length (of_country c (rows df))))
    (Quality.score_country clock df)) as HF.
  specialize (HF (fun c k => ltac:(
    unfold Quality.score_country, bind;
    destruct (Quality.calculate_timeliness clock _ _ k) as [t k1];
    reflexivity))).
  specialize (HF (unique (map country_code (rows df))) 0%nat).
  destruct (mapM _ _ 0%nat) as [rs k]. cbn [fst ret] in *.
  rewrite map_map. cbn [Quality.add_recommendations Quality.record].
  apply Forall2_map_both. exact HF.
Qed.

(** ** Timeliness *)

Lemma max0_positive (x : Q) : 0 < x -> Quality.max0 (Some x) = Some x.
Proof.
  intros Hx. unfold Quality.max0, fgt, flt, num, Qlt_bool.
  rewrite (Qle_bool_false x 0 Hx). reflexivity.
Qed.

Lemma max0_nonpositive (x : Q) : x <= 0 -> Quality.max0 (Some x) = Some 0.
Proof.
  intros Hx. unfold Quality.max0, fgt, flt, num, Qlt_bool.
  rewrite (proj2 (Qle_bool_iff x 0) Hx). reflexivity.
Qed.

(** X11: the timeliness score as a function of the number of days since the
    latest reference date: 100 up to 90 days (also for a latest date in the
    future), then falling by one point every three days, 100 - (d - 90)/3, and
    0 from 390 days on; it is always a number between 0 and 100. *)
Theorem X11_timeliness_of_days :
  forall d : Z,
    exists s : Q,
      Quality.timeliness_of_days d = Some s
      /\ 0 <= s <= 100
      /\ ((d <= 90)%Z -> s == 100)
      /\ ((90 <= d <= 390)%Z -> s == 100 - (inject_Z d - 90) / 3)
      /\ ((390 <= d)%Z -> s == 0).
Proof.
  intros d. unfold Quality.timeliness_of_days, Quality.TIMELINESS_THRESHOLD_DAYS.
  destruct (Z.leb_spec d 90) as [Hle|Hgt].
  - exists 100. split; [reflexivity|]. split; [lra|].
    split; [reflexivity|]. split.
    + intros Hr. assert (d = 90%Z) as -> by lia. reflexivity.
    + intros Hr. lia.
  - cbv zeta. unfold num.
    rewrite fdiv_Some by (unfold Qeq; simpl; lia).
    cbn [fmul fsub lift2].
    set (x := Qred (100 - Qred (Qred (inject_Z (d - 90) / 30) * 10))).
    assert (x == 100 - (inject_Z d - 90) / 3) as Hx.
    { unfold x. rewrite !Qred_correct.
      unfold Zminus. rewrite inject_Z_plus. change (inject_Z (- (90))) with (-90).
      field. }
    clearbody x.
    assert (90 < inject_Z d) as Hd.
    { change 90 with (inject_Z 90). rewrite <- Zlt_Qlt. exact Hgt. }
    destruct (Z.lt_ge_cases d 390) as [Hlt|Hge].
    + assert (inject_Z d < 390) as Hd'.
      { change 390 with (inject_Z 390). rewrite <- Zlt_Qlt. exact Hlt. }
      assert (0 < x /\ x <= 100) as [Hx0 Hx1].
      { revert Hx Hd Hd'. generalize (inject_Z d). intros q Hx Hd Hd'.
        assert ((q - 90) / 3 == (q - 90) * (1 # 3)) as E by field.
        rewrite E in Hx. lra. }
      exists x. rewrite max0_positive by exact Hx0. split; [reflexivity|].
      split; [lra|]. split; [lia|]. split; [intros _; exact Hx|lia].
    + assert (390 <= inject_Z d) as Hd'.
      { change 390 with (inject_Z 390). rewrite <- Zle_Qle. exact Hge. }
      assert (x <= 0) as Hx0.
      { revert Hx Hd Hd'. generalize (inject_Z d). intros q Hx Hd Hd'.
        assert ((q - 90) / 3 == (q - 90) * (1 # 3)) as E by field.
        rewrite E in Hx. lra. }
      exists 0. rewrite max0_nonpositive by exact Hx0. split; [reflexivity|].
      split; [lra|]. split; [lia|]. split; [|reflexivity].
      intros Hr. assert (d = 390%Z) as -> by lia. reflexivity.
Qed.

(** ** Consistency *)

Lemma repeated_steps (v : Q) (t : list Q) :
  Forall (fun x => x == v) t ->
  forall prev, prev == v ->
  length (filter (fun d => feq d (num 0)) (diff_from (Some prev) (map num t)))
  = length t.
Proof.
  induction 1 as [|x t Hx _ IH]; intros prev Hp; [reflexivity|].
  cbn [map diff_from filter]. unfold num at 1. cbn [fsub lift2 feq num].
  assert (Qeq_bool (Qred (x - prev)) 0 = true) as ->.
  { apply Qeq_bool_iff. rewrite Qred_correct, Hx, Hp. ring. }
  cbn [length]. f_equal. apply IH, Hx.
Qed.

Lemma changing_steps (t : list Q) :
  forall prev, changes_every_step prev t ->
  filter (fun d => feq d (num 0)) (diff_from (Some prev) (map num t)) = [].
Proof.
  induction t as [|x t IH]; intros prev Hc; [reflexivity|].
  destruct Hc as [Hx Ht].
  cbn [map diff_from filter]. unfold num at 1. cbn [fsub lift2 feq num].
  assert (Qeq_bool (Qred (x - prev)) 0 = false) as ->.
  { apply Qeq_bool_false. rewrite Qred_correct. intros E. apply Hx. lra. }
  apply IH, Ht.
Qed.

Lemma consecutive_same_cons (x : Q) (t : list Q) :
  Quality.consecutive_same (x :: t)
  = length (filter (fun d => feq d (num 0))
              (diff_from (Some x) (map num t))).
Proof. reflexivity. Qed.

(** X12: the consistency score of a series of at least two values that are
    all the same is 0, and the consistency score of a series in which no value
    equals the one before it is 100. *)
Theorem X12_consistency_extremes :
  forall (x : Q) (t : list Q),
    (t <> [] -> Forall (fun y => y == x) t ->
     Quality.consistency_of (x :: t) = Some 0)
    /\ (changes_every_step x t ->
        Quality.consistency_of (x :: t) = Some 100).
Proof.
  intros x t. split.
  - intros Hne Hflat.
    unfold Quality.consistency_of.
    rewrite consecutive_same_cons, (repeated_steps x t Hflat x) by reflexivity.
    unfold of_nat, num.
    assert (0 < Qlen t) as Hpos.
    { apply Qlen_pos. destruct t; [congruence|simpl; lia]. }
    pose proof (Qlen_cons x t) as Hcons.
    rewrite fdiv_Some by (fold (Qlen (x :: t)); lra).
    cbn [fmul fsub lift2]. apply max0_nonpositive.
    rewrite !Qred_correct. fold (Qlen t) (Qlen (x :: t)).
    assert (Qlen t / Qlen (x :: t) * 100 * 2 - 100
            == 100 * (Qlen t - 1) / Qlen (x :: t)) as E.
    { rewrite Hcons. field. lra. }
    assert (0 <= 100 * (Qlen t - 1) / Qlen (x :: t)) as Hge.
    { apply Qle_shift_div_l; [lra|].
      assert (1 <= Qlen t).
      { change 1 with (inject_Z (Z.of_nat 1)). apply Qlen_ge.
        destruct t; [congruence|simpl; lia]. }
      lra. }
    lra.
  - intros Hc.
    unfold Quality.consistency_of.
    rewrite consecutive_same_cons, (changing_steps t x Hc).
    unfold of_nat, num.
    assert (0 < Qlen (x :: t)) as Hpos by (apply Qlen_pos; simpl; lia).
    unfold Qlen in Hpos.
    rewrite fdiv_Some by lra.
    cbn [fmul fsub lift2].
    match goal with
    | |- Quality.max0 (Some ?v) = _ =>
        assert (v = 100) as ->
          by (transitivity (Qred 100);
              [apply Qred_complete; rewrite !Qred_correct;
               change (inject_Z (Z.of_nat (length (@nil float)))) with 0;
               field; lra
              |reflexivity])
    end.
    reflexivity.
Qed.

(* ===================================================================== *)
(** * Further properties: the forecasting methods                         *)
(* ===================================================================== *)

(** X13: the regression forecast has exactly [periods_ahead] entries for
    every series, whichever of its three branches runs, so that the forecast
    loop's [lr_forecasts[i]] is always within the list. *)
Theorem X13_regression_forecast_length :
  forall (series : list float) (periods_ahead : nat),
    length (Forecast.linear_regression_forecast series periods_ahead)
    = periods_ahead.
Proof.
  intros series p. unfold Forecast.linear_regression_forecast.
  destruct (_ <? 3)%nat; [apply repeat_length|].
  cbv zeta. destruct (_ <? 3)%nat; [apply repeat_length|].
  rewrite length_map. apply length_seq.
Qed.

(** ** Exponential smoothing *)





(** ** Holt's method on a line *)






(** ** The regression forecast on a line *)






(* ===================================================================== *)
(** * Further properties: rows in date order                              *)
(* ===================================================================== *)

Lemma insert_by_date_sorted (r : Row) (l : list Row) :
  StronglySorted row_date_le l ->
  StronglySorted row_date_le (insert_by_date r l).
Proof.
  induction 1 as [|h t Ht IH Hh]; simpl.
  - repeat constructor.
  - destruct (date_leb (reference_date r) (reference_date h)) eqn:E.
    + constructor; [constructor; assumption|].
      constructor; [exact E|].
      eapply Forall_impl; [|exact Hh].
      intros x Hx. unfold row_date_le, date_le in *.
      eapply date_leb_trans; eassumption.
    + constructor; [exact IH|].
      apply (Permutation_Forall (insert_by_date_perm r t)).
      constructor; [|exact Hh].
      apply date_leb_total, E.
Qed.

Lemma sort_values_sorted (l : list Row) :
  StronglySorted row_date_le (sort_values l).
Proof.
  induction l as [|r l IH]; simpl; [constructor|].
  apply insert_by_date_sorted, IH.
Qed.

Lemma filter_sorted {A} (R : A -> A -> Prop) (p : A -> bool) (l : list A) :
  StronglySorted R l -> StronglySorted R (filter p l).
Proof.
  induction 1 as [|x l Hl IH Hx]; simpl; [constructor|].
  destruct (p x); [|exact IH].
  constructor; [exact IH|].
  apply Forall_forall. intros y Hy. apply filter_In in Hy as [Hy _].
  rewrite Forall_forall in Hx. apply Hx, Hy.
Qed.

Lemma map_sorted {A B} (R : B -> B -> Prop) (f : A -> B) (l : list A) :
  StronglySorted (fun x y => R (f x) (f y)) l -> StronglySorted R (map f l).
Proof.
  induction 1 as [|x l Hl IH Hx]; simpl; constructor; [exact IH|].
  apply Forall_map. exact Hx.
Qed.

Lemma getitem_Ok {A} (cols : list string) (name : string) (k : result A)
  (a : A) :
  Anomaly.getitem cols name k = Ok a -> k = Ok a.
Proof.
  unfold Anomaly.getitem. destruct (existsb _ cols); [auto|discriminate].
Qed.

Lemma anomaly_model_rows `{Sqrt} (pad : bool) (df : Frame)
  (out : Anomaly.AnomalyFrame) :
  Anomaly.model pad df = Ok out ->
  Anomaly.output_rows out = map Anomaly.finish (Anomaly.scored_rows pad df).
Proof.
  unfold Anomaly.model.
  destruct (unique (map country_code (rows df))); [discriminate|].
  cbv zeta. generalize (Anomaly.scored_columns df). intros cols Hrun.
  apply getitem_Ok in Hrun. apply getitem_Ok in Hrun.
  apply getitem_Ok in Hrun. apply getitem_Ok in Hrun.
  apply getitem_Ok in Hrun. apply getitem_Ok in Hrun.
  cbv zeta in Hrun.
  match type of Hrun with
  | Ok {| Anomaly.output_columns := ?oc; Anomaly.output_rows := _ |} = _ =>
      generalize dependent oc
  end.
  intros oc Hrun. injection Hrun as <-. reflexivity.
Qed.

(** X17: when the anomaly run returns, its rows for a country of the relation
    are the input rows of that country, each once, in ascending order of
    [reference_date]. *)
Theorem X17_anomaly_rows_in_date_order :
  forall (S : Sqrt) (pad : bool) (df : Frame) (out : Anomaly.AnomalyFrame)
         (c : string),
    Anomaly.model pad df = Ok out ->
    In c (map country_code (rows df)) ->
    let sources :=
      map Anomaly.source (anomalies_of_country c (Anomaly.output_rows out)) in
    StronglySorted row_date_le sources
    /\ Permutation sources (of_country c (rows df)).
Proof.
  intros S pad df out c Hrun Hc. cbv zeta.
  assert (map Anomaly.source
            (anomalies_of_country c (Anomaly.output_rows out))
          = sort_values (of_country c (rows df))) as ->.
  { unfold anomalies_of_country.
    rewrite (anomaly_model_rows pad df out Hrun), filter_map_comm.
    cbn [Anomaly.finish Anomaly.source].
    rewrite (scored_rows_of_country pad df c Hc), map_map.
    cbn [Anomaly.finish Anomaly.source]. apply score_country_base. }
  split; [apply sort_values_sorted|].
  symmetry. apply sort_values_perm.
Qed.

(** X17 at [Sample.rising] for MT. *)
Lemma X17_MT_rows_in_date_order :
  exists out,
    Anomaly.model true Sample.rising = Ok out
    /\ StronglySorted row_date_le
         (map Anomaly.source
            (anomalies_of_country "MT" (Anomaly.output_rows out))).
Proof.
  destruct (anomaly_model_ok true Sample.rising) as (out & Hrun & _).
  - discriminate.
  - reflexivity.
  - reflexivity.
  - exists out. split; [exact Hrun|].
    apply (X17_anomaly_rows_in_date_order Sqrt_floor true Sample.rising out
             "MT" Hrun).
    vm_compute. tauto.
Defined.

(** ** The last observation *)

Lemma last_default {A} (l : list A) (d d' : A) :
  l <> [] -> last l d = last l d'.
Proof.
  induction l as [|x l IH]; [congruence|]. intros _.
  destruct l as [|y l]; [reflexivity|].
  change (last (y :: l) d = last (y :: l) d'). apply IH. discriminate.
Qed.

Lemma fold_date_max_sorted (t : list date) :
  forall d,
    StronglySorted date_le (d :: t) ->
    fold_left date_max t d = last (d :: t) d.
Proof.
  induction t as [|h t IH]; intros d Hs; [reflexivity|].
  inversion Hs as [|? ? Hs' Hd]; subst.
  inversion Hd as [|? ? Hdh _]; subst.
  cbn [fold_left]. unfold date_max at 2. unfold date_le in Hdh. rewrite Hdh.
  rewrite (IH h Hs').
  change (last (d :: h :: t) d) with (last (h :: t) d).
  apply last_default. discriminate.
Qed.

Lemma last_map_nonempty {A B} (f : A -> B) (l : list A) (d : B) (d0 : A) :
  l <> [] -> last (map f l) d = f (last l d0).
Proof.
  induction l as [|x l IH]; [congruence|]. intros _.
  destruct l as [|y l]; [reflexivity|].
  change (last (map f (y :: l)) d = f (last (y :: l) d0)).
  apply IH. discriminate.
Qed.

Lemma last_In {A} (l : list A) (d : A) : l <> [] -> In (last l d) l.
Proof.
  induction l as [|x l IH]; [congruence|]. intros _.
  destruct l as [|y l]; [left; reflexivity|].
  right. change (In (last (y :: l) d) (y :: l)). apply IH. discriminate.
Qed.

Lemma sorted_last_max (l : list Row) (d : Row) :
  StronglySorted row_date_le l ->
  forall r', In r' l -> row_date_le r' (last l d).
Proof.
  induction 1 as [|x l Hl IH Hx]; intros r' Hin'; [destruct Hin'|].
  destruct l as [|y l].
  - destruct Hin' as [<-|[]]. apply date_leb_refl.
  - change (last (x :: y :: l) d) with (last (y :: l) d).
    destruct Hin' as [<-|Hin'].
    + rewrite Forall_forall in Hx. apply Hx, last_In. discriminate.
    + apply IH, Hin'.
Qed.

Lemma unemployment_series_rows (monthly_df : list Row) (c : string) :
  Forecast.unemployment_series monthly_df c
  = map (fun r => (reference_date r, unemployment_rate_pct r))
        (filter (fun r => negb (isnan (unemployment_rate_pct r)))
                (sort_values (of_country c monthly_df))).
Proof.
  unfold Forecast.unemployment_series, dropna_series.
  rewrite filter_map_comm. reflexivity.
Qed.

(** X18: in every forecast row, [last_actual_value] is the unemployment rate
    of an input row of the country with a non-missing rate whose reference
    date is [last_actual_date], and no such row of the country has a later
    date. *)
Theorem X18_last_actual_value_on_last_actual_date :
  forall (S : Sqrt) (clock : nat -> datetime) (df : Frame)
         (out : list Forecast.Forecast) (f : Forecast.Forecast),
    run (Forecast.model clock df) = Ok out ->
    In f out ->
    let c := Forecast.country_code (Forecast.record f) in
    exists r,
      In r (observed df c)
      /\ reference_date r = Forecast.last_actual_date (Forecast.record f)
      /\ unemployment_rate_pct r
         = Forecast.last_actual_value (Forecast.record f)
      /\ forall r', In r' (observed df c) -> row_date_le r' r.
Proof.
  intros S clock df out f Hrun Hin. cbv zeta.
  destruct (forecast_model_row clock df out f Hrun Hin)
    as (Hge & i & t & _ & Ef).
  remember (Forecast.country_code (Forecast.record f)) as c eqn:Ec.
  rewrite <- unemployment_series_length in Hge.
  rewrite Ef. cbn [Forecast.record Forecast.add_uncertainty].
  unfold forecast_of, Forecast.forecast_dict.
  cbn [Forecast.last_actual_date Forecast.last_actual_value].
  rewrite unemployment_series_rows in *.
  set (rs := filter (fun r => negb (isnan (unemployment_rate_pct r)))
               (sort_values (of_country c (rows df)))) in *.
  assert (StronglySorted row_date_le rs) as Hsorted
    by (apply filter_sorted, sort_values_sorted).
  assert (Permutation rs (observed df c)) as Hperm.
  { unfold rs, observed. apply filter_perm. symmetry. apply sort_values_perm. }
  rewrite length_map in Hge.
  destruct rs as [|r0 rs'] eqn:Ers; [simpl in Hge; lia|].
  exists (last (r0 :: rs') r0).
  assert (In (last (r0 :: rs') r0) (r0 :: rs')) as Hlast
    by (apply last_In; discriminate).
  split; [eapply Permutation_in; eassumption|].
  unfold index, values. rewrite !map_map. cbn [fst snd].
  split; [|split].
  - unfold index_max. cbn [map]. symmetry.
    change (map (fun x : Row => reference_date x) rs')
      with (map reference_date rs').
    rewrite fold_date_max_sorted.
    + change (reference_date r0 :: map reference_date rs')
        with (map reference_date (r0 :: rs')).
      apply (last_map_nonempty reference_date). discriminate.
    + change (reference_date r0 :: map reference_date rs')
        with (map reference_date (r0 :: rs')).
      apply map_sorted. exact Hsorted.
  - symmetry. apply (last_map_nonempty unemployment_rate_pct). discriminate.
  - intros r' Hr'.
    assert (In r' (r0 :: rs')) as Hin'
      by (eapply Permutation_in; [symmetry; exact Hperm|exact Hr']).
    apply sorted_last_max; assumption.
Qed.

(** X18 at [Sample.rising]: the first forecast row carries the rate of
    December 2021. *)
Lemma X18_first_row_of_rising :
  exists f r,
    In f (match run (Forecast.model Sample.clock_january Sample.rising) with
          | Ok out => out
          | _ => []
          end)
    /\ reference_date r = Forecast.last_actual_date (Forecast.record f)
    /\ unemployment_rate_pct r = Forecast.last_actual_value (Forecast.record f).
Proof.
  destruct (run (Forecast.model Sample.clock_january Sample.rising))
    as [out| |] eqn:Hrun; [|vm_compute in Hrun; discriminate Hrun ..].
  destruct out as [|f out]; [vm_compute in Hrun; discriminate Hrun|].
  destruct (X18_last_actual_value_on_last_actual_date Sqrt_floor
              Sample.clock_january Sample.rising (f :: out) f Hrun
              (or_introl eq_refl))
    as (r & _ & Hd & Hv & _).
  exists f, r. split; [left; reflexivity|]. auto.
Defined.

(* ===================================================================== *)
(** * Further properties: sizes and edges of the three relations          *)
(* ===================================================================== *)

Lemma concat_group_length {B} (P : string -> bool) (cs : list string)
  (per : list (list B)) :
  Forall2 (fun c fs => length fs = if P c then 6%nat else 0%nat) cs per ->
  length (concat per) = (6 * length (filter P cs))%nat.
Proof.
  induction 1 as [|c fs cs per Hc _ IH]; [reflexivity|].
  cbn [concat filter]. rewrite length_app, Hc, IH.
  destruct (P c); simpl; lia.
Qed.

(** X19: the forecast relation has six rows for each distinct country with at
    least 24 non-missing unemployment observations and no other row. *)
Theorem X19_forecast_row_count :
  forall (S : Sqrt) (clock : nat -> datetime) (df : Frame)
         (out : list Forecast.Forecast),
    run (Forecast.model clock df) = Ok out ->
    length out
    = (6 * length
             (filter (fun c =>
                        (24 <=? length (non_missing unemployment_rate_pct df c))%nat)
                     (unique (map country_code (rows df)))))%nat.
Proof.
  intros S clock df out Hrun.
  unfold run, Forecast.model in Hrun.
  destruct (unique (map country_code (rows df))) as [|c0 cs] eqn:Eu.
  { injection Hrun as <-. reflexivity. }
  destruct (has_column df "unemployment_rate_pct"); [|discriminate].
  unfold bind in Hrun.
  pose proof (forecast_groups clock (rows df) (c0 :: cs) 0%nat) as HF.
  destruct (mapM (Forecast.country_forecasts clock (rows df)) (c0 :: cs) 0%nat)
    as [per k]. cbn [fst ret] in *. injection Hrun as <-.
  rewrite concat_map. apply concat_group_length.
  eapply Forall2_impl; [|exact HF].
  intros c fs [_ [Hshort Hlong]]. cbv beta.
  rewrite <- unemployment_series_length.
  destruct (Nat.leb_spec 24 (length (Forecast.unemployment_series (rows df) c)))
    as [Hge|Hlt].
  - rewrite <- (Forall2_length_eq _ _ _ (Hlong Hge)). reflexivity.
  - rewrite (Hshort Hlt). reflexivity.
Qed.

(** X19 at [Sample.rising]: DE is eligible, MT is not; six rows. *)
Lemma X19_rising_has_six_rows :
  exists out,
    run (Forecast.model Sample.clock_january Sample.rising) = Ok out
    /\ length out = 6%nat.
Proof.
  destruct (run (Forecast.model Sample.clock_january Sample.rising))
    as [out| |] eqn:Hrun; [|vm_compute in Hrun; discriminate Hrun ..].
  exists out. split; [reflexivity|].
  rewrite (X19_forecast_row_count Sqrt_floor Sample.clock_january
             Sample.rising out Hrun).
  vm_compute. reflexivity.
Defined.

(** X20: on a relation without rows, the forecast run returns no row, the
    quality run returns no row, and the anomaly run raises [ValueError]:
    [pd.concat] is given an empty list of frames. *)
Theorem X20_empty_relation :
  forall (S : Sqrt) (clock : nat -> datetime) (pad : bool) (df : Frame),
    rows df = [] ->
    run (Forecast.model clock df) = Ok []
    /\ run (Quality.model clock df) = []
    /\ Anomaly.model pad df = ValueError "No objects to concatenate".
Proof.
  intros S clock pad df Hrows.
  unfold run, Forecast.model, Quality.model, Anomaly.model.
  rewrite Hrows. repeat split.
Qed.

(** X20 at the relation of the contract's columns and no rows. *)
Lemma X20_empty_contract_relation :
  Anomaly.model true (mkFrame Sample.contract_columns [])
  = ValueError "No objects to concatenate".
Proof.
  apply (X20_empty_relation Sqrt_floor Sample.clock_january true
           (mkFrame Sample.contract_columns []) eq_refl).
Defined.

(** ** Severity *)

Lemma clip_nonneg (x hi : Q) :
  0 <= x -> 0 <= hi ->
  Anomaly.clip x 0 hi == Qmin x hi /\ 0 <= Anomaly.clip x 0 hi <= hi.
Proof.
  intros Hx Hhi. unfold Anomaly.clip.
  assert (Qmax x 0 == x) as -> by (apply Q.max_l; exact Hx).
  destruct (Q.min_spec x hi) as [[Hlt E]|[Hle E]]; rewrite E; split; lra.
Qed.

Lemma fillna_abs_nonneg (z : float) : 0 <= Anomaly.fillna (fabs z) 0.
Proof.
  destruct z as [q|]; simpl; [apply Qabs_nonneg|lra].
Qed.

(** X21: when the anomaly run returns, the severity score of every row is
    10 * min(|z_unemployment|, 5) + 10 * min(|z_inflation|, 5), a missing
    z-score counting as 0, and lies between 0 and 100: the outer clip to
    [0, 100] never changes the sum. *)
Theorem X21_severity_score :
  forall (S : Sqrt) (pad : bool) (df : Frame) (out : Anomaly.AnomalyFrame)
         (a : Anomaly.AnomalyRecord),
    Anomaly.model pad df = Ok out ->
    In a (Anomaly.output_rows out) ->
    Anomaly.anomaly_severity_score a
    == 10 * Qmin (Anomaly.fillna (fabs (Anomaly.z_unemployment a)) 0) 5
       + 10 * Qmin (Anomaly.fillna (fabs (Anomaly.z_inflation a)) 0) 5
    /\ 0 <= Anomaly.anomaly_severity_score a <= 100.
Proof.
  intros S pad df out a Hrun Hin.
  rewrite (anomaly_model_rows pad df out Hrun) in Hin.
  apply in_map_iff in Hin as (s & <- & _).
  cbn [Anomaly.finish Anomaly.anomaly_severity_score Anomaly.z_unemployment
       Anomaly.z_inflation].
  unfold Anomaly.severity.
  destruct (clip_nonneg
              (Anomaly.fillna (fabs (Anomaly.unemployment_z_score s)) 0) 5)
    as [Eu Hu]; [apply fillna_abs_nonneg|lra|].
  destruct (clip_nonneg
              (Anomaly.fillna (fabs (Anomaly.inflation_z_score s)) 0) 5)
    as [Ei Hi]; [apply fillna_abs_nonneg|lra|].
  set (u := Anomaly.clip
              (Anomaly.fillna (fabs (Anomaly.unemployment_z_score s)) 0) 0 5) in *.
  set (i := Anomaly.clip
              (Anomaly.fillna (fabs (Anomaly.inflation_z_score s)) 0) 0 5) in *.
  destruct (clip_nonneg (Qred (u * 10 + i * 10)) 100) as [Eo Ho];
    [rewrite Qred_correct; lra|lra|].
  split; [|exact Ho].
  rewrite Eo.
  destruct (Q.min_spec (Qred (u * 10 + i * 10)) 100) as [[_ ->]|[Hle ->]].
  - rewrite Qred_correct, <- Eu, <- Ei. ring.
  - rewrite Qred_correct in Hle. rewrite <- Eu, <- Ei. lra.
Qed.

(** X21 at [Sample.rising]. *)
Lemma X21_rising_first_row :
  exists out a,
    Anomaly.model true Sample.rising = Ok out
    /\ In a (Anomaly.output_rows out)
    /\ 0 <= Anomaly.anomaly_severity_score a <= 100.
Proof.
  destruct (anomaly_model_ok true Sample.rising) as (out & Hrun & Hrows).
  - discriminate.
  - reflexivity.
  - reflexivity.
  - destruct (Anomaly.output_rows out) as [|a l] eqn:E.
    + exfalso. apply (f_equal (@length _)) in Hrows.
      rewrite length_map in Hrows. vm_compute in Hrows. discriminate Hrows.
    + exists out, a. split; [exact Hrun|]. rewrite E.
      split; [left; reflexivity|].
      apply (X21_severity_score Sqrt_floor true Sample.rising out a Hrun).
      rewrite E. left. reflexivity.
Defined.

(** ** The earliest row of a country *)

Lemma score_country_unfold `{Sqrt} (pad : bool) (df : Frame) (c : string) :
  Anomaly.score_country pad df c
  = (let '(uz, ui, ur) := columns_of_indicator pad df c Unemployment in
     let '(iz, ii, ir) := columns_of_indicator pad df c Inflation in
     Anomaly.mapi
       (fun i r =>
          {| Anomaly.base := r;
             Anomaly.unemployment_z_score := nth i uz NaN;
             Anomaly.unemployment_iqr_outlier := nth i ui false;
             Anomaly.unemployment_roc_anomaly := nth i ur false;
             Anomaly.inflation_z_score := nth i iz NaN;
             Anomaly.inflation_iqr_outlier := nth i ii false;
             Anomaly.inflation_roc_anomaly := nth i ir false |})
       (sort_values (of_country c (rows df)))).
Proof. reflexivity. Qed.

Lemma first_rate_of_change `{Sqrt} (pad : bool) (series : list float) :
  nth 0 (snd (Anomaly.indicator_columns pad series)) false = false.
Proof.
  unfold Anomaly.indicator_columns.
  destruct (_ <? _)%nat; cbn [snd]; [|apply nth_map_const].
  unfold Anomaly.detect_rate_of_change_anomalies, Anomaly.pct_change_abs.
  destruct series as [|x t]; [destruct pad; reflexivity|].
  destruct pad; reflexivity.
Qed.

(** X22: the first row the anomaly loop builds for a country is one of the
    country's rows with the earliest reference date, and its rate-of-change
    flag is false for both indicators: it has no value before it. *)
Theorem X22_earliest_row_has_no_rate_of_change_flag :
  forall (S : Sqrt) (pad : bool) (df : Frame) (c : string)
         (s : Anomaly.Scored) (rest : list Anomaly.Scored) (ind : indicator),
    Anomaly.score_country pad df c = s :: rest ->
    roc_anomaly_of ind s = false
    /\ In (Anomaly.base s) (of_country c (rows df))
    /\ forall r, In r (of_country c (rows df)) ->
                 row_date_le (Anomaly.base s) r.
Proof.
  intros S pad df c s rest ind Hs.
  pose proof (score_country_base pad df c) as Hbase.
  rewrite Hs in Hbase. cbn [map] in Hbase.
  pose proof (sort_values_sorted (of_country c (rows df))) as Hsorted.
  pose proof (sort_values_perm (of_country c (rows df))) as Hperm.
  rewrite <- Hbase in Hsorted, Hperm.
  split; [|split].
  - rewrite score_country_unfold in Hs.
    pose proof (eq_refl : columns_of_indicator pad df c Unemployment = _) as Eu.
    pose proof (eq_refl : columns_of_indicator pad df c Inflation = _) as Ei.
    unfold columns_of_indicator at 2 in Eu.
    unfold columns_of_indicator at 2 in Ei.
    destruct (columns_of_indicator pad df c Unemployment) as [[uz ui] ur].
    destruct (columns_of_indicator pad df c Inflation) as [[iz ii] ir].
    destruct (sort_values (of_country c (rows df))) as [|r0 l]; [discriminate|].
    unfold Anomaly.mapi in Hs. cbn [Anomaly.mapi_from] in Hs.
    injection Hs as <- _.
    destruct ind; cbn [roc_anomaly_of Anomaly.unemployment_roc_anomaly
                         Anomaly.inflation_roc_anomaly].
    + apply (f_equal snd) in Eu. cbn [snd] in Eu. rewrite Eu.
      destruct (has_column df (column_name Unemployment));
        [apply first_rate_of_change|reflexivity].
    + apply (f_equal snd) in Ei. cbn [snd] in Ei. rewrite Ei.
      destruct (has_column df (column_name Inflation));
        [apply first_rate_of_change|reflexivity].
  - eapply Permutation_in; [symmetry; exact Hperm|left; reflexivity].
  - intros r Hr.
    assert (In r (Anomaly.base s :: map Anomaly.base rest)) as [<-|Hin]
      by (eapply Permutation_in; eassumption).
    + apply date_leb_refl.
    + inversion Hsorted as [|? ? _ Hall]; subst.
      rewrite Forall_forall in Hall. apply Hall, Hin.
Qed.

(** X22 at [Sample.rising] for MT and the inflation rate. *)
Lemma X22_first_MT_row :
  match Anomaly.score_country true Sample.rising "MT" with
  | s :: _ => Anomaly.inflation_roc_anomaly s = false
  | [] => False
  end.
Proof.
  destruct (Anomaly.score_country true Sample.rising "MT") as [|s rest] eqn:E.
  - vm_compute in E. discriminate E.
  - change (roc_anomaly_of Inflation s = false).
    exact (proj1 (X22_earliest_row_has_no_rate_of_change_flag Sqrt_floor true
                    Sample.rising "MT" s rest Inflation E)).
Defined.

(* ===================================================================== *)
(** * Further properties: the range of the quality scores                 *)
(* ===================================================================== *)

Lemma Qlen_filter_le {A} (p : A -> bool) (l : list A) :
  0 <= Qlen (filter p l) <= Qlen l.
Proof.
  unfold Qlen. pose proof (filter_length_le p l).
  split; [change 0 with (inject_Z 0)|]; rewrite <- Zle_Qle; lia.
Qed.

Lemma bool_mean_percent (l : list bool) :
  l <> [] -> percent (Quality.bool_mean l * num 100)%F.
Proof.
  intros Hne. unfold Quality.bool_mean, num.
  assert (0 < Qlen l) as Hpos
    by (apply Qlen_pos; destruct l; [congruence|simpl; lia]).
  rewrite fdiv_Some by lra. cbn [fmul lift2].
  eexists. split; [reflexivity|].
  pose proof (Qlen_filter_le (fun b : bool => b) l) as [Hlo Hhi].
  rewrite !Qred_correct.
  assert (0 <= Qlen (filter (fun b : bool => b) l) / Qlen l <= 1) as [H0 H1].
  { split; [apply Qle_shift_div_l|apply Qle_shift_div_r]; lra. }
  lra.
Qed.

Lemma fsum_percent (l : list float) :
  Forall percent l ->
  exists t, fsum l = Some t /\ 0 <= t <= 100 * Qlen l.
Proof.
  induction 1 as [|a l (s & -> & Hs) _ (t & Ht & Hb)].
  - exists 0. split; [reflexivity|].
    change (Qlen (@nil float)) with 0. lra.
  - unfold fsum in *. cbn [fold_right]. rewrite Ht. cbn [fadd lift2].
    eexists. split; [reflexivity|].
    rewrite Qred_correct, Qlen_cons. lra.
Qed.

Lemma np_mean_percent (l : list float) :
  l <> [] -> Forall percent l -> percent (Quality.np_mean l).
Proof.
  intros Hne Hl. unfold Quality.np_mean, num.
  destruct (fsum_percent l Hl) as (t & -> & Ht).
  assert (0 < Qlen l) as Hpos
    by (apply Qlen_pos; destruct l; [congruence|simpl; lia]).
  rewrite fdiv_Some by lra.
  eexists. split; [reflexivity|]. rewrite Qred_correct.
  split; [apply Qle_shift_div_l|apply Qle_shift_div_r]; lra.
Qed.

Lemma percent_0 : percent (num 0).
Proof. exists 0. split; [reflexivity|lra]. Qed.

Lemma percent_100 : percent (num 100).
Proof. exists 100. split; [reflexivity|lra]. Qed.

Lemma completeness_percent (df : Frame) :
  rows df <> [] ->
  percent (Quality.get
             (Quality.calculate_completeness df
                ["unemployment_rate_pct"; "inflation_rate_mom_pct"]%string)
             "overall_completeness" (num 0)).
Proof.
  intros Hne.
  assert (forall col, percent
            (Quality.bool_mean
               (map (fun r => negb (isnan (Quality.column_of col r))) (rows df))
             * num 100)%F) as Hcol.
  { intros col. apply bool_mean_percent.
    destruct (rows df); [congruence|discriminate]. }
  unfold Quality.calculate_completeness. cbn [fold_left].
  destruct (has_column df "unemployment_rate_pct");
    destruct (has_column df "inflation_rate_mom_pct");
    cbn [app Quality.get String.eqb Ascii.eqb Bool.eqb fst snd
         Quality.dict_values map String.append];
    try apply percent_0;
    apply np_mean_percent; try discriminate; repeat constructor; apply Hcol.
Qed.

Lemma max0_percent (x : Q) : x <= 100 -> percent (Quality.max0 (Some x)).
Proof.
  intros Hx. destruct (Qlt_le_dec 0 x) as [Hpos|Hneg].
  - rewrite max0_positive by exact Hpos. exists x. split; [reflexivity|lra].
  - rewrite max0_nonpositive by exact Hneg. exists 0. split; [reflexivity|lra].
Qed.

Lemma timeliness_of_days_percent (d : Z) :
  percent (Quality.timeliness_of_days d).
Proof.
  unfold Quality.timeliness_of_days, Quality.TIMELINESS_THRESHOLD_DAYS.
  destruct (Z.leb_spec d 90) as [Hle|Hgt]; [apply percent_100|].
  cbv zeta. unfold num.
  rewrite fdiv_Some by (unfold Qeq; simpl; lia).
  cbn [fmul fsub lift2]. apply max0_percent.
  rewrite !Qred_correct.
  assert (0 < inject_Z (d - 90)) as Hd.
  { change 0 with (inject_Z 0). rewrite <- Zlt_Qlt. lia. }
  revert Hd. generalize (inject_Z (d - 90)). intros q Hq.
  assert (q / 30 == q * (1 # 30)) as -> by field. lra.
Qed.

Lemma consistency_of_percent (series : list Q) :
  series <> [] -> percent (Quality.consistency_of series).
Proof.
  intros Hne. unfold Quality.consistency_of, of_nat, num.
  assert (0 < Qlen series) as Hpos
    by (apply Qlen_pos; destruct series; [congruence|simpl; lia]).
  fold (Qlen series).
  rewrite fdiv_Some by lra.
  cbn [fmul fsub lift2]. apply max0_percent.
  rewrite !Qred_correct.
  assert (0 <= inject_Z (Z.of_nat (Quality.consecutive_same series))) as Hn.
  { change 0 with (inject_Z 0). rewrite <- Zle_Qle. lia. }
  revert Hn. generalize (inject_Z (Z.of_nat (Quality.consecutive_same series))).
  intros n Hn.
  assert (0 <= n / Qlen series) by (apply Qle_shift_div_l; lra).
  lra.
Qed.

Lemma nonempty_of_ltb {A} (n : nat) (l : list A) :
  (n <? length l)%nat = true -> l <> [].
Proof. intros H ->. apply Nat.ltb_lt in H. simpl in H. lia. Qed.

Lemma validity_percent (df : Frame) :
  percent (Quality.get (Quality.calculate_validity df)
             "overall_validity" (num 0)).
Proof.
  assert (forall lo hi (l : list Q),
            (0 <? length l)%nat = true ->
            percent (Quality.bool_mean (map (Quality.in_range lo hi) l)
                     * num 100)%F) as Hcol.
  { intros lo hi l Hl. apply bool_mean_percent.
    apply nonempty_of_ltb in Hl. destruct l; [congruence|discriminate]. }
  unfold Quality.calculate_validity. cbv zeta.
  destruct (has_column df "unemployment_rate_pct");
    destruct (has_column df "inflation_rate_mom_pct");
    try destruct (0 <? length (dropna (map unemployment_rate_pct (rows df))))%nat
      eqn:Hu;
    try destruct (0 <? length (dropna (map inflation_rate_mom_pct (rows df))))%nat
      eqn:Hi;
    cbn [app Quality.get String.eqb Ascii.eqb Bool.eqb fst snd
         Quality.dict_values map];
    try apply percent_100;
    apply np_mean_percent; try discriminate; repeat constructor;
    apply Hcol; assumption.
Qed.

Lemma consistency_percent (df : Frame) :
  percent (Quality.get (Quality.calculate_consistency df)
             "overall_consistency" (num 0)).
Proof.
  assert (forall l : list Q,
            (10 <? length l)%nat = true ->
            percent (Quality.consistency_of l)) as Hcol.
  { intros l Hl. apply consistency_of_percent.
    apply nonempty_of_ltb in Hl. exact Hl. }
  unfold Quality.calculate_consistency. cbv zeta.
  destruct (has_column df "unemployment_rate_pct");
    destruct (has_column df "inflation_rate_mom_pct");
    try destruct (10 <? length (dropna (map unemployment_rate_pct (rows df))))%nat
      eqn:Hu;
    try destruct (10 <? length (dropna (map inflation_rate_mom_pct (rows df))))%nat
      eqn:Hi;
    cbn [app Quality.get String.eqb Ascii.eqb Bool.eqb fst snd
         Quality.dict_values map];
    try apply percent_100;
    apply np_mean_percent; try discriminate; repeat constructor;
    apply Hcol; assumption.
Qed.

Lemma calculate_timeliness_percent (clock : nat -> datetime) (df : Frame)
  (date_col : string) (k : nat) :
  percent (Quality.t_timeliness_score
             (fst (Quality.calculate_timeliness clock df date_col k))).
Proof.
  unfold Quality.calculate_timeliness.
  destruct (negb (has_column df date_col)); [apply percent_0|].
  destruct (map reference_date (rows df)) as [|d t]; [apply percent_0|].
  unfold bind, datetime_now, ret. cbn [fst Quality.t_timeliness_score].
  apply timeliness_of_days_percent.
Qed.

Lemma overall_of_bounds (a b c d : Q) :
  exists s,
    Quality.overall_of (Some a) (Some b) (Some c) (Some d) = Some s
    /\ s == (30 # 100) * a + (25 # 100) * b + (25 # 100) * c + (20 # 100) * d.
Proof.
  unfold Quality.overall_of, num. cbn [fmul fadd lift2].
  eexists. split; [reflexivity|]. rewrite !Qred_correct. reflexivity.
Qed.

Lemma Forall2_pick {A B} (R : A -> B -> Prop) (l : list A) (l' : list B) (y : B) :
  Forall2 R l l' -> In y l' -> exists x, In x l /\ R x y.
Proof.
  induction 1 as [|a b l l' Hab _ IH]; intros Hin; [destruct Hin|].
  destruct Hin as [<-|Hin].
  - exists a. split; [left; reflexivity|exact Hab].
  - destruct (IH Hin) as (x & Hx & HR). exists x. split; [right|]; assumption.
Qed.

Lemma of_country_nonempty (c : string) (rs : list Row) :
  In c (map country_code rs) -> of_country c rs <> [].
Proof.
  intros Hin. apply in_map_iff in Hin as (r & Hc & Hr).
  assert (In r (of_country c rs)) as H.
  { unfold of_country. apply filter_In. split; [exact Hr|].
    apply String.eqb_eq, Hc. }
  intros E. rewrite E in H. destruct H.
Qed.

(** Every row of the quality relation is the record of a country with at
    least one input row, built from a timeliness score between 0 and 100. *)
Lemma quality_model_row (clock : nat -> datetime) (df : Frame) (q : Quality.Quality) :
  In q (run (Quality.model clock df)) ->
  exists (country_data : Frame) (c : string) (tl : Quality.Timeliness)
         (now : datetime),
    rows country_data <> []
    /\ percent (Quality.t_timeliness_score tl)
    /\ q = Quality.add_recommendations
             (Quality.quality_dict country_data c tl now).
Proof.
  unfold run, Quality.model, bind. intros Hin.
  pose proof (mapM_Forall2
    (fun c r =>
       In c (map country_code (rows df)) ->
       exists country_data tl now,
         rows country_data <> []
         /\ percent (Quality.t_timeliness_score tl)
         /\ r = Quality.quality_dict country_data c tl now)
    (Quality.score_country clock df)) as HF.
  specialize (HF (fun c k => ltac:(
    intros Hc; unfold Quality.score_country, bind;
    pose proof (calculate_timeliness_percent clock
                  {| columns := columns df;
                     rows := of_country c (rows df) |}
                  "reference_date" k) as Ht;
    destruct (Quality.calculate_timeliness clock _ _ k) as [t k1];
    cbn [fst] in Ht;
    unfold datetime_now, ret; cbn [fst];
    eexists _, t, _; split; [|split; [exact Ht|reflexivity]];
    cbn [rows]; apply of_country_nonempty, Hc))).
  specialize (HF (unique (map country_code (rows df))) 0%nat).
  destruct (mapM _ _ 0%nat) as [rs k]. cbn [fst ret] in *.
  apply in_map_iff in Hin as (r & <- & Hr).
  destruct (Forall2_pick _ _ _ _ HF Hr) as (c & Hc & HR).
  apply (proj1 (unique_In _ _)) in Hc.
  destruct (HR Hc) as (cd & tl & now & Hne & Ht & ->).
  exists cd, c, tl, now. auto.
Qed.

(** The scores of a record built by [quality_dict]. *)
Lemma quality_dict_scores (country_data : Frame) (country : string)
  (tl : Quality.Timeliness) (now : datetime) :
  rows country_data <> [] ->
  percent (Quality.t_timeliness_score tl) ->
  exists c t v k s : Q,
    let r := Quality.quality_dict country_data country tl now in
    Quality.completeness_score r = Some c
    /\ Quality.timeliness_score r = Some t
    /\ Quality.validity_score r = Some v
    /\ Quality.consistency_score r = Some k
    /\ Quality.overall_quality_score r = Some s
    /\ Quality.quality_grade r = Quality.grade_of (Some s)
    /\ 0 <= c <= 100 /\ 0 <= t <= 100 /\ 0 <= v <= 100 /\ 0 <= k <= 100
    /\ s == (30 # 100) * c + (25 # 100) * t + (25 # 100) * v + (20 # 100) * k.
Proof.
  intros Hne (t & Et & Ht).
  destruct (completeness_percent country_data Hne) as (c & Ec & Hc).
  destruct (validity_percent country_data) as (v & Ev & Hv).
  destruct (consistency_percent country_data) as (k & Ek & Hk).
  destruct (overall_of_bounds c t v k) as (s & Es & Hs).
  exists c, t, v, k, s.
  unfold Quality.quality_dict.
  cbn [Quality.completeness_score Quality.timeliness_score
       Quality.validity_score Quality.consistency_score
       Quality.overall_quality_score Quality.quality_grade].
  rewrite Ec, Et, Ev, Ek, Es. repeat split; try tauto; exact Hs.
Qed.

(** X23: in every row of the quality relation the completeness, timeliness,
    validity and consistency scores are numbers between 0 and 100, never
    missing, and the overall score is their weighted sum with the weights
    0.30, 0.25, 0.25 and 0.20, so that it lies between 0 and 100 as well. *)
Theorem X23_quality_scores_between_0_and_100 :
  forall (clock : nat -> datetime) (df : Frame) (q : Quality.Quality),
    In q (run (Quality.model clock df)) ->
    exists c t v k s : Q,
      Quality.completeness_score (Quality.record q) = Some c
      /\ Quality.timeliness_score (Quality.record q) = Some t
      /\ Quality.validity_score (Quality.record q) = Some v
      /\ Quality.consistency_score (Quality.record q) = Some k
      /\ Quality.overall_quality_score (Quality.record q) = Some s
      /\ 0 <= c <= 100 /\ 0 <= t <= 100 /\ 0 <= v <= 100 /\ 0 <= k <= 100
      /\ s == (30 # 100) * c + (25 # 100) * t + (25 # 100) * v + (20 # 100) * k
      /\ 0 <= s <= 100.
Proof.
  intros clock df q Hin.
  destruct (quality_model_row clock df q Hin)
    as (cd & country & tl & now & Hne & Ht & ->).
  destruct (quality_dict_scores cd country tl now Hne Ht)
    as (c & t & v & k & s & Ec & Et & Ev & Ek & Es & _ & Hc & Ht' & Hv & Hk & Hs).
  exists c, t, v, k, s. cbn [Quality.add_recommendations Quality.record].
  repeat split; try tauto; try assumption; lra.
Qed.

(** X23 at [Sample.stepped], the clock in January 2021. *)
Lemma X23_stepped_row :
  exists q : Quality.Quality,
    In q (run (Quality.model Sample.clock_january Sample.stepped))
    /\ exists c t v k s : Q,
         Quality.completeness_score (Quality.record q) = Some c
         /\ Quality.timeliness_score (Quality.record q) = Some t
         /\ Quality.validity_score (Quality.record q) = Some v
         /\ Quality.consistency_score (Quality.record q) = Some k
         /\ Quality.overall_quality_score (Quality.record q) = Some s
         /\ 0 <= c <= 100 /\ 0 <= t <= 100 /\ 0 <= v <= 100 /\ 0 <= k <= 100
         /\ s == (30 # 100) * c + (25 # 100) * t + (25 # 100) * v
                 + (20 # 100) * k
         /\ 0 <= s <= 100.
Proof.
  destruct (run (Quality.model Sample.clock_january Sample.stepped))
    as [|q l] eqn:E.
  - vm_compute in E. discriminate E.
  - exists q. split; [left; reflexivity|].
    apply (X23_quality_scores_between_0_and_100
             Sample.clock_january Sample.stepped).
    rewrite E. left. reflexivity.
Defined.

(** ** Grades, attention flag and primary issue *)

Lemma grade_of_cases (s : Q) :
  (90 <= s /\ Quality.grade_of (Some s) = "A"%string)
  \/ (80 <= s < 90 /\ Quality.grade_of (Some s) = "B"%string)
  \/ (70 <= s < 80 /\ Quality.grade_of (Some s) = "C"%string)
  \/ (60 <= s < 70 /\ Quality.grade_of (Some s) = "D"%string)
  \/ (s < 60 /\ Quality.grade_of (Some s) = "F"%string).
Proof.
  unfold Quality.grade_of, fge, fle, num.
  destruct (Qle_bool 90 s) eqn:H90.
  { apply Qle_bool_iff in H90. left. split; [exact H90|reflexivity]. }
  destruct (Qle_bool 80 s) eqn:H80.
  { apply Qle_bool_iff in H80.
    right; left. split; [|reflexivity]. split; [exact H80|].
    apply Qnot_le_lt. intros H. apply Qle_bool_iff in H. congruence. }
  destruct (Qle_bool 70 s) eqn:H70.
  { apply Qle_bool_iff in H70.
    right; right; left. split; [|reflexivity]. split; [exact H70|].
    apply Qnot_le_lt. intros H. apply Qle_bool_iff in H. congruence. }
  destruct (Qle_bool 60 s) eqn:H60.
  { apply Qle_bool_iff in H60.
    right; right; right; left. split; [|reflexivity]. split; [exact H60|].
    apply Qnot_le_lt. intros H. apply Qle_bool_iff in H. congruence. }
  right; right; right; right. split; [|reflexivity].
  apply Qnot_le_lt. intros H. apply Qle_bool_iff in H. congruence.
Qed.

Lemma flt_true (x y : Q) : flt (Some x) (Some y) = true <-> x < y.
Proof.
  unfold flt, Qlt_bool. rewrite negb_true_iff. split.
  - intros H. apply Qnot_le_lt. intros Hle. apply Qle_bool_iff in Hle. congruence.
  - intros H. destruct (Qle_bool y x) eqn:E; [|reflexivity].
    apply Qle_bool_iff in E. lra.
Qed.

Lemma flt_false (x y : Q) : flt (Some x) (Some y) = false <-> y <= x.
Proof.
  unfold flt, Qlt_bool. rewrite negb_false_iff. apply Qle_bool_iff.
Qed.

(** X24: in every row of the quality relation, [requires_attention] is set
    exactly when the grade is D or F; and a row whose primary issue is
    [none] has an overall score of 80 or more and the grade A or B. *)
Theorem X24_attention_and_primary_issue_follow_the_grade :
  forall (clock : nat -> datetime) (df : Frame) (q : Quality.Quality),
    In q (run (Quality.model clock df)) ->
    (Quality.requires_attention q = true
     <-> Quality.quality_grade (Quality.record q) = "D"%string
         \/ Quality.quality_grade (Quality.record q) = "F"%string)
    /\ (Quality.primary_issue q = "none"%string ->
        fge (Quality.overall_quality_score (Quality.record q)) (num 80) = true
        /\ (Quality.quality_grade (Quality.record q) = "A"%string
            \/ Quality.quality_grade (Quality.record q) = "B"%string)).
Proof.
  intros clock df q Hin.
  destruct (quality_model_row clock df q Hin)
    as (cd & country & tl & now & Hne & Ht & ->).
  destruct (quality_dict_scores cd country tl now Hne Ht)
    as (c & t & v & k & s & Ec & Et & Ev & Ek & Es & Eg & Hc & Ht' & Hv & Hk & Hs).
  cbv zeta in *.
  cbn [Quality.add_recommendations Quality.record Quality.requires_attention
       Quality.primary_issue].
  unfold Quality.primary_issue_of.
  rewrite Ec, Et, Ev, Ek, Es, Eg. unfold num.
  split.
  - rewrite flt_true.
    destruct (grade_of_cases s)
      as [[H ->]|[[H ->]|[[H ->]|[[H ->]|[H ->]]]]];
      (split; [intros Hlt|intros [E|E]]);
      try discriminate E; try lra; auto.
  - destruct (flt (Some c) (Some 80)) eqn:Fc; [discriminate|].
    destruct (flt (Some t) (Some 80)) eqn:Ft; [discriminate|].
    destruct (flt (Some v) (Some 80)) eqn:Fv; [discriminate|].
    destruct (flt (Some k) (Some 80)) eqn:Fk; [discriminate|].
    intros _.
    apply flt_false in Fc, Ft, Fv, Fk.
    assert (80 <= s) as H80 by lra.
    split.
    + unfold fge, fle. apply Qle_bool_iff, H80.
    + destruct (grade_of_cases s)
        as [[H ->]|[[H ->]|[[H _]|[[H _]|[H _]]]]]; auto; lra.
Qed.

(** X24 at [Sample.stepped], the clock in January 2021. *)
Lemma X24_stepped_row :
  exists q : Quality.Quality,
    In q (run (Quality.model Sample.clock_january Sample.stepped))
    /\ (Quality.requires_attention q = true
        <-> Quality.quality_grade (Quality.record q) = "D"%string
            \/ Quality.quality_grade (Quality.record q) = "F"%string)
    /\ (Quality.primary_issue q = "none"%string ->
        fge (Quality.overall_quality_score (Quality.record q)) (num 80) = true
        /\ (Quality.quality_grade (Quality.record q) = "A"%string
            \/ Quality.quality_grade (Quality.record q) = "B"%string)).
Proof.
  destruct (run (Quality.model Sample.clock_january Sample.stepped))
    as [|q l] eqn:E.
  - vm_compute in E. discriminate E.
  - exists q. split; [left; reflexivity|].
    apply (X24_attention_and_primary_issue_follow_the_grade
             Sample.clock_january Sample.stepped).
    rewrite E. left. reflexivity.
Defined.

(* ===================================================================== *)
(** * Further properties: quartiles and the IQR fences                    *)
(* ===================================================================== *)

Lemma insert_sorted_sorted (x : Q) (l : list Q) :
  StronglySorted Qle l -> StronglySorted Qle (Anomaly.insert_sorted x l).
Proof.
  induction 1 as [|h t Ht IH Hh]; cbn [Anomaly.insert_sorted].
  - constructor; constructor.
  - destruct (Qle_bool x h) eqn:E.
    + apply Qle_bool_iff in E. constructor; [constructor; assumption|].
      constructor; [exact E|].
      eapply Forall_impl; [|exact Hh]. intros y Hy. cbv beta in Hy. lra.
    + assert (h <= x) as Hx.
      { apply Qlt_le_weak, Qnot_le_lt. intros H. apply Qle_bool_iff in H.
        congruence. }
      constructor; [exact IH|].
      apply insert_sorted_Forall; assumption.
Qed.

Lemma sort_sorted (l : list Q) : StronglySorted Qle (Anomaly.sort l).
Proof.
  induction l as [|x l IH]; [constructor|].
  cbn [Anomaly.sort fold_right]. apply insert_sorted_sorted, IH.
Qed.

Lemma sorted_nth (v : list Q) (d : Q) :
  StronglySorted Qle v ->
  forall i j, (i <= j < length v)%nat -> nth i v d <= nth j v d.
Proof.
  induction 1 as [|a l Hl IH Ha]; intros i j Hij; [simpl in Hij; lia|].
  destruct i as [|i], j as [|j]; cbn [nth]; cbn [length] in Hij.
  - lra.
  - rewrite Forall_forall in Ha. apply Ha, nth_In. lia.
  - lia.
  - apply IH. lia.
Qed.

(** Linear interpolation between neighbouring order statistics grows with the
    position. *)
Lemma interpolation_monotone (v : list Q) (v0 p q : Q) :
  StronglySorted Qle v -> (0 < length v)%nat ->
  0 <= p -> p <= q -> q <= Qlen v - 1 ->
  nth (Z.to_nat (Qfloor p)) v v0
  + (nth (Nat.min (S (Z.to_nat (Qfloor p))) (length v - 1)) v v0
     - nth (Z.to_nat (Qfloor p)) v v0) * (p - inject_Z (Qfloor p))
  <= nth (Z.to_nat (Qfloor q)) v v0
     + (nth (Nat.min (S (Z.to_nat (Qfloor q))) (length v - 1)) v v0
        - nth (Z.to_nat (Qfloor q)) v v0) * (q - inject_Z (Qfloor q)).
Proof.
  intros Hs Hn Hp Hpq Hq.
  assert (0 <= Qfloor p)%Z as Hfp
    by (change 0%Z with (Qfloor 0); apply Qfloor_resp_le, Hp).
  assert (Qfloor p <= Qfloor q)%Z as Hfpq by (apply Qfloor_resp_le, Hpq).
  assert (Qfloor q <= Z.of_nat (length v) - 1)%Z as Hfq.
  { rewrite <- (Qfloor_Z (Z.of_nat (length v) - 1)). apply Qfloor_resp_le.
    unfold Qlen in Hq. unfold Z.sub. rewrite inject_Z_plus.
    change (inject_Z (- (1))) with (- (1)). lra. }
  pose proof (Qfloor_le p) as Hp0. pose proof (Qlt_floor p) as Hp1.
  pose proof (Qfloor_le q) as Hq0. pose proof (Qlt_floor q) as Hq1.
  rewrite inject_Z_plus in Hp1, Hq1.
  change (inject_Z 1) with 1 in Hp1, Hq1.
  assert (forall x, (0 <= Qfloor x <= Z.of_nat (length v) - 1)%Z ->
            nth (Z.to_nat (Qfloor x)) v v0
            <= nth (Nat.min (S (Z.to_nat (Qfloor x))) (length v - 1)) v v0)
    as Hab by (intros x Hx; apply sorted_nth; [exact Hs|lia]).
  pose proof (Hab p ltac:(lia)) as Habp.
  pose proof (Hab q ltac:(lia)) as Habq.
  destruct (Z.eq_dec (Qfloor p) (Qfloor q)) as [E|Hne].
  - rewrite E in *.
    revert Habq Hp0 Hq0 Hq1.
    generalize (nth (Z.to_nat (Qfloor q)) v v0)
               (nth (Nat.min (S (Z.to_nat (Qfloor q))) (length v - 1)) v v0)
               (inject_Z (Qfloor q)).
    intros a b f Hab' Hp0 Hq0 Hq1. nra.
  - assert (nth (Nat.min (S (Z.to_nat (Qfloor p))) (length v - 1)) v v0
            <= nth (Z.to_nat (Qfloor q)) v v0) as Hmid
      by (apply sorted_nth; [exact Hs|lia]).
    revert Habp Habq Hmid Hp0 Hp1 Hq0 Hq1.
    generalize (nth (Z.to_nat (Qfloor p)) v v0)
               (nth (Nat.min (S (Z.to_nat (Qfloor p))) (length v - 1)) v v0)
               (nth (Z.to_nat (Qfloor q)) v v0)
               (nth (Nat.min (S (Z.to_nat (Qfloor q))) (length v - 1)) v v0)
               (inject_Z (Qfloor p)) (inject_Z (Qfloor q)).
    intros a b a' b' f f' Hab1 Hab2 Hmid Hp0 Hp1 Hq0 Hq1.
    assert (0 <= (b - a) * (1 - (p - f))) by (apply Qmult_le_0_compat; lra).
    assert (0 <= (b' - a') * (q - f')) by (apply Qmult_le_0_compat; lra).
    nra.
Qed.

(** The quantiles of a series grow with the level. *)
Lemma quantile_monotone (series : list float) (p q : Q) :
  dropna series <> [] -> 0 <= p -> p <= q -> q <= 1 ->
  exists a b,
    Anomaly.quantile series p = Some a
    /\ Anomaly.quantile series q = Some b
    /\ a <= b.
Proof.
  intros Hne Hp Hpq Hq. unfold Anomaly.quantile.
  pose proof (sort_sorted (dropna series)) as Hs.
  destruct (Anomaly.sort (dropna series)) as [|v0 vs] eqn:E.
  { destruct (dropna series) as [|x l]; [congruence|].
    simpl in E. exfalso. exact (insert_sorted_not_nil _ _ E). }
  cbv zeta. eexists _, _. split; [reflexivity|]. split; [reflexivity|].
  rewrite !Qred_correct.
  assert (0 <= Qlen (v0 :: vs) - 1) as Hlen
    by (rewrite Qlen_cons; unfold Qlen;
        assert (0 <= inject_Z (Z.of_nat (length vs)))
          by (change 0 with (inject_Z 0); rewrite <- Zle_Qle; lia);
        lra).
  apply (interpolation_monotone (v0 :: vs) v0
           (p * (Qlen (v0 :: vs) - 1)) (q * (Qlen (v0 :: vs) - 1))).
  - exact Hs.
  - simpl. lia.
  - apply Qmult_le_0_compat; assumption.
  - apply Qmult_le_compat_r; assumption.
  - revert Hlen. generalize (Qlen (v0 :: vs) - 1). intros n Hlen. nra.
Qed.

Lemma In_combine_map {A B} (f : A -> B) (l : list A) (x : A) (y : B) :
  In (x, y) (combine l (map f l)) -> In x l /\ y = f x.
Proof.
  induction l as [|a l IH]; [intros []|].
  cbn [map combine]. intros [E|Hin].
  - injection E as <- <-. split; [left|]; reflexivity.
  - destruct (IH Hin) as [Hx Hy]. split; [right|]; assumption.
Qed.

(** X25: a series with at least one value has quartiles with Q1 <= Q3; a
    value is flagged as an IQR outlier exactly when it lies below
    Q1 - 1.5 (Q3 - Q1) or above Q3 + 1.5 (Q3 - Q1), so that no value between
    the quartiles and no missing value is ever flagged. *)
Theorem X25_no_outlier_between_the_quartiles :
  forall series : list float,
    dropna series <> [] ->
    exists q1 q3 : Q,
      Anomaly.quantile series (1 # 4) = Some q1
      /\ Anomaly.quantile series (3 # 4) = Some q3
      /\ q1 <= q3
      /\ forall (x : float) (flag : bool),
           In (x, flag) (combine series (Anomaly.detect_iqr_outliers series)) ->
           (flag = true <->
            exists v, x = Some v
                      /\ (v < q1 - (3 # 2) * (q3 - q1)
                          \/ q3 + (3 # 2) * (q3 - q1) < v))
           /\ (forall v, x = Some v -> q1 <= v <= q3 -> flag = false).
Proof.
  intros series Hne.
  destruct (quantile_monotone series (1 # 4) (3 # 4) Hne)
    as (q1 & q3 & E1 & E3 & Hq); try lra.
  exists q1, q3. split; [exact E1|]. split; [exact E3|]. split; [exact Hq|].
  intros x flag Hin. unfold Anomaly.detect_iqr_outliers in Hin.
  cbv zeta in Hin. rewrite E1, E3 in Hin.
  apply In_combine_map in Hin as [_ ->].
  unfold num, Anomaly.IQR_MULTIPLIER. cbn [fsub fadd fmul lift2].
  destruct x as [v|].
  - unfold fgt. rewrite orb_true_iff, !flt_true, !Qred_correct.
    split.
    + split.
      * intros Hv. exists v. split; [reflexivity|exact Hv].
      * intros (w & Ew & Hw). injection Ew as ->. exact Hw.
    + intros w Ew Hw. injection Ew as ->.
      apply orb_false_iff. unfold fgt.
      split; apply flt_false; rewrite !Qred_correct; lra.
  - cbn [flt fgt orb]. split.
    + split; [discriminate|]. intros (w & Ew & _). discriminate Ew.
    + intros w Ew. discriminate Ew.
Qed.

(** X25 at a series of five values and a missing one. *)
Lemma X25_quartiles_of_five_values :
  exists q1 q3 : Q,
    Anomaly.quantile [Some 3; NaN; Some 1; Some 5; Some 2; Some 4] (1 # 4)
    = Some q1
    /\ Anomaly.quantile [Some 3; NaN; Some 1; Some 5; Some 2; Some 4] (3 # 4)
       = Some q3
    /\ q1 <= q3
    /\ forall (x : float) (flag : bool),
         In (x, flag)
            (combine [Some 3; NaN; Some 1; Some 5; Some 2; Some 4]
               (Anomaly.detect_iqr_outliers
                  [Some 3; NaN; Some 1; Some 5; Some 2; Some 4])) ->
         (flag = true <->
          exists v, x = Some v
                    /\ (v < q1 - (3 # 2) * (q3 - q1)
                        \/ q3 + (3 # 2) * (q3 - q1) < v))
         /\ (forall v, x = Some v -> q1 <= v <= q3 -> flag = false).
Proof.
  apply (X25_no_outlier_between_the_quartiles
           [Some 3; NaN; Some 1; Some 5; Some 2; Some 4]).
  simpl. discriminate.
Defined.

(* ===================================================================== *)
(** * Further properties: full marks for validity and completeness        *)
(* ===================================================================== *)

Lemma Some_100 (x : Q) : x == 100 -> Some (Qred x) = Some 100.
Proof.
  intros E. f_equal. transitivity (Qred 100); [|reflexivity].
  apply Qred_complete, E.
Qed.

Lemma bool_mean_all_true (l : list bool) :
  l <> [] -> Forall (fun b => b = true) l ->
  (Quality.bool_mean l * num 100)%F = Some 100.
Proof.
  intros Hne Hall. unfold Quality.bool_mean, num.
  assert (filter (fun b : bool => b) l = l) as ->.
  { clear Hne. induction Hall as [|b l -> _ IH]; [reflexivity|].
    cbn [filter]. f_equal. exact IH. }
  assert (0 < Qlen l) as Hpos
    by (apply Qlen_pos; destruct l; [congruence|simpl; lia]).
  rewrite fdiv_Some by lra. cbn [fmul lift2].
  apply Some_100. rewrite Qred_correct. field. lra.
Qed.

Lemma np_mean_all_100 (l : list float) :
  l <> [] -> Forall (fun a => a = Some 100) l ->
  Quality.np_mean l = Some 100.
Proof.
  intros Hne Hall. unfold Quality.np_mean, num.
  assert (exists s, fsum l = Some s /\ s == 100 * Qlen l) as (s & -> & Hs).
  { clear Hne. induction Hall as [|a l -> _ (s & Es & Hs)].
    - exists 0. split; reflexivity.
    - unfold fsum in *. cbn [fold_right]. rewrite Es. cbn [fadd lift2].
      eexists. split; [reflexivity|]. rewrite Qred_correct, Qlen_cons. lra. }
  assert (0 < Qlen l) as Hpos
    by (apply Qlen_pos; destruct l; [congruence|simpl; lia]).
  rewrite fdiv_Some by lra.
  apply Some_100. rewrite Hs. field. lra.
Qed.

Lemma in_range_all (lo hi : Q) (series : list float) :
  (forall v, In (Some v) series -> lo <= v <= hi) ->
  Forall (fun b => b = true) (map (Quality.in_range lo hi) (dropna series)).
Proof.
  intros Hall. apply Forall_forall. intros b Hb.
  apply in_map_iff in Hb as (v & <- & Hv).
  apply In_dropna in Hv. destruct (Hall v Hv) as [Hlo Hhi].
  unfold Quality.in_range. apply andb_true_iff.
  split; apply Qle_bool_iff; assumption.
Qed.

(** X26: a country whose unemployment rates all lie in [0, 30] and whose
    monthly inflation rates all lie in [-5, 20], missing values apart, has
    the validity score 100; so has a country with no value at all, or a
    relation without the two columns. *)
Theorem X26_validity_of_data_within_range :
  forall df : Frame,
    (forall r v, In r (rows df) -> unemployment_rate_pct r = Some v ->
                 0 <= v <= 30) ->
    (forall r v, In r (rows df) -> inflation_rate_mom_pct r = Some v ->
                 -5 <= v <= 20) ->
    Quality.get (Quality.calculate_validity df) "overall_validity" (num 0)
    = Some 100.
Proof.
  intros df Hu Hi.
  assert (forall (col : Row -> float) lo hi,
            (forall r v, In r (rows df) -> col r = Some v -> lo <= v <= hi) ->
            (0 <? length (dropna (map col (rows df))))%nat = true ->
            (Quality.bool_mean
               (map (Quality.in_range lo hi) (dropna (map col (rows df))))
             * num 100)%F = Some 100) as Hcol.
  { intros col lo hi Hr Hl. apply bool_mean_all_true.
    - apply nonempty_of_ltb in Hl.
      destruct (dropna (map col (rows df))); [congruence|discriminate].
    - apply in_range_all. intros v Hv.
      apply in_map_iff in Hv as (r & Er & Hin). exact (Hr r v Hin Er). }
  pose proof (Hcol unemployment_rate_pct 0 30 Hu) as Hcu.
  pose proof (Hcol inflation_rate_mom_pct (-5) 20 Hi) as Hci.
  unfold Quality.calculate_validity. cbv zeta.
  unfold Quality.EXPECTED_UNEMPLOYMENT_MIN, Quality.EXPECTED_UNEMPLOYMENT_MAX,
    Quality.EXPECTED_INFLATION_MIN, Quality.EXPECTED_INFLATION_MAX.
  destruct (has_column df "unemployment_rate_pct");
    destruct (has_column df "inflation_rate_mom_pct");
    try destruct (0 <? length (dropna (map unemployment_rate_pct (rows df))))%nat
      eqn:Eu;
    try destruct (0 <? length (dropna (map inflation_rate_mom_pct (rows df))))%nat
      eqn:Ei;
    try rewrite (Hcu eq_refl); try rewrite (Hci eq_refl);
    reflexivity.
Qed.

(** X26 at [Sample.stepped]. *)
Lemma X26_stepped_validity :
  Quality.get (Quality.calculate_validity Sample.stepped)
    "overall_validity" (num 0)
  = Some 100.
Proof.
  apply X26_validity_of_data_within_range.
  - intros r v Hin. simpl in Hin.
    repeat (destruct Hin as [<-|Hin];
            [intros E; injection E as <-; split; unfold Qle; simpl; lia|]).
    destruct Hin.
  - intros r v Hin. simpl in Hin.
    repeat (destruct Hin as [<-|Hin];
            [intros E; injection E as <-; split; unfold Qle; simpl; lia|]).
    destruct Hin.
Defined.

(** X27: a country with at least one row and no missing value in either
    tracked column has the completeness score 100, unless the relation has
    neither column, when the score is 0. *)
Theorem X27_completeness_without_missing_values :
  forall df : Frame,
    rows df <> [] ->
    (forall r, In r (rows df) ->
               isnan (unemployment_rate_pct r) = false
               /\ isnan (inflation_rate_mom_pct r) = false) ->
    Quality.get
      (Quality.calculate_completeness df
         ["unemployment_rate_pct"; "inflation_rate_mom_pct"]%string)
      "overall_completeness" (num 0)
    = if has_column df "unemployment_rate_pct"
         || has_column df "inflation_rate_mom_pct"
      then Some 100 else Some 0.
Proof.
  intros df Hne Hall.
  assert (forall col,
            (Quality.bool_mean
               (map (fun r => negb (isnan (Quality.column_of col r))) (rows df))
             * num 100)%F = Some 100) as Hcol.
  { intros col. apply bool_mean_all_true.
    - destruct (rows df); [congruence|discriminate].
    - apply Forall_forall. intros b Hb.
      apply in_map_iff in Hb as (r & <- & Hr).
      destruct (Hall r Hr) as [Hu Hi]. unfold Quality.column_of.
      destruct (String.eqb col "unemployment_rate_pct");
        [rewrite Hu|rewrite Hi]; reflexivity. }
  unfold Quality.calculate_completeness. cbn [fold_left].
  destruct (has_column df "unemployment_rate_pct");
    destruct (has_column df "inflation_rate_mom_pct");
    rewrite ?Hcol; reflexivity.
Qed.

(** X27 at [Sample.stepped]. *)
Lemma X27_stepped_completeness :
  Quality.get
    (Quality.calculate_completeness Sample.stepped
       ["unemployment_rate_pct"; "inflation_rate_mom_pct"]%string)
    "overall_completeness" (num 0)
  = Some 100.
Proof.
  apply (X27_completeness_without_missing_values Sample.stepped).
  - discriminate.
  - intros r Hin. simpl in Hin.
    repeat (destruct Hin as [<-|Hin]; [split; reflexivity|]).
    destruct Hin.
Defined.
